(** * Node-prediction pipeline generator (dgl/enter/pipeline/nodepred/gen.py)

    A shallow embedding of [NodepredPipelineCfg], [NodepredPipeline.get_cfg_func]
    and [NodepredPipeline.gen_script], with the Python object store made
    explicit: dictionaries and lists live in a heap and are reached through
    references, so that [copy.deepcopy], [dict.pop] and item assignment have
    their aliasing behaviour. *)

From Stdlib Require Import ZArith String Ascii List Lia Bool.
From stdpp Require Import base option list strings gmap pretty.
Import ListNotations.
Local Open Scope string_scope.
Local Open Scope list_scope.
Local Open Scope nat_scope.
Set Warnings "-register-all".

(** ** Python values *)

(** The only enumeration whose members reach a configuration value:
    [DeviceEnum] of utils/base_model.py ("Device, cpu or cuda"). *)
Inductive DeviceEnum := cpu | cuda.

Definition DeviceEnum_value (d : DeviceEnum) : string :=
  match d with cpu => "cpu" | cuda => "cuda" end.

(** Immutable objects.  A float is carried by its [repr], which determines
    the double. *)
Inductive atom :=
| ANone
| ABool (b : bool)
| AInt (z : Z)
| AFloat (repr : string)
| AStr (s : string)
| AEnum (d : DeviceEnum).

(** A configuration as a tree: what a YAML document parses to. *)
Inductive value :=
| VAtom (a : atom)
| VList (xs : list value)
| VDict (kvs : list (string * value)).

Definition VNone := VAtom ANone.
Definition VInt (z : Z) := VAtom (AInt z).
Definition VFloat (r : string) := VAtom (AFloat r).
Definition VStr (s : string) := VAtom (AStr s).

(** Heap values: an immutable object or a reference to a mutable one. *)
Abbreviation loc := nat (only parsing).

Inductive val :=
| Atom (a : atom)
| Ref (l : loc).

Inductive obj :=
| OList (xs : list val)
| ODict (kvs : list (string * val)).

(** ** Dictionaries

    A [dict] keeps insertion order, which [str] shows.  Lookup takes the
    binding of the key, assignment replaces it in place or appends, and
    deletion removes it. *)
Section Dict.
Context {V : Type}.

Fixpoint dict_get (k : string) (d : list (string * V)) : option V :=
  match d with
  | [] => None
  | (k', v) :: r => if String.eqb k' k then Some v else dict_get k r
  end.

Fixpoint dict_set (k : string) (v : V) (d : list (string * V)) : list (string * V) :=
  match d with
  | [] => [(k, v)]
  | (k', v') :: r =>
      if String.eqb k' k then (k, v) :: r else (k', v') :: dict_set k v r
  end.

Definition dict_del (k : string) (d : list (string * V)) : list (string * V) :=
  List.filter (fun kv => negb (String.eqb (fst kv) k)) d.

Definition dict_update (d other : list (string * V)) : list (string * V) :=
  fold_left (fun acc kv => dict_set (fst kv) (snd kv) acc) other d.

(** [alter_first k f d] rewrites the value that [dict_get k d] finds. *)
Fixpoint alter_first (k : string) (f : V -> V) (d : list (string * V)) : list (string * V) :=
  match d with
  | [] => []
  | (k', v) :: r =>
      if String.eqb k' k then (k', f v) :: r else (k', v) :: alter_first k f r
  end.
End Dict.

(** ** Comment-carrying documents and files *)

(** ruamel's [CommentedMap]: a mapping whose keys may carry a comment. *)
Inductive cvalue :=
| CAtom (a : atom)
| CList (xs : list cvalue)
| CMap (kvs : list (string * (option string * cvalue))).

(** A file holds text, or a YAML document.  The YAML layer is not
    modelled at the level of characters: a dumped document is the
    annotated tree, and loading it gives the tree without its comments. *)
Inductive file :=
| FText (s : string)
| FYaml (doc : cvalue).

Inductive io_event :=
| EvOpenRead (path : string)
| EvOpenWrite (path : string)
| EvWrite (path : string)
| EvPrint (line : string).

(** ** The store and the monad of effects *)

Inductive exn :=
| KeyError (k : string)
| TypeError
| ValidationError
| RecursionError
| FileNotFoundError (path : string)
| PermissionError (path : string)
| TemplateError
| DanglingRef.

Inductive outcome (A : Type) :=
| Ok (a : A)
| Raise (e : exn).
Arguments Ok {A} a.
Arguments Raise {A} e.

Record world := World {
  heap : list obj;
  files : gmap string file;
  trace : list io_event
}.

Definition M (A : Type) : Type := world -> outcome A * world.

Definition ret {A} (a : A) : M A := fun w => (Ok a, w).

Definition bind {A B} (m : M A) (f : A -> M B) : M B :=
  fun w =>
    match m w with
    | (Ok a, w') => f a w'
    | (Raise e, w') => (Raise e, w')
    end.

Definition raise {A} (e : exn) : M A := fun w => (Raise e, w).

Definition lift {A} (o : outcome A) : M A := fun w => (o, w).

Definition lift_opt {A} (e : exn) (o : option A) : M A :=
  match o with Some a => ret a | None => raise e end.

Declare Scope py_scope.
Delimit Scope py_scope with py.
Notation "x <- m ;; f" := (bind m (fun x => f))
  (at level 100, m at next level, right associativity) : py_scope.
Notation "m ;;; f" := (bind m (fun _ => f))
  (at level 100, right associativity) : py_scope.
Local Open Scope py_scope.

Definition get_heap : M (list obj) := fun w => (Ok (heap w), w).

Definition put_heap (h : list obj) : M unit :=
  fun w => (Ok tt, World h (files w) (trace w)).

Definition log (e : io_event) : M unit :=
  fun w => (Ok tt, World (heap w) (files w) (trace w ++ [e])).

(** ** Object operations *)

Definition deref (v : val) : M (loc * obj) :=
  match v with
  | Atom _ => raise TypeError
  | Ref l =>
      h <- get_heap ;;
      match h !! l with
      | Some o => ret (l, o)
      | None => raise DanglingRef
      end
  end.

Definition store_obj (l : loc) (o : obj) : M unit :=
  h <- get_heap ;; put_heap (<[l := o]> h).

(** [{}] / a fresh dictionary with the given items. *)
Definition new_dict (kvs : list (string * val)) : M val :=
  h <- get_heap ;;
  put_heap (h ++ [ODict kvs]) ;;;
  ret (Ref (length h)).

(** [d[k]] *)
Definition getitem (d : val) (k : string) : M val :=
  lo <- deref d ;;
  match snd lo with
  | ODict kvs => lift_opt (KeyError k) (dict_get k kvs)
  | OList _ => raise TypeError
  end.

(** [d[k] = v] *)
Definition setitem (d : val) (k : string) (v : val) : M unit :=
  lo <- deref d ;;
  match snd lo with
  | ODict kvs => store_obj (fst lo) (ODict (dict_set k v kvs))
  | OList _ => raise TypeError
  end.

(** [d.pop(k)] *)
Definition pop (d : val) (k : string) : M val :=
  lo <- deref d ;;
  match snd lo with
  | ODict kvs =>
      match dict_get k kvs with
      | Some v => store_obj (fst lo) (ODict (dict_del k kvs)) ;;; ret v
      | None => raise (KeyError k)
      end
  | OList _ => raise TypeError
  end.

(** [len(x)] *)
Definition py_len (x : val) : M nat :=
  match x with
  | Atom (AStr s) => ret (String.length s)
  | Atom _ => raise TypeError
  | Ref _ =>
      lo <- deref x ;;
      match snd lo with
      | ODict kvs => ret (length kvs)
      | OList xs => ret (length xs)
      end
  end.

(** [d.update(other)] with a literal mapping of strings. *)
Fixpoint update_str (d : val) (other : list (string * string)) : M unit :=
  match other with
  | [] => ret tt
  | (k, s) :: r => setitem d k (Atom (AStr s)) ;;; update_str d r
  end.

(** ** Reading a tree out of the heap *)

Fixpoint mapM_list {A B} (f : A -> outcome B) (xs : list A) : outcome (list B) :=
  match xs with
  | [] => Ok []
  | x :: r =>
      match f x with
      | Ok y =>
          match mapM_list f r with
          | Ok ys => Ok (y :: ys)
          | Raise e => Raise e
          end
      | Raise e => Raise e
      end
  end.

Fixpoint mapM_items {A B} (f : A -> outcome B) (kvs : list (string * A))
  : outcome (list (string * B)) :=
  match kvs with
  | [] => Ok []
  | (k, x) :: r =>
      match f x with
      | Ok y =>
          match mapM_items f r with
          | Ok ys => Ok ((k, y) :: ys)
          | Raise e => Raise e
          end
      | Raise e => Raise e
      end
  end.

Definition omap {A B} (f : A -> B) (o : outcome A) : outcome B :=
  match o with Ok a => Ok (f a) | Raise e => Raise e end.

(** The tree a heap value stands for.  Every container level uses one
    level of [fuel], as every level of a Python traversal uses stack
    frames; running out is [RecursionError]. *)
Fixpoint reify (fuel : nat) (h : list obj) (v : val) : outcome value :=
  match v with
  | Atom a => Ok (VAtom a)
  | Ref l =>
      match fuel with
      | O => Raise RecursionError
      | S fuel' =>
          match h !! l with
          | None => Raise DanglingRef
          | Some (OList xs) => omap VList (mapM_list (reify fuel' h) xs)
          | Some (ODict kvs) => omap VDict (mapM_items (reify fuel' h) kvs)
          end
      end
  end.

(** ** Building a tree in the heap

    What a parser or a literal does: every list and dictionary of the
    tree becomes a fresh object.  [store_at base t] gives the value and
    the objects to append to a heap of length [base]; a container comes
    before its elements. *)
Definition store_list (f : nat -> value -> val * list obj)
  : nat -> list value -> list val * list obj :=
  fix go (b : nat) (xs : list value) : list val * list obj :=
    match xs with
    | [] => ([], [])
    | x :: r =>
        let '(y, o1) := f b x in
        let '(ys, o2) := go (b + length o1) r in
        (y :: ys, o1 ++ o2)
    end.

Definition store_items (f : nat -> value -> val * list obj)
  : nat -> list (string * value) -> list (string * val) * list obj :=
  fix go (b : nat) (kvs : list (string * value))
    : list (string * val) * list obj :=
    match kvs with
    | [] => ([], [])
    | (k, x) :: r =>
        let '(y, o1) := f b x in
        let '(ys, o2) := go (b + length o1) r in
        ((k, y) :: ys, o1 ++ o2)
    end.

Fixpoint store_at (base : nat) (t : value) : val * list obj :=
  match t with
  | VAtom a => (Atom a, [])
  | VList xs =>
      let '(ys, objs) := store_list store_at (S base) xs in
      (Ref base, OList ys :: objs)
  | VDict kvs =>
      let '(ys, objs) := store_items store_at (S base) kvs in
      (Ref base, ODict ys :: objs)
  end.

Definition alloc (t : value) : M val :=
  fun w =>
    let '(v, objs) := store_at (length (heap w)) t in
    (Ok v, World (heap w ++ objs) (files w) (trace w)).

(** ** copy.deepcopy

    [deepcopy(x, memo)]: an immutable object is returned as it is; an
    object already in [memo] gives its recorded copy; otherwise the copy
    is created, recorded in [memo] before its items are copied, and then
    filled. *)
Definition cstate : Type := list (loc * loc) * list obj.

Fixpoint memo_get (l : loc) (memo : list (loc * loc)) : option loc :=
  match memo with
  | [] => None
  | (k, y) :: r => if Nat.eqb k l then Some y else memo_get l r
  end.

Fixpoint copy_list (rec : val -> cstate -> outcome (val * cstate))
    (xs : list val) (st : cstate) : outcome (list val * cstate) :=
  match xs with
  | [] => Ok ([], st)
  | x :: r =>
      match rec x st with
      | Ok (y, st1) =>
          match copy_list rec r st1 with
          | Ok (ys, st2) => Ok (y :: ys, st2)
          | Raise e => Raise e
          end
      | Raise e => Raise e
      end
  end.

Fixpoint copy_items (rec : val -> cstate -> outcome (val * cstate))
    (kvs : list (string * val)) (st : cstate)
  : outcome (list (string * val) * cstate) :=
  match kvs with
  | [] => Ok ([], st)
  | (k, x) :: r =>
      match rec x st with
      | Ok (y, st1) =>
          match copy_items rec r st1 with
          | Ok (ys, st2) => Ok ((k, y) :: ys, st2)
          | Raise e => Raise e
          end
      | Raise e => Raise e
      end
  end.

Fixpoint deepcopy_go (fuel : nat) (x : val) (st : cstate)
  : outcome (val * cstate) :=
  match x with
  | Atom _ => Ok (x, st)
  | Ref l =>
      match memo_get l (fst st) with
      | Some y => Ok (Ref y, st)
      | None =>
          match fuel with
          | O => Raise RecursionError
          | S fuel' =>
              let y := length (snd st) in
              match snd st !! l with
              | None => Raise DanglingRef
              | Some (OList xs) =>
                  match copy_list (deepcopy_go fuel') xs
                          ((l, y) :: fst st, snd st ++ [OList []]) with
                  | Ok (ys, (memo', h')) =>
                      Ok (Ref y, (memo', <[y := OList ys]> h'))
                  | Raise e => Raise e
                  end
              | Some (ODict kvs) =>
                  match copy_items (deepcopy_go fuel') kvs
                          ((l, y) :: fst st, snd st ++ [ODict []]) with
                  | Ok (ys, (memo', h')) =>
                      Ok (Ref y, (memo', <[y := ODict ys]> h'))
                  | Raise e => Raise e
                  end
              end
          end
      end
  end.

(** ** Trees: serialisation helpers *)

(** A comment mapping: a string for a key, or a nested mapping. *)
Inductive comments :=
| CmStr (s : string)
| CmDict (kvs : list (string * comments)).

(** Modelled from the spec: [deep_convert_dict] of utils/yaml_dump.py,
    "recursively normalizing non-primitive values (e.g., enum members) to
    their primitive serializable form". *)
Fixpoint deep_convert_dict (v : value) : value :=
  match v with
  | VAtom (AEnum d) => VStr (DeviceEnum_value d)
  | VAtom a => VAtom a
  | VList xs => VList (map deep_convert_dict xs)
  | VDict kvs => VDict (map (fun '(k, x) => (k, deep_convert_dict x)) kvs)
  end.

(** A tree as a document without comments. *)
Fixpoint plain (v : value) : cvalue :=
  match v with
  | VAtom a => CAtom a
  | VList xs => CList (map plain xs)
  | VDict kvs => CMap (map (fun '(k, x) => (k, (None, plain x))) kvs)
  end.

(** Modelled from the spec: [merge_comment] of utils/yaml_dump.py.  The
    traversal follows the value tree; a comment is attached to a key only
    where the comment tree has a string at the same path, a nested comment
    mapping is followed into a nested value, and anything else in the
    comment tree is dropped. *)
Fixpoint merge_comment (v : value) (c : list (string * comments)) : cvalue :=
  match v with
  | VDict kvs =>
      CMap (map (fun '(k, x) =>
                   (k, match dict_get k c with
                       | Some (CmStr s) => (Some s, plain x)
                       | Some (CmDict sub) => (None, merge_comment x sub)
                       | None => (None, plain x)
                       end)) kvs)
  | _ => plain v
  end.

(** What a YAML loader reads back from a document: the values. *)
Fixpoint erase (c : cvalue) : value :=
  match c with
  | CAtom a => VAtom a
  | CList xs => VList (map erase xs)
  | CMap kvs => VDict (map (fun '(k, (_, x)) => (k, erase x)) kvs)
  end.

(** The comment carried by the key at the end of a path. *)
Fixpoint comment_at (path : list string) (c : cvalue) : option string :=
  match path, c with
  | [k], CMap kvs =>
      match dict_get k kvs with
      | Some (cm, _) => cm
      | None => None
      end
  | k :: rest, CMap kvs =>
      match dict_get k kvs with
      | Some (_, sub) => comment_at rest sub
      | None => None
      end
  | _, _ => None
  end.

(** The value at the end of a path. *)
Fixpoint value_at (path : list string) (v : value) : option value :=
  match path with
  | [] => Some v
  | k :: rest =>
      match v with
      | VDict kvs =>
          match dict_get k kvs with
          | Some sub => value_at rest sub
          | None => None
          end
      | _ => None
      end
  end.


(** ** What the module takes from outside

    [Runtime] gathers the interpreter and library behaviour the module
    relies on without fixing it; [Catalog] gathers the registries of
    utils/factory.py ([DataFactory], [NodeModelFactory]), which this
    module only calls. *)
Record EnumMember := { member_name : string; member_value : string }.

Record Runtime := {
  (** [sys.getrecursionlimit()], in container levels *)
  recursion_limit : nat;
  (** [repr] of a [str] *)
  str_repr : string -> string;
  (** pydantic's coercions of a value that is not of the field's type *)
  coerce_int : value -> option Z;
  coerce_str : value -> option string;
  coerce_dict : value -> option (list (string * value));
  (** [Path(__file__).resolve().parent / "nodepred.jinja-py"] *)
  template_path : string;
  (** jinja2: [Template(source)] and [template.render] on a context *)
  jinja_template : Type;
  Template : string -> option jinja_template;
  render : jinja_template -> list (string * value) -> option string;
  (** the text of a YAML document, and the file system's permissions *)
  yaml_emit : cvalue -> string;
  writable : string -> bool;
  absolute : string -> string;
  (** defaults of [EarlyStopConfig] (utils/base_model.py) *)
  default_patience : Z;
  default_checkpoint_path : string
}.

Record Catalog := {
  (** [DataFactory.get_dataset_enum()] *)
  dataset_enum : list EnumMember;
  (** [DataFactory.get_pydantic_config()]: one sub-schema per value of
      the discriminator [name]; a sub-schema validates the descriptor's
      items and gives the validated descriptor in dictionary form *)
  data_variants :
    list (string * (list (string * value) -> option (list (string * value))));
  (** [DataFactory.get_generated_code_dict(name, args)] *)
  get_generated_code_dict : string -> string -> option (list (string * string));
  (** [NodeModelFactory.get_model_enum()] *)
  model_enum : list EnumMember;
  (** [NodeModelFactory.get_pydantic_model_config()] *)
  model_variants :
    list (string * (list (string * value) -> option (list (string * value))));
  (** [NodeModelFactory.get_source_code(name)] *)
  get_source_code : string -> option string;
  (** [NodeModelFactory.get_model_class_name(name)] *)
  get_model_class_name : string -> option string;
  (** [NodeModelFactory.get_constructor_doc_dict(name)] *)
  get_constructor_doc_dict : string -> option (list (string * comments))
}.

(** ** The module's constants and schema *)

(** [pipeline_comments], lines 15-23. *)
Definition pipeline_comments : list (string * comments) :=
  [ ("node_embed_size", CmStr "The node learnable embedding size, -1 to disable");
    ("num_epochs", CmStr "Number of training epochs");
    ("eval_period", CmStr "Interval epochs between evaluations");
    ("early_stop", CmDict
       [ ("patience", CmStr "Steps before early stop");
         ("checkpoint_path", CmStr "Early stop checkpoint model file path") ]) ].

(** Modelled from the spec: [EarlyStopConfig] of utils/base_model.py, the
    "early-stop policy (patience count + checkpoint path)". *)
Record EarlyStopConfig := {
  patience : Z;
  checkpoint_path : string
}.

(** [class NodepredPipelineCfg(BaseModel)], lines 25-31. *)
Record NodepredPipelineCfg := {
  node_embed_size : option Z;
  early_stop : option EarlyStopConfig;
  num_epochs : Z;
  eval_period : Z;
  optimizer : list (string * value);
  loss : string
}.

(** Modelled from the spec: the fields of [UserConfig]
    (utils/enter_config.py) that the configuration document shows: the
    "pipeline identifier string" and the "target device enum". *)
Record NodePredUserConfig := {
  pipeline_name : string;
  device : DeviceEnum;
  data : list (string * value);
  model : list (string * value);
  general_pipeline : NodepredPipelineCfg
}.

Definition dquote : string := String (ascii_of_nat 34) EmptyString.

Section Pipeline.
Variable rt : Runtime.
Variable cat : Catalog.

(** *** pydantic field validation *)

Definition int_validator (v : value) : option Z :=
  match v with
  | VAtom (AInt z) => Some z
  | _ => coerce_int rt v
  end.

Definition str_validator (v : value) : option string :=
  match v with
  | VAtom (AStr s) => Some s
  | _ => coerce_str rt v
  end.

Definition dict_validator (v : value) : option (list (string * value)) :=
  match v with
  | VDict kvs => Some kvs
  | _ => coerce_dict rt v
  end.

(** [Optional[T]] *)
Definition optional {A} (validator : value -> option A) (v : value)
  : option (option A) :=
  match v with
  | VAtom ANone => Some None
  | _ => option_map Some (validator v)
  end.

(** An enumeration field takes a member or a member's value. *)
Definition DeviceEnum_validate (v : value) : option DeviceEnum :=
  match v with
  | VAtom (AEnum d) => Some d
  | VAtom (AStr s) =>
      if String.eqb s "cpu" then Some cpu
      else if String.eqb s "cuda" then Some cuda
      else None
  | _ => None
  end.

(** A field of a model: the keyword's value validated, or the default
    when the keyword is absent; [None] as default is a required field
    ([Field(...)]). *)
Definition field {A} (kw : list (string * value)) (name : string)
    (validator : value -> option A) (default : option A) : option A :=
  match dict_get name kw with
  | Some v => validator v
  | None => default
  end.

(** A model-typed field takes the model's keywords as a mapping. *)
Definition model_validator {A} (validate : list (string * value) -> option A)
    (v : value) : option A :=
  match v with
  | VDict kw => validate kw
  | _ => None
  end.

(** [Field(..., discriminator="name")] over a union of sub-schemas. *)
Definition discriminated
    (variants : list (string * (list (string * value) -> option (list (string * value)))))
    (v : value) : option (list (string * value)) :=
  match v with
  | VDict kw =>
      match dict_get "name" kw with
      | Some (VAtom (AStr n)) =>
          match dict_get n variants with
          | Some validate => validate kw
          | None => None
          end
      | _ => None
      end
  | _ => None
  end.

Definition EarlyStopConfig_default : EarlyStopConfig :=
  {| patience := default_patience rt;
     checkpoint_path := default_checkpoint_path rt |}.

Definition EarlyStopConfig_validate (kw : list (string * value))
  : option EarlyStopConfig :=
  match field kw "patience" int_validator (Some (default_patience rt)) with
  | Some p =>
      match field kw "checkpoint_path" str_validator
              (Some (default_checkpoint_path rt)) with
      | Some c => Some {| patience := p; checkpoint_path := c |}
      | None => None
      end
  | None => None
  end.

(** [NodepredPipelineCfg()] *)
Definition NodepredPipelineCfg_default : NodepredPipelineCfg :=
  {| node_embed_size := Some (-1)%Z;
     early_stop := Some EarlyStopConfig_default;
     num_epochs := 200%Z;
     eval_period := 5%Z;
     optimizer := [("name", VStr "Adam"); ("lr", VFloat "0.005")];
     loss := "CrossEntropyLoss" |}.

(** [NodepredPipelineCfg] called on the keywords [kw] *)
Definition NodepredPipelineCfg_validate (kw : list (string * value))
  : option NodepredPipelineCfg :=
  match field kw "node_embed_size" (optional int_validator)
          (Some (node_embed_size NodepredPipelineCfg_default)) with
  | None => None
  | Some nes =>
  match field kw "early_stop"
          (optional (model_validator EarlyStopConfig_validate))
          (Some (early_stop NodepredPipelineCfg_default)) with
  | None => None
  | Some es =>
  match field kw "num_epochs" int_validator
          (Some (num_epochs NodepredPipelineCfg_default)) with
  | None => None
  | Some ne =>
  match field kw "eval_period" int_validator
          (Some (eval_period NodepredPipelineCfg_default)) with
  | None => None
  | Some ep =>
  match field kw "optimizer" dict_validator
          (Some (optimizer NodepredPipelineCfg_default)) with
  | None => None
  | Some opt =>
  match field kw "loss" str_validator
          (Some (loss NodepredPipelineCfg_default)) with
  | None => None
  | Some ls =>
      Some {| node_embed_size := nes; early_stop := es; num_epochs := ne;
              eval_period := ep; optimizer := opt; loss := ls |}
  end end end end end end.

(** [NodePredUserConfig] called on the keywords [kw]: the class built by
    [setup_user_cfg_cls], lines 41-48. *)
Definition NodePredUserConfig_validate (kw : list (string * value))
  : option NodePredUserConfig :=
  match field kw "pipeline_name" str_validator None with
  | None => None
  | Some pn =>
  match field kw "device" DeviceEnum_validate None with
  | None => None
  | Some dev =>
  match field kw "data" (discriminated (data_variants cat)) None with
  | None => None
  | Some d =>
  match field kw "model" (discriminated (model_variants cat)) None with
  | None => None
  | Some m =>
  match field kw "general_pipeline"
          (model_validator NodepredPipelineCfg_validate)
          (Some NodepredPipelineCfg_default) with
  | None => None
  | Some gp =>
      Some {| pipeline_name := pn; device := dev; data := d; model := m;
              general_pipeline := gp |}
  end end end end end.

(** *** [.dict()] *)

Definition opt_value {A} (f : A -> value) (o : option A) : value :=
  match o with Some a => f a | None => VNone end.

Definition EarlyStopConfig_dict (c : EarlyStopConfig) : value :=
  VDict [("patience", VInt (patience c));
         ("checkpoint_path", VStr (checkpoint_path c))].

Definition NodepredPipelineCfg_dict (c : NodepredPipelineCfg) : value :=
  VDict [("node_embed_size", opt_value VInt (node_embed_size c));
         ("early_stop", opt_value EarlyStopConfig_dict (early_stop c));
         ("num_epochs", VInt (num_epochs c));
         ("eval_period", VInt (eval_period c));
         ("optimizer", VDict (optimizer c));
         ("loss", VStr (loss c))].

Definition NodePredUserConfig_dict (c : NodePredUserConfig)
  : list (string * value) :=
  [("pipeline_name", VStr (pipeline_name c));
   ("device", VAtom (AEnum (device c)));
   ("data", VDict (data c));
   ("model", VDict (model c));
   ("general_pipeline", NodepredPipelineCfg_dict (general_pipeline c))].

(** *** [str] of a configuration *)

Definition atom_repr (a : atom) : string :=
  match a with
  | ANone => "None"
  | ABool true => "True"
  | ABool false => "False"
  | AInt z => pretty z
  | AFloat r => r
  | AStr s => str_repr rt s
  | AEnum d =>
      "<DeviceEnum." +:+ DeviceEnum_value d +:+ ": "
        +:+ str_repr rt (DeviceEnum_value d) +:+ ">"
  end.

Fixpoint py_repr (v : value) : string :=
  match v with
  | VAtom a => atom_repr a
  | VList xs => "[" +:+ String.concat ", " (map py_repr xs) +:+ "]"
  | VDict kvs =>
      "{" +:+ String.concat ", "
                (map (fun '(k, x) => str_repr rt k +:+ ": " +:+ py_repr x) kvs)
          +:+ "}"
  end.

(** *** Files *)

Definition file_text (f : file) : string :=
  match f with
  | FText s => s
  | FYaml doc => yaml_emit rt doc
  end.

(** [open(path, "r")] followed by [read()] *)
Definition open_read (path : string) : M string :=
  fun w =>
    match files w !! path with
    | Some f =>
        (Ok (file_text f),
         World (heap w) (files w) (trace w ++ [EvOpenRead path]))
    | None => (Raise (FileNotFoundError path), w)
    end.

(** [Path(path).open("w")]: the file is created or truncated. *)
Definition open_write (path : string) : M unit :=
  fun w =>
    if writable rt path then
      (Ok tt,
       World (heap w) (<[path := FText ""]> (files w))
             (trace w ++ [EvOpenWrite path]))
    else (Raise (PermissionError path), w).

(** [yaml.dump(doc, stream)] on the stream opened at [path] *)
Definition yaml_dump (doc : cvalue) (path : string) : M unit :=
  fun w =>
    (Ok tt,
     World (heap w) (<[path := FYaml doc]> (files w))
           (trace w ++ [EvWrite path])).

Definition print (line : string) : M unit := log (EvPrint line).

(** *** [get_cfg_func]: the [config] command, lines 55-80

    [setup_user_cfg_cls] only rebuilds the schema class from the
    catalog, which [NodePredUserConfig_validate] reads directly.  The
    [NodepredPipelineCfg()] instance placed in the draft is given by its
    dictionary form. *)
Definition generated_cfg (data model : EnumMember) (device : DeviceEnum)
  : list (string * value) :=
  [("pipeline_name", VStr "nodepred");
   ("device", VAtom (AEnum device));
   ("data", VDict [("name", VStr (member_name data))]);
   ("model", VDict [("name", VStr (member_value model))]);
   ("general_pipeline", NodepredPipelineCfg_dict NodepredPipelineCfg_default)].

Definition config (data : EnumMember) (cfg : string) (model : EnumMember)
    (device : DeviceEnum) : M unit :=
  user <- lift_opt ValidationError
            (NodePredUserConfig_validate (generated_cfg data model device)) ;;
  let output_cfg := deep_convert_dict (VDict (NodePredUserConfig_dict user)) in
  docs <- lift_opt (KeyError (member_value model))
            (get_constructor_doc_dict cat (member_value model)) ;;
  let comment_dict :=
    merge_comment output_cfg
      [("general_pipeline", CmDict pipeline_comments);
       ("model", CmDict docs)] in
  open_write cfg ;;;
  yaml_dump comment_dict cfg ;;;
  print ("Configuration file is generated at " +:+ absolute rt cfg).

(** *** [gen_script], lines 84-115 *)

(** [copy.deepcopy(x)] *)
Definition deepcopy (x : val) : M val :=
  fun w =>
    match deepcopy_go (recursion_limit rt) x ([], heap w) with
    | Ok (y, (_, h')) => (Ok y, World h' (files w) (trace w))
    | Raise e => (Raise e, w)
    end.

(** The tree under a heap value, as a library reading it sees it. *)
Definition reify_m (x : val) : M value :=
  h <- get_heap ;; lift (reify (recursion_limit rt) h x).

(** [cls.user_cfg_cls] called on the unpacked dictionary *)
Definition validate_obj (d : val) : M NodePredUserConfig :=
  t <- reify_m d ;;
  match t with
  | VDict kw => lift_opt ValidationError (NodePredUserConfig_validate kw)
  | _ => raise TypeError
  end.

(** A registry lookup by a name taken from the configuration. *)
Definition registry {A} (lookup : string -> option A) (name : val) : M A :=
  match name with
  | Atom (AStr n) => lift_opt (KeyError n) (lookup n)
  | Atom _ => raise (KeyError "")
  | Ref _ => raise TypeError
  end.

(** [str(x)] *)
Definition py_str (x : val) : M string :=
  t <- reify_m x ;; ret (py_repr t).

Definition data_args : string := "**cfg[" +:+ dquote +:+ "data" +:+ dquote +:+ "]".

(** The local variables of [gen_script] when it reaches its [return]. *)
Record locals := {
  template : jinja_template rt;
  user_cfg : NodePredUserConfig;
  render_cfg : val;
  generated_user_cfg : val;
  generated_train_cfg : val
}.

Definition gen_script_locals (user_cfg_dict : val) : M locals :=
  (* Check validation *)
  user_cfg <- validate_obj user_cfg_dict ;;
  source <- open_read (template_path rt) ;;
  template <- lift_opt TemplateError (Template rt source) ;;

  render_cfg <- deepcopy user_cfg_dict ;;
  m <- getitem user_cfg_dict "model" ;;
  n <- getitem m "name" ;;
  model_code <- registry (get_source_code cat) n ;;
  setitem render_cfg "model_code" (Atom (AStr model_code)) ;;;
  m <- getitem user_cfg_dict "model" ;;
  n <- getitem m "name" ;;
  class_name <- registry (get_model_class_name cat) n ;;
  setitem render_cfg "model_class_name" (Atom (AStr class_name)) ;;;
  d <- getitem user_cfg_dict "data" ;;
  n <- getitem d "name" ;;
  code <- registry (fun n => get_generated_code_dict cat n data_args) n ;;
  update_str render_cfg code ;;;

  generated_user_cfg <- deepcopy user_cfg_dict ;;
  d <- getitem generated_user_cfg "data" ;;
  len <- py_len d ;;
  (if Nat.eqb len 1 then
     _ <- pop generated_user_cfg "data" ;; ret tt
   else
     d <- getitem generated_user_cfg "data" ;;
     _ <- pop d "name" ;; ret tt) ;;;
  _ <- pop generated_user_cfg "pipeline_name" ;;
  m <- getitem generated_user_cfg "model" ;;
  _ <- pop m "name" ;;
  g <- getitem generated_user_cfg "general_pipeline" ;;
  o <- getitem g "optimizer" ;;
  _ <- pop o "name" ;;

  g <- getitem user_cfg_dict "general_pipeline" ;;
  generated_train_cfg <- deepcopy g ;;
  o <- getitem generated_train_cfg "optimizer" ;;
  _ <- pop o "name" ;;

  s <- py_str generated_user_cfg ;;
  setitem render_cfg "user_cfg_str" (Atom (AStr ("cfg = " +:+ s))) ;;;
  setitem render_cfg "user_cfg" user_cfg_dict ;;;
  ret {| template := template; user_cfg := user_cfg;
         render_cfg := render_cfg;
         generated_user_cfg := generated_user_cfg;
         generated_train_cfg := generated_train_cfg |}.

(** [template.render] on the unpacked [render_cfg] *)
Definition render_locals (vars : locals) : M string :=
  ctx <- reify_m (render_cfg vars) ;;
  match ctx with
  | VDict kw => lift_opt TemplateError (render rt (template vars) kw)
  | _ => raise TypeError
  end.

Definition gen_script (user_cfg_dict : val) : M string :=
  vars <- gen_script_locals user_cfg_dict ;;
  render_locals vars.
End Pipeline.

(** * Predicates used in the statements *)

(** A computation that leaves the world as it is. *)
Definition pure_m {A} (m : M A) : Prop :=
  forall w o w1, m w = (o, w1) -> w1 = w.

(** A computation that touches neither the files nor the trace. *)
Definition io_silent {A} (m : M A) : Prop :=
  forall w o w1, m w = (o, w1) -> files w1 = files w /\ trace w1 = trace w.

(** [n0] is the length of the heap when [gen_script] is entered: the
    caller's objects are the ones below [n0].  A value is fresh when it
    is not a reference to one of them. *)
Definition val_fresh (n0 : nat) (v : val) : Prop :=
  match v with
  | Atom _ => True
  | Ref l => n0 <= l
  end.

Definition obj_fresh (n0 : nat) (o : obj) : Prop :=
  match o with
  | OList xs => Forall (val_fresh n0) xs
  | ODict kvs => Forall (fun kv => val_fresh n0 (snd kv)) kvs
  end.

(** Objects created since the entry refer to such objects only. *)
Definition heap_closed (n0 : nat) (h : list obj) : Prop :=
  forall l o, n0 <= l -> h !! l = Some o -> obj_fresh n0 o.

Definition same_below (n0 : nat) (h h' : list obj) : Prop :=
  forall l, l < n0 -> h' !! l = h !! l.

Definition memo_fresh (n0 : nat) (memo : list (loc * loc)) : Prop :=
  forall k y, memo_get k memo = Some y -> n0 <= y.

Definition cinv (n0 : nat) (st : cstate) : Prop :=
  n0 <= length (snd st) /\ heap_closed n0 (snd st) /\ memo_fresh n0 (fst st).

Definition copier_ok (n0 : nat)
    (rec : val -> cstate -> outcome (val * cstate)) : Prop :=
  forall x st y st',
    cinv n0 st -> rec x st = Ok (y, st') ->
    cinv n0 st' /\ same_below n0 (snd st) (snd st') /\ val_fresh n0 y.

(** The invariant of [gen_script] on the world, for the heap [h0] of
    length [n0] it was entered with. *)
Definition WI (n0 : nat) (h0 : list obj) (w : world) : Prop :=
  n0 <= length (heap w) /\ heap_closed n0 (heap w) /\ same_below n0 h0 (heap w).

(** [keeps m Q]: [m] maintains the invariant, and a result satisfies [Q].
    [frames m]: after [m] the caller's objects are as they were. *)
Definition keeps (n0 : nat) (h0 : list obj) {A} (m : M A) (Q : A -> Prop) : Prop :=
  forall w o w1, WI n0 h0 w -> m w = (o, w1) ->
                 WI n0 h0 w1 /\ forall a, o = Ok a -> Q a.

Definition frames (n0 : nat) (h0 : list obj) {A} (m : M A) : Prop :=
  forall w o w1, WI n0 h0 w -> m w = (o, w1) -> same_below n0 h0 (heap w1).

(** A heap without dangling references, and a value that points into it. *)
Definition val_in (n : nat) (v : val) : Prop :=
  match v with
  | Atom _ => True
  | Ref l => l < n
  end.

Definition obj_in (n : nat) (o : obj) : Prop :=
  match o with
  | OList xs => Forall (val_in n) xs
  | ODict kvs => Forall (fun kv => val_in n (snd kv)) kvs
  end.

Definition heap_wf (h : list obj) : Prop :=
  forall l o, h !! l = Some o -> obj_in (length h) o.

(** "No file I/O performed by this operation itself": a run of
    [gen_script] leaves the files and the trace of file events as they
    were. *)
Definition no_file_io (rt : Runtime) (cat : Catalog) (d : val) (w : world) : Prop :=
  files (snd (gen_script rt cat d w)) = files w /\
  trace (snd (gen_script rt cat d w)) = trace w.

(** ** Trees laid out in the heap *)

(** The container levels of a tree: what a traversal needs of the
    recursion limit. *)
Fixpoint depth (t : value) : nat :=
  match t with
  | VAtom _ => 0
  | VList xs => S (list_max (map depth xs))
  | VDict kvs => S (list_max (map (fun '(k, x) => depth x) kvs))
  end.

(** The objects [objs] sit in the heap from address [b] on. *)
Definition segment (h : list obj) (b : nat) (objs : list obj) : Prop :=
  forall i o, objs !! i = Some o -> h !! (b + i) = Some o.

(** [tree_in h v t lo hi]: in the heap [h] the value [v] stands for the
    tree [t], the objects of the tree have addresses in [lo, hi), a
    container comes before its elements and the elements of a container
    occupy disjoint ranges in order.  No object is shared. *)
Inductive tree_in (h : list obj) : val -> value -> nat -> nat -> Prop :=
| ti_atom a lo hi :
    lo <= hi -> tree_in h (Atom a) (VAtom a) lo hi
| ti_list l ys xs lo hi :
    lo <= l -> h !! l = Some (OList ys) -> list_in h ys xs (S l) hi ->
    tree_in h (Ref l) (VList xs) lo hi
| ti_dict l ys kvs lo hi :
    lo <= l -> h !! l = Some (ODict ys) -> items_in h ys kvs (S l) hi ->
    tree_in h (Ref l) (VDict kvs) lo hi
with list_in (h : list obj) : list val -> list value -> nat -> nat -> Prop :=
| li_nil lo hi : lo <= hi -> list_in h [] [] lo hi
| li_cons y x ys xs lo mid hi :
    tree_in h y x lo mid -> list_in h ys xs mid hi ->
    list_in h (y :: ys) (x :: xs) lo hi
with items_in (h : list obj)
  : list (string * val) -> list (string * value) -> nat -> nat -> Prop :=
| ii_nil lo hi : lo <= hi -> items_in h [] [] lo hi
| ii_cons k y x ys kvs lo mid hi :
    tree_in h y x lo mid -> items_in h ys kvs mid hi ->
    items_in h ((k, y) :: ys) ((k, x) :: kvs) lo hi.

Scheme tree_in_mut := Induction for tree_in Sort Prop
  with list_in_mut := Induction for list_in Sort Prop
  with items_in_mut := Induction for items_in Sort Prop.
Combined Scheme tree_in_mutind from tree_in_mut, list_in_mut, items_in_mut.

(** Induction on trees, with the hypothesis for every element. *)
Definition value_ind' (P : value -> Prop)
    (Ha : forall a, P (VAtom a))
    (Hl : forall xs, Forall P xs -> P (VList xs))
    (Hd : forall kvs, Forall (fun kv => P (snd kv)) kvs -> P (VDict kvs))
  : forall t, P t :=
  fix go (t : value) : P t :=
    match t with
    | VAtom a => Ha a
    | VList xs =>
        Hl xs ((fix all (xs : list value) : Forall P xs :=
                  match xs with
                  | [] => List.Forall_nil P
                  | x :: r => @List.Forall_cons _ P x r (go x) (all r)
                  end) xs)
    | VDict kvs =>
        Hd kvs ((fix all (kvs : list (string * value))
                   : Forall (fun kv => P (snd kv)) kvs :=
                   match kvs with
                   | [] => List.Forall_nil _
                   | (k, x) :: r =>
                       @List.Forall_cons _ (fun kv => P (snd kv)) (k, x) r (go x) (all r)
                   end) kvs)
    end.

(** The keys of a memo lie below [b]. *)
Definition memo_below (b : nat) (memo : list (loc * loc)) : Prop :=
  forall k y, memo_get k memo = Some y -> k < b.

(** A copier that, on a tree stored without sharing and within [n]
    levels, lays the copy out at the end of the heap as [store_at] would. *)
Definition copies_stored (rec : val -> cstate -> outcome (val * cstate))
    (n : nat) : Prop :=
  forall t b v objs memo h,
    store_at b t = (v, objs) -> segment h b objs -> depth t <= n ->
    memo_below b memo ->
    exists memo',
      rec v (memo, h)
      = Ok (fst (store_at (length h) t),
            (memo', h ++ snd (store_at (length h) t))) /\
      memo_below (b + length objs) memo'.

(** ** The reduced configuration *)

(** [del d[k]] on a tree, and a change under a key. *)
Definition del_key (k : string) (t : value) : value :=
  match t with
  | VDict kvs => VDict (dict_del k kvs)
  | _ => t
  end.

Definition alter_key (k : string) (f : value -> value) (t : value) : value :=
  match t with
  | VDict kvs => VDict (alter_first k f kvs)
  | _ => t
  end.

(** Dropping the key [k] of the mapping found along [path]. *)
Fixpoint del_path (path : list string) (k : string) (t : value) : value :=
  match path with
  | [] => del_key k t
  | k1 :: rest => alter_key k1 (del_path rest k) t
  end.

(** [len] of a tree. *)
Definition len_value (t : value) : option nat :=
  match t with
  | VAtom (AStr s) => Some (String.length s)
  | VAtom _ => None
  | VList xs => Some (length xs)
  | VDict kvs => Some (length kvs)
  end.

(** The rule for the dataset descriptor: with exactly one field the whole
    [data] key goes, otherwise only [data.name]. *)
Definition reduce_data (t : value) : value :=
  match value_at ["data"] t with
  | Some d =>
      match len_value d with
      | Some 1 => del_path [] "data" t
      | _ => del_path ["data"] "name" t
      end
  | None => t
  end.

(** The removals in the order in which [gen_script] performs them, lines
    102-108. *)
Definition reduced_code (t : value) : value :=
  del_path ["general_pipeline"; "optimizer"] "name"
    (del_path ["model"] "name"
       (del_path [] "pipeline_name" (reduce_data t))).

(** The reduced configuration as the specification words it: drop
    [pipeline_name]; drop [model.name]; drop
    [general_pipeline.optimizer.name]; then apply the rule for the
    dataset descriptor. *)
Definition reduced_config (t : value) : value :=
  reduce_data
    (del_path ["general_pipeline"; "optimizer"] "name"
       (del_path ["model"] "name"
          (del_path [] "pipeline_name" t))).

(** Following a path of keys from a heap value. *)
Fixpoint getpath (path : list string) (v : val) : M val :=
  match path with
  | [] => ret v
  | k :: rest => bind (getitem v k) (getpath rest)
  end.

(** The input of [gen_script] as a parser leaves it: the tree [t] stored
    without sharing somewhere in the heap, [d] referring to its root. *)
Definition stored (h : list obj) (d : val) (t : value) : Prop :=
  exists b objs, store_at b t = (d, objs) /\ segment h b objs.

(** [h'] is [h] except for the object at [l]. *)
Definition only_at (l : nat) (h h' : list obj) : Prop :=
  length h' = length h /\ forall j, j <> l -> h' !! j = h !! j.

(** [reduced_literal rt cat d w w' r]: the run of [gen_script] on [d]
    from [w] reaches its [return] in [w'] with [generated_user_cfg]
    standing for the tree [r], and the context handed to the template
    renderer has under [user_cfg_str] the text [cfg = ] followed by the
    literal of [r]. *)
Definition reduced_literal (rt : Runtime) (cat : Catalog) (d : val)
    (w w' : world) (r : value) : Prop :=
  exists vars ctx,
    gen_script_locals rt cat d w = (Ok vars, w') /\
    reify (recursion_limit rt) (heap w') (generated_user_cfg rt vars) = Ok r /\
    reify (recursion_limit rt) (heap w') (render_cfg rt vars) = Ok (VDict ctx) /\
    dict_get "user_cfg_str" ctx = Some (VStr ("cfg = " +:+ py_repr rt r)).

(** The text of a successful outcome. *)
Definition fst_ok (o : outcome string) : string :=
  match o with Ok s => s | Raise _ => "" end.

(** ** A valid configuration without [general_pipeline] *)

(** The document [{pipeline_name: nodepred, device: cpu, data: {name: dn},
    model: {name: mn}}], and the objects it is stored as from address
    [b] on. *)
Definition minimal_cfg (dn mn : string) : value :=
  VDict [("pipeline_name", VStr "nodepred");
         ("device", VStr "cpu");
         ("data", VDict [("name", VStr dn)]);
         ("model", VDict [("name", VStr mn)])].

Definition minimal_objs (b : nat) (dn mn : string) : list obj :=
  [ODict [("pipeline_name", Atom (AStr "nodepred"));
          ("device", Atom (AStr "cpu"));
          ("data", Ref (b + 1)); ("model", Ref (b + 2))];
   ODict [("name", Atom (AStr dn))];
   ODict [("name", Atom (AStr mn))]].

Definition minimal_heap (dn mn : string) : list obj := minimal_objs 0 dn mn.

(** ** The [config] command and the schema, for the statements *)

(** The line [config] prints, and the comment mapping it merges. *)
Definition config_message (rt : Runtime) (cfg : string) : string :=
  "Configuration file is generated at " +:+ absolute rt cfg.

Definition config_comments (docs : list (string * comments))
  : list (string * comments) :=
  [("general_pipeline", CmDict pipeline_comments); ("model", CmDict docs)].

(** The name-only descriptors of the draft, line 66 and line 67: the
    dataset goes by the [name] of its enumeration member, the model by
    the member's [value]. *)
Definition data_draft (data : EnumMember) : value :=
  VDict [("name", VStr (member_name data))].

Definition model_draft (model : EnumMember) : value :=
  VDict [("name", VStr (member_value model))].

(** [registered variants v]: the descriptor [v] is a mapping whose [name]
    is a string that selects one of the sub-schemas. *)
Definition registered {A} (variants : list (string * A)) (v : value) : Prop :=
  exists kw n validate,
    v = VDict kw /\ dict_get "name" kw = Some (VStr n) /\
    dict_get n variants = Some validate.

(** The context [gen_script] hands to the template renderer for the
    configuration [VDict kw]: the items of the configuration, then
    [model_code] and [model_class_name], the entries of the dataset's
    code dictionary, [user_cfg_str] and [user_cfg], each replacing an
    item of the same key or coming after the items before it. *)
Definition render_context (rt : Runtime) (kw : list (string * value))
    (mc cn : string) (code : list (string * string)) : list (string * value) :=
  dict_set "user_cfg" (VDict kw)
    (dict_set "user_cfg_str"
       (VStr ("cfg = " +:+ py_repr rt (reduced_config (VDict kw))))
       (dict_update
          (dict_set "model_class_name" (VStr cn)
             (dict_set "model_code" (VStr mc) kw))
          (map (fun kv => (fst kv, VStr (snd kv))) code))).

(** ** A concrete runtime and catalog, for the examples *)
Module Example.
Definition rt : Runtime :=
  {| recursion_limit := 1000;
     str_repr := fun s => "'" +:+ s +:+ "'";
     coerce_int := fun _ => None;
     coerce_str := fun _ => None;
     coerce_dict := fun _ => None;
     template_path := "nodepred.jinja-py";
     jinja_template := string;
     Template := fun s => Some s;
     render := fun t kw =>
       match dict_get "user_cfg_str" kw with
       | Some (VAtom (AStr s)) => Some (t +:+ s)
       | _ => None
       end;
     yaml_emit := fun _ => "";
     writable := fun _ => true;
     absolute := fun p => "/" +:+ p;
     default_patience := 20%Z;
     default_checkpoint_path := "checkpoint.pth" |}.

Definition cora_schema (kw : list (string * value))
  : option (list (string * value)) :=
  Some [("name", VStr "cora")].

Definition csv_schema (kw : list (string * value))
  : option (list (string * value)) :=
  match dict_get "data_path" kw with
  | Some (VAtom (AStr p)) => Some [("name", VStr "csv"); ("data_path", VStr p)]
  | _ => None
  end.

Definition gcn_schema (kw : list (string * value))
  : option (list (string * value)) :=
  match dict_get "hidden_size" kw with
  | Some (VAtom (AInt z)) => Some [("name", VStr "gcn"); ("hidden_size", VInt z)]
  | Some _ => None
  | None => Some [("name", VStr "gcn"); ("hidden_size", VInt 16)]
  end.

Definition by_name {A} (table : list (string * A)) (n : string) : option A :=
  dict_get n table.

Definition cat : Catalog :=
  {| dataset_enum := [ {| member_name := "cora"; member_value := "cora" |} ];
     data_variants := [("cora", cora_schema); ("csv", csv_schema)];
     get_generated_code_dict := fun n args =>
       if String.eqb n "cora" || String.eqb n "csv"
       then Some [("data_initialize_code", n +:+ "(" +:+ args +:+ ")")]
       else None;
     model_enum := [ {| member_name := "gcn"; member_value := "gcn" |} ];
     model_variants := [("gcn", gcn_schema)];
     get_source_code := by_name [("gcn", "class GCN: pass")];
     get_model_class_name := by_name [("gcn", "GCN")];
     get_constructor_doc_dict :=
       by_name [("gcn", [("hidden_size", CmStr "Hidden size.")])] |}.

Definition w0 : world :=
  {| heap := [];
     files := {[ "nodepred.jinja-py" := FText "# template " ]};
     trace := [] |}.
Definition cora : EnumMember := {| member_name := "cora"; member_value := "cora" |}.
Definition gcn : EnumMember := {| member_name := "gcn"; member_value := "gcn" |}.
Definition unregistered : EnumMember :=
  {| member_name := "pubmed"; member_value := "pubmed" |}.

(** A configuration as the [config] command writes it, edited. *)
Definition cfg1 : value :=
  VDict [("pipeline_name", VStr "nodepred");
         ("device", VStr "cpu");
         ("data", VDict [("name", VStr "cora")]);
         ("model", VDict [("name", VStr "gcn"); ("hidden_size", VInt 32)]);
         ("general_pipeline",
          VDict [("num_epochs", VInt 10);
                 ("optimizer", VDict [("name", VStr "SGD"); ("lr", VFloat "0.1")])])].

(** The world after the caller has parsed [cfg1]: its root is [Ref 0]. *)
Definition w1 : world := snd (alloc cfg1 w0).
(** A configuration whose dataset descriptor has parameters. *)
Definition cfg2 : value :=
  VDict [("pipeline_name", VStr "nodepred");
         ("device", VStr "cuda");
         ("data", VDict [("name", VStr "csv"); ("data_path", VStr "./data")]);
         ("model", VDict [("name", VStr "gcn")]);
         ("general_pipeline",
          VDict [("optimizer", VDict [("name", VStr "Adam"); ("lr", VFloat "0.005")])])].

Definition w2 : world := snd (alloc cfg2 w0).
End Example.

(** * Properties *)

(** ** Reasoning about the monad *)

Lemma bind_case {A B} (m : M A) (f : A -> M B) w r :
  bind m f w = r ->
  (exists a w1, m w = (Ok a, w1) /\ f a w1 = r) \/
  (exists e w1, m w = (Raise e, w1) /\ r = (Raise e, w1)).
Proof.
  unfold bind. destruct (m w) as [[a|e] w1]; intros <-; eauto 6.
Qed.

Lemma bind_ok {A B} (m : M A) (f : A -> M B) w b w' :
  bind m f w = (Ok b, w') ->
  exists a w1, m w = (Ok a, w1) /\ f a w1 = (Ok b, w').
Proof.
  intros H. destruct (bind_case _ _ _ _ H) as [?|(e & w1 & _ & ?)];
    [assumption | discriminate].
Qed.

Lemma pure_io_silent {A} (m : M A) : pure_m m -> io_silent m.
Proof. intros H w o w1 E. apply H in E. subst. auto. Qed.

Lemma io_silent_bind {A B} (m : M A) (f : A -> M B) :
  io_silent m -> (forall a, io_silent (f a)) -> io_silent (bind m f).
Proof.
  intros Hm Hf w o w' E.
  destruct (bind_case _ _ _ _ E) as [(a & w1 & E1 & E2)|(e & w1 & E1 & E2)].
  - destruct (Hm _ _ _ E1) as [F1 T1]. destruct (Hf _ _ _ _ E2) as [F2 T2].
    split; congruence.
  - inversion E2; subst. exact (Hm _ _ _ E1).
Qed.

Lemma pure_bind {A B} (m : M A) (f : A -> M B) :
  pure_m m -> (forall a, pure_m (f a)) -> pure_m (bind m f).
Proof.
  intros Hm Hf w o w' E.
  destruct (bind_case _ _ _ _ E) as [(a & w1 & E1 & E2)|(e & w1 & E1 & E2)].
  - rewrite <- (Hm _ _ _ E1). exact (Hf _ _ _ _ E2).
  - inversion E2; subst. exact (Hm _ _ _ E1).
Qed.

Lemma pure_ret {A} (a : A) : pure_m (ret a).
Proof. intros w o w1 E. inversion E; reflexivity. Qed.

Lemma pure_raise {A} e : pure_m (@raise A e).
Proof. intros w o w1 E. inversion E; reflexivity. Qed.

Lemma pure_lift {A} (o : outcome A) : pure_m (lift o).
Proof. intros w o' w1 E. inversion E; reflexivity. Qed.

Lemma pure_lift_opt {A} e (o : option A) : pure_m (lift_opt e o).
Proof. destruct o; [apply pure_ret | apply pure_raise]. Qed.

Lemma pure_get_heap : pure_m get_heap.
Proof. intros w o w1 E. inversion E; reflexivity. Qed.

Lemma pure_deref v : pure_m (deref v).
Proof.
  destruct v as [a|l]; [apply pure_raise|].
  apply pure_bind; [apply pure_get_heap|].
  intros h. destruct (h !! l); [apply pure_ret | apply pure_raise].
Qed.

Lemma pure_getitem d k : pure_m (getitem d k).
Proof.
  apply pure_bind; [apply pure_deref|].
  intros [l [xs|kvs]]; [apply pure_raise | apply pure_lift_opt].
Qed.

Lemma pure_py_len x : pure_m (py_len x).
Proof.
  destruct x as [[]|l0]; try apply pure_raise; try apply pure_ret.
  apply pure_bind; [apply pure_deref|].
  intros [l [xs|kvs]]; apply pure_ret.
Qed.

Lemma io_silent_put_heap h : io_silent (put_heap h).
Proof. intros w o w1 E. inversion E; subst; auto. Qed.

Lemma io_silent_store_obj l o : io_silent (store_obj l o).
Proof.
  apply io_silent_bind; [apply pure_io_silent, pure_get_heap|].
  intros h. apply io_silent_put_heap.
Qed.

Lemma io_silent_setitem d k v : io_silent (setitem d k v).
Proof.
  apply io_silent_bind; [apply pure_io_silent, pure_deref|].
  intros [l [xs|kvs]];
    [apply pure_io_silent, pure_raise | apply io_silent_store_obj].
Qed.

Lemma io_silent_pop d k : io_silent (pop d k).
Proof.
  apply io_silent_bind; [apply pure_io_silent, pure_deref|].
  intros [l [xs|kvs]]; [apply pure_io_silent, pure_raise|].
  simpl. destruct (dict_get k kvs); [|apply pure_io_silent, pure_raise].
  apply io_silent_bind; [apply io_silent_store_obj|].
  intros _. apply pure_io_silent, pure_ret.
Qed.

Lemma io_silent_update_str d other : io_silent (update_str d other).
Proof.
  induction other as [|[k s] r IH]; simpl.
  - apply pure_io_silent, pure_ret.
  - apply io_silent_bind; [apply io_silent_setitem | intros _; exact IH].
Qed.

Section PipelineFacts.
Variable rt : Runtime.
Variable cat : Catalog.

Lemma pure_reify_m x : pure_m (reify_m rt x).
Proof.
  apply pure_bind; [apply pure_get_heap | intros h; apply pure_lift].
Qed.

Lemma pure_validate_obj d : pure_m (validate_obj rt cat d).
Proof.
  apply pure_bind; [apply pure_reify_m|].
  intros [a|xs|kw]; try apply pure_raise. apply pure_lift_opt.
Qed.

Lemma pure_registry {A} (lookup : string -> option A) n :
  pure_m (registry lookup n).
Proof.
  destruct n as [[]|l]; try apply pure_raise. apply pure_lift_opt.
Qed.

Lemma pure_py_str x : pure_m (py_str rt x).
Proof.
  apply pure_bind; [apply pure_reify_m | intros t; apply pure_ret].
Qed.

Lemma io_silent_deepcopy x : io_silent (deepcopy rt x).
Proof.
  intros w o w1. unfold deepcopy.
  destruct (deepcopy_go _ _ _) as [[y [memo h']]|e]; intros E;
    inversion E; subst; auto.
Qed.
End PipelineFacts.

Ltac pure_tac :=
  lazymatch goal with
  | |- pure_m (bind _ _) => apply pure_bind; [pure_tac | intros; pure_tac]
  | |- pure_m (ret _) => apply pure_ret
  | |- pure_m (raise _) => apply pure_raise
  | |- pure_m (lift _) => apply pure_lift
  | |- pure_m (lift_opt _ _) => apply pure_lift_opt
  | |- pure_m get_heap => apply pure_get_heap
  | |- pure_m (deref _) => apply pure_deref
  | |- pure_m (getitem _ _) => apply pure_getitem
  | |- pure_m (py_len _) => apply pure_py_len
  | |- pure_m (reify_m _ _) => apply pure_reify_m
  | |- pure_m (validate_obj _ _ _) => apply pure_validate_obj
  | |- pure_m (registry _ _) => apply pure_registry
  | |- pure_m (py_str _ _) => apply pure_py_str
  | |- pure_m (match ?x with _ => _ end) => destruct x; pure_tac
  end.

Ltac silent_tac :=
  lazymatch goal with
  | |- io_silent (bind _ _) =>
      apply io_silent_bind; [silent_tac | intros; silent_tac]
  | |- io_silent (deepcopy _ _) => apply io_silent_deepcopy
  | |- io_silent (setitem _ _ _) => apply io_silent_setitem
  | |- io_silent (pop _ _) => apply io_silent_pop
  | |- io_silent (update_str _ _) => apply io_silent_update_str
  | |- io_silent (store_obj _ _) => apply io_silent_store_obj
  | |- io_silent (if ?b then _ else _) => destruct b; silent_tac
  | |- io_silent _ => apply pure_io_silent; pure_tac
  end.

Section GenScriptIO.
Variable rt : Runtime.
Variable cat : Catalog.

Lemma render_locals_pure vars : pure_m (render_locals rt vars).
Proof. unfold render_locals. pure_tac. Qed.

(** The one file access of [gen_script_locals]: the template, read
    after validation; everything after it works on the heap only. *)
Lemma gen_script_locals_io d w o w' :
  gen_script_locals rt cat d w = (o, w') ->
  files w' = files w /\
  (trace w' = trace w \/ trace w' = trace w ++ [EvOpenRead (template_path rt)]) /\
  (forall vars, o = Ok vars ->
                trace w' = trace w ++ [EvOpenRead (template_path rt)]).
Proof.
  unfold gen_script_locals. intros E.
  destruct (bind_case _ _ _ _ E) as [(u & w1 & E1 & E2)|(e & w1 & E1 & E2)].
  2:{ apply pure_validate_obj in E1. inversion E2; subst.
      repeat split; auto. intros; discriminate. }
  apply pure_validate_obj in E1. subst w1. clear E.
  destruct (bind_case _ _ _ _ E2) as [(src & w1 & E1 & E3)|(e & w1 & E1 & E3)].
  2:{ unfold open_read in E1. destruct (files w !! template_path rt);
        inversion E1; subst. inversion E3; subst.
      repeat split; auto. intros; discriminate. }
  assert (Hw1 : files w1 = files w /\
                trace w1 = trace w ++ [EvOpenRead (template_path rt)]).
  { unfold open_read in E1. destruct (files w !! template_path rt);
      inversion E1; subst; simpl; auto. }
  destruct Hw1 as [F1 T1].
  assert (S : files w' = files w1 /\ trace w' = trace w1).
  { revert E3. generalize w1 o w'.
    refine (_ : io_silent _).
    silent_tac. }
  destruct S as [F2 T2].
  repeat split; try congruence. right; congruence.
Qed.
End GenScriptIO.

(** ** Fresh objects and the frame of [gen_script] *)

Lemma same_below_refl n0 h : same_below n0 h h.
Proof. intros l _. reflexivity. Qed.

Lemma same_below_trans n0 h1 h2 h3 :
  same_below n0 h1 h2 -> same_below n0 h2 h3 -> same_below n0 h1 h3.
Proof. intros H12 H23 l Hl. rewrite (H23 l Hl). apply H12, Hl. Qed.

Lemma same_below_app n0 (h : list obj) extra :
  n0 <= length h -> same_below n0 h (h ++ extra).
Proof. intros Hn l Hl. apply lookup_app_l. lia. Qed.

Lemma same_below_insert n0 (h : list obj) y o :
  n0 <= y -> same_below n0 h (<[y := o]> h).
Proof. intros Hn l Hl. apply list_lookup_insert_ne. lia. Qed.

Lemma heap_closed_app n0 (h : list obj) o :
  heap_closed n0 h -> obj_fresh n0 o -> heap_closed n0 (h ++ [o]).
Proof.
  intros Hc Ho l o' Hl E.
  apply lookup_app_Some in E as [E|[_ E]]; [exact (Hc _ _ Hl E)|].
  apply list_lookup_singleton_Some in E as [_ <-]. exact Ho.
Qed.

Lemma heap_closed_insert n0 (h : list obj) y o :
  heap_closed n0 h -> obj_fresh n0 o -> heap_closed n0 (<[y := o]> h).
Proof.
  intros Hc Ho l o' Hl E.
  apply list_lookup_insert_Some in E as [(_ & <- & _)|[_ E]];
    [exact Ho | exact (Hc _ _ Hl E)].
Qed.

Lemma copy_list_ok n0 rec :
  copier_ok n0 rec ->
  forall xs st ys st',
    cinv n0 st -> copy_list rec xs st = Ok (ys, st') ->
    cinv n0 st' /\ same_below n0 (snd st) (snd st') /\ Forall (val_fresh n0) ys.
Proof.
  intros Hrec. induction xs as [|x r IH]; simpl; intros st ys st' Hst E.
  - inversion E; subst. auto using same_below_refl.
  - destruct (rec x st) as [[y st1]|e] eqn:E1; [|discriminate].
    destruct (copy_list rec r st1) as [[ys' st2]|e] eqn:E2; [|discriminate].
    inversion E; subst.
    destruct (Hrec _ _ _ _ Hst E1) as (H1 & F1 & Y1).
    destruct (IH _ _ _ H1 E2) as (H2 & F2 & Y2).
    eauto using same_below_trans.
Qed.

Lemma copy_items_ok n0 rec :
  copier_ok n0 rec ->
  forall kvs st ys st',
    cinv n0 st -> copy_items rec kvs st = Ok (ys, st') ->
    cinv n0 st' /\ same_below n0 (snd st) (snd st') /\
    Forall (fun kv => val_fresh n0 (snd kv)) ys.
Proof.
  intros Hrec. induction kvs as [|[k x] r IH]; simpl; intros st ys st' Hst E.
  - inversion E; subst. auto using same_below_refl.
  - destruct (rec x st) as [[y st1]|e] eqn:E1; [|discriminate].
    destruct (copy_items rec r st1) as [[ys' st2]|e] eqn:E2; [|discriminate].
    inversion E; subst.
    destruct (Hrec _ _ _ _ Hst E1) as (H1 & F1 & Y1).
    destruct (IH _ _ _ H1 E2) as (H2 & F2 & Y2).
    eauto using same_below_trans.
Qed.

Lemma cinv_enter n0 memo (h : list obj) l o :
  cinv n0 (memo, h) -> obj_fresh n0 o ->
  cinv n0 ((l, length h) :: memo, h ++ [o]).
Proof.
  intros (Hn & Hc & Hm) Ho. unfold cinv. cbn [fst snd] in *. repeat split.
  - rewrite length_app. lia.
  - apply heap_closed_app; assumption.
  - intros k y. simpl. destruct (Nat.eqb l k).
    + intros [= <-]. exact Hn.
    + apply Hm.
Qed.

Lemma cinv_fill n0 (h' : list obj) memo' y o :
  cinv n0 (memo', h') -> obj_fresh n0 o ->
  cinv n0 (memo', <[y := o]> h').
Proof.
  intros (Hn & Hc & Hm) Ho. unfold cinv. cbn [fst snd] in *.
  rewrite length_insert. auto using heap_closed_insert.
Qed.

Lemma deepcopy_go_ok n0 fuel : copier_ok n0 (deepcopy_go fuel).
Proof.
  induction fuel as [|fuel IH]; intros x [memo h] y st' Hst E;
    destruct x as [a|l]; simpl in E; cbn [fst snd] in *.
  - inversion E; subst. split; [assumption|]. split; [apply same_below_refl|exact I].
  - destruct (memo_get l memo) as [y0|] eqn:Em; [|discriminate].
    inversion E; subst. split; [assumption|]. split; [apply same_below_refl|].
    exact (proj2 (proj2 Hst) _ _ Em).
  - inversion E; subst. split; [assumption|]. split; [apply same_below_refl|exact I].
  - destruct (memo_get l memo) as [y0|] eqn:Em.
    { inversion E; subst. split; [assumption|]. split; [apply same_below_refl|].
      exact (proj2 (proj2 Hst) _ _ Em). }
    assert (Hn : n0 <= length h) by apply Hst.
    destruct (h !! l) as [[xs|kvs]|]; [| |discriminate].
    + destruct (copy_list _ _ _) as [[ys [memo' h']]|e] eqn:Ec; [|discriminate].
      inversion E; subst.
      assert (H1 : cinv n0 ((l, length h) :: memo, h ++ [OList []])).
      { apply cinv_enter; [assumption | constructor]. }
      destruct (copy_list_ok n0 _ IH _ _ _ _ H1 Ec) as (H2 & F & Y).
      cbn [fst snd] in *. split; [|split].
      * eapply cinv_fill; eauto.
      * eapply same_below_trans; [apply same_below_app; exact Hn|].
        eapply same_below_trans; [exact F|]. apply same_below_insert, Hn.
      * exact Hn.
    + destruct (copy_items _ _ _) as [[ys [memo' h']]|e] eqn:Ec; [|discriminate].
      inversion E; subst.
      assert (H1 : cinv n0 ((l, length h) :: memo, h ++ [ODict []])).
      { apply cinv_enter; [assumption | constructor]. }
      destruct (copy_items_ok n0 _ IH _ _ _ _ H1 Ec) as (H2 & F & Y).
      cbn [fst snd] in *. split; [|split].
      * eapply cinv_fill; eauto.
      * eapply same_below_trans; [apply same_below_app; exact Hn|].
        eapply same_below_trans; [exact F|]. apply same_below_insert, Hn.
      * exact Hn.
Qed.

Lemma WI_init w : WI (length (heap w)) (heap w) w.
Proof.
  split; [lia|]. split; [|apply same_below_refl].
  intros l o Hl E. apply lookup_lt_Some in E. lia.
Qed.

Lemma dict_get_Forall {V} (P : V -> Prop) k (kvs : list (string * V)) v :
  Forall (fun kv => P (snd kv)) kvs -> dict_get k kvs = Some v -> P v.
Proof.
  induction 1 as [|[k' v'] r Hv _ IH]; simpl; [discriminate|].
  destruct (String.eqb k' k); [intros [= <-]; exact Hv | exact IH].
Qed.

Lemma dict_set_Forall {V} (P : V -> Prop) k v (kvs : list (string * V)) :
  Forall (fun kv => P (snd kv)) kvs -> P v ->
  Forall (fun kv => P (snd kv)) (dict_set k v kvs).
Proof.
  intros H Hv. induction H as [|[k' v'] r Hv' Hr IH]; simpl.
  - constructor; [exact Hv | constructor].
  - destruct (String.eqb k' k); constructor; cbn [snd] in *; assumption.
Qed.

Lemma dict_del_Forall {V} (P : string * V -> Prop) k (kvs : list (string * V)) :
  Forall P kvs -> Forall P (dict_del k kvs).
Proof.
  intros H. apply List.Forall_forall. intros x Hx.
  apply List.filter_In in Hx as [Hx _].
  rewrite List.Forall_forall in H. auto.
Qed.

Ltac munfold H :=
  unfold getitem, setitem, pop, py_len, deref, store_obj, bind, get_heap,
    put_heap, ret, raise, lift, lift_opt in H;
  cbn [fst snd heap files trace] in H.

Section Frame.
Variable rt : Runtime.
Variable cat : Catalog.
Variable n0 : nat.
Variable h0 : list obj.

Lemma keeps_bind {A B} (m : M A) (f : A -> M B) Q Q' :
  keeps n0 h0 m Q -> (forall a, Q a -> keeps n0 h0 (f a) Q') ->
  keeps n0 h0 (bind m f) Q'.
Proof.
  intros Hm Hf w o w' HW E.
  destruct (bind_case _ _ _ _ E) as [(a & w1 & E1 & E2)|(e & w1 & E1 & E2)].
  - destruct (Hm _ _ _ HW E1) as [HW1 HQ].
    exact (Hf a (HQ a eq_refl) _ _ _ HW1 E2).
  - inversion E2; subst. destruct (Hm _ _ _ HW E1) as [HW1 _].
    split; [exact HW1 | intros; discriminate].
Qed.

Lemma frames_bind {A B} (m : M A) (f : A -> M B) Q :
  keeps n0 h0 m Q -> (forall a, Q a -> frames n0 h0 (f a)) ->
  frames n0 h0 (bind m f).
Proof.
  intros Hm Hf w o w' HW E.
  destruct (bind_case _ _ _ _ E) as [(a & w1 & E1 & E2)|(e & w1 & E1 & E2)].
  - destruct (Hm _ _ _ HW E1) as [HW1 HQ].
    exact (Hf a (HQ a eq_refl) _ _ _ HW1 E2).
  - inversion E2; subst. destruct (Hm _ _ _ HW E1) as [HW1 _]. apply HW1.
Qed.

Lemma frames_then_pure {A B} (m : M A) (f : A -> M B) :
  frames n0 h0 m -> (forall a, pure_m (f a)) -> frames n0 h0 (bind m f).
Proof.
  intros Hm Hf w o w' HW E.
  destruct (bind_case _ _ _ _ E) as [(a & w1 & E1 & E2)|(e & w1 & E1 & E2)].
  - apply Hf in E2. subst. exact (Hm _ _ _ HW E1).
  - inversion E2; subst. exact (Hm _ _ _ HW E1).
Qed.

Lemma keeps_pure {A} (m : M A) : pure_m m -> keeps n0 h0 m (fun _ => True).
Proof. intros Hm w o w1 HW E. apply Hm in E. subst. auto. Qed.

Lemma keeps_open_read path : keeps n0 h0 (open_read rt path) (fun _ => True).
Proof.
  intros w o w1 HW E. unfold open_read in E.
  destruct (files w !! path); inversion E; subst; auto.
Qed.

Lemma keeps_deepcopy x : keeps n0 h0 (deepcopy rt x) (val_fresh n0).
Proof.
  intros w o w1 (Hn & Hc & Hs) E. unfold deepcopy in E.
  destruct (deepcopy_go _ _ _) as [[y [memo h']]|e] eqn:Ed;
    inversion E; subst; clear E.
  - assert (Hi : cinv n0 ([], heap w)).
    { split; [exact Hn|]. split; [exact Hc|]. intros k y0 [=]. }
    destruct (deepcopy_go_ok n0 _ _ _ _ _ Hi Ed) as ((Hn' & Hc' & _) & F & Y).
    cbn [fst snd heap] in *. split.
    + split; [exact Hn'|]. split; [exact Hc'|].
      eapply same_below_trans; eassumption.
    + intros a [= <-]. exact Y.
  - split; [|intros; discriminate]. repeat split; assumption.
Qed.

Lemma keeps_getitem_fresh d k :
  val_fresh n0 d -> keeps n0 h0 (getitem d k) (val_fresh n0).
Proof.
  intros Hd w o w1 HW E. pose proof (pure_getitem _ _ _ _ _ E). subst w1.
  split; [exact HW|]. intros v ->. munfold E.
  destruct d as [a|l]; [discriminate|]. cbn [fst snd] in E.
  destruct (heap w !! l) as [[xs|kvs]|] eqn:El; cbn [fst snd] in E;
    try discriminate.
  destruct (dict_get k kvs) as [v'|] eqn:Ek; inversion E; subst.
  destruct HW as (_ & Hc & _).
  exact (dict_get_Forall _ _ _ _ (Hc _ _ Hd El) Ek).
Qed.

Lemma WI_insert w l o :
  WI n0 h0 w -> n0 <= l -> obj_fresh n0 o ->
  WI n0 h0 (World (<[l := o]> (heap w)) (files w) (trace w)).
Proof.
  intros (Hn & Hc & Hs) Hl Ho. split; [|split]; cbn [heap].
  - rewrite length_insert. exact Hn.
  - apply heap_closed_insert; assumption.
  - eapply same_below_trans; [exact Hs | apply same_below_insert, Hl].
Qed.

Lemma keeps_setitem d k v :
  val_fresh n0 d -> val_fresh n0 v ->
  keeps n0 h0 (setitem d k v) (fun _ => True).
Proof.
  intros Hd Hv w o w1 HW E. split; [|auto]. munfold E.
  destruct d as [a|l]; [inversion E; subst; exact HW|].
  destruct (heap w !! l) as [[xs|kvs]|] eqn:El; cbn [fst snd] in E;
    inversion E; subst; try exact HW.
  apply WI_insert; [exact HW | exact Hd |].
  destruct HW as (_ & Hc & _).
  apply dict_set_Forall; [exact (Hc _ _ Hd El) | exact Hv].
Qed.

Lemma frames_setitem d k v :
  val_fresh n0 d -> frames n0 h0 (setitem d k v).
Proof.
  intros Hd w o w1 HW E. munfold E.
  destruct d as [a|l]; [inversion E; subst; apply HW|].
  destruct (heap w !! l) as [[xs|kvs]|] eqn:El; cbn [fst snd] in E;
    inversion E; subst; try apply HW.
  cbn [heap]. eapply same_below_trans; [apply HW | apply same_below_insert, Hd].
Qed.

Lemma keeps_pop d k :
  val_fresh n0 d -> keeps n0 h0 (pop d k) (fun _ => True).
Proof.
  intros Hd w o w1 HW E. split; [|auto]. munfold E.
  destruct d as [a|l]; [inversion E; subst; exact HW|].
  destruct (heap w !! l) as [[xs|kvs]|] eqn:El; cbn [fst snd] in E;
    try (inversion E; subst; exact HW).
  destruct (dict_get k kvs); inversion E; subst; try exact HW.
  apply WI_insert; [exact HW | exact Hd |].
  destruct HW as (_ & Hc & _).
  apply dict_del_Forall. exact (Hc _ _ Hd El).
Qed.

Lemma keeps_update_str d other :
  val_fresh n0 d -> keeps n0 h0 (update_str d other) (fun _ => True).
Proof.
  intros Hd. induction other as [|[k s] r IH]; simpl.
  - apply keeps_pure, pure_ret.
  - eapply keeps_bind; [apply keeps_setitem; [exact Hd | exact I]|].
    intros _ _. exact IH.
Qed.
End Frame.

Ltac keeps_leaf :=
  first [ apply keeps_deepcopy
        | apply keeps_open_read
        | apply keeps_getitem_fresh; assumption
        | apply keeps_setitem; [assumption | first [assumption | exact I]]
        | apply keeps_pop; assumption
        | apply keeps_update_str; assumption
        | apply keeps_pure; pure_tac ].

Ltac keeps_tac :=
  lazymatch goal with
  | |- keeps _ _ (bind _ _) _ =>
      eapply keeps_bind; [keeps_tac | intros ? ?; keeps_tac]
  | |- keeps _ _ (if ?b then _ else _) _ => destruct b; keeps_tac
  | |- _ => keeps_leaf
  end.

Ltac frames_tac :=
  lazymatch goal with
  | |- frames _ _ (bind (setitem _ "user_cfg" _) _) =>
      apply frames_then_pure;
      [apply frames_setitem; assumption | intros; pure_tac]
  | |- frames _ _ (bind _ _) =>
      eapply frames_bind; [keeps_tac | intros ? ?; frames_tac]
  end.

Section GenScriptFrame.
Variable rt : Runtime.
Variable cat : Catalog.

Lemma gen_script_locals_frames n0 h0 d :
  frames n0 h0 (gen_script_locals rt cat d).
Proof. unfold gen_script_locals. frames_tac. Qed.

Lemma gen_script_frames n0 h0 d : frames n0 h0 (gen_script rt cat d).
Proof.
  apply frames_then_pure; [apply gen_script_locals_frames|].
  intros vars. apply render_locals_pure.
Qed.
End GenScriptFrame.

(** ** [gen_script] and the caller's dictionary *)

Lemma mapM_list_ext {A B} (f g : A -> outcome B) xs :
  Forall (fun x => f x = g x) xs -> mapM_list f xs = mapM_list g xs.
Proof.
  induction 1 as [|x r Hx _ IH]; simpl; [reflexivity|].
  rewrite Hx, IH. reflexivity.
Qed.

Lemma mapM_items_ext {A B} (f g : A -> outcome B) (kvs : list (string * A)) :
  Forall (fun kv => f (snd kv) = g (snd kv)) kvs ->
  mapM_items f kvs = mapM_items g kvs.
Proof.
  induction 1 as [|[k x] r Hx _ IH]; simpl; [reflexivity|].
  cbn [snd] in Hx. rewrite Hx, IH. reflexivity.
Qed.

Lemma reify_same_below (h h' : list obj) :
  heap_wf h -> same_below (length h) h h' ->
  forall fuel v, val_in (length h) v -> reify fuel h' v = reify fuel h v.
Proof.
  intros Hwf Hs. induction fuel as [|fuel IH]; intros [a|l] Hv; cbn [reify];
    try reflexivity.
  rewrite (Hs l Hv). destruct (h !! l) as [[xs|kvs]|] eqn:El; [| |reflexivity].
  - f_equal. apply mapM_list_ext.
    eapply Forall_impl; [exact (Hwf _ _ El)|]. intros x Hx. apply IH, Hx.
  - f_equal. apply mapM_items_ext.
    eapply Forall_impl; [exact (Hwf _ _ El)|]. intros x Hx. apply IH, Hx.
Qed.

(** C7.  For every input dictionary and every world, whatever the
    outcome of [gen_script], each object that existed when it was called
    is the same afterwards; in a heap without dangling references the
    caller's dictionary therefore stands for the same tree as before. *)
Theorem gen_script_leaves_input_unchanged rt cat d w o w' :
  gen_script rt cat d w = (o, w') ->
  same_below (length (heap w)) (heap w) (heap w') /\
  (heap_wf (heap w) -> val_in (length (heap w)) d ->
   forall fuel, reify fuel (heap w') d = reify fuel (heap w) d).
Proof.
  intros E.
  assert (F : same_below (length (heap w)) (heap w) (heap w')).
  { exact (gen_script_frames rt cat _ _ d w o w' (WI_init w) E). }
  split; [exact F|]. intros Hwf Hd fuel. apply reify_same_below; assumption.
Qed.

Lemma gen_script_leaves_input_unchanged_witness :
  same_below 5 (heap Example.w1)
    (heap (snd (gen_script Example.rt Example.cat (Ref 0) Example.w1))).
Proof.
  refine (proj1 (gen_script_leaves_input_unchanged Example.rt Example.cat
                   (Ref 0) Example.w1
                   (fst (gen_script Example.rt Example.cat (Ref 0) Example.w1))
                   (snd (gen_script Example.rt Example.cat (Ref 0) Example.w1))
                   _)).
  vm_compute. reflexivity.
Defined.

(** ** [gen_script] and the file system *)

(** C8, as stated, fails: on a valid configuration [gen_script] opens and
    reads its template file. *)
Lemma gen_script_reads_template :
  ~ no_file_io Example.rt Example.cat (Ref 0) Example.w1.
Proof. intros [_ H]. vm_compute in H. discriminate H. Qed.

(** C8, amended.  [gen_script] returns the rendered script as a text and
    writes no file: the files are as before.  The only file it opens is
    its template, for reading, after the configuration has validated;
    every run that returns a script has read it. *)
Theorem gen_script_file_io rt cat d w o w' :
  gen_script rt cat d w = (o, w') ->
  files w' = files w /\
  (trace w' = trace w \/ trace w' = trace w ++ [EvOpenRead (template_path rt)]) /\
  (forall script : string, o = Ok script ->
     trace w' = trace w ++ [EvOpenRead (template_path rt)]) /\
  (validate_obj rt cat d w = (Raise ValidationError, w) -> w' = w).
Proof.
  unfold gen_script. intros E.
  destruct (bind_case _ _ _ _ E) as [(a & w1 & E1 & E2)|(e & w1 & E1 & E2)].
  - apply render_locals_pure in E2. subst w1.
    destruct (gen_script_locals_io rt cat _ _ _ _ E1) as (F & T & TO).
    repeat split; [exact F | exact T | intros; exact (TO a eq_refl) |].
    intros Ev. unfold gen_script_locals in E1.
    apply bind_ok in E1 as (u & w2 & E3 & _). congruence.
  - inversion E2; subst.
    destruct (gen_script_locals_io rt cat _ _ _ _ E1) as (F & T & TO).
    repeat split; [exact F | exact T | intros; discriminate |].
    intros Ev. unfold gen_script_locals, bind in E1. rewrite Ev in E1.
    inversion E1; reflexivity.
Qed.

Lemma gen_script_file_io_witness :
  files (snd (gen_script Example.rt Example.cat (Ref 0) Example.w1))
  = files Example.w1.
Proof.
  refine (proj1 (gen_script_file_io Example.rt Example.cat (Ref 0) Example.w1
                   (fst (gen_script Example.rt Example.cat (Ref 0) Example.w1))
                   (snd (gen_script Example.rt Example.cat (Ref 0) Example.w1))
                   _)).
  vm_compute. reflexivity.
Defined.

(** ** The [config] command *)

(** C5.  If the assembled configuration does not validate, [config]
    raises the validation error in the world it was started in: no file
    has been opened, created, truncated or written. *)
Theorem config_validation_error_no_write rt cat data cfg model device w :
  NodePredUserConfig_validate rt cat (generated_cfg rt data model device) = None ->
  config rt cat data cfg model device w = (Raise ValidationError, w).
Proof. intros H. unfold config, bind. rewrite H. reflexivity. Qed.

Lemma config_validation_error_no_write_witness :
  config Example.rt Example.cat Example.unregistered "cfg.yml" Example.gcn cpu
    Example.w0
  = (Raise ValidationError, Example.w0).
Proof.
  apply (config_validation_error_no_write Example.rt Example.cat
           Example.unregistered "cfg.yml" Example.gcn cpu Example.w0).
  vm_compute. reflexivity.
Defined.

(** ** Defaults of the schema *)

Lemma field_absent {A} kw name (validator : value -> option A) default :
  dict_get name kw = None -> field kw name validator default = default.
Proof. unfold field. intros ->. reflexivity. Qed.

(** C2.  Whenever a mapping validates as [NodepredPipelineCfg], each of
    the fields it does not mention has its default: node_embed_size -1,
    num_epochs 200, eval_period 5, optimizer {name: Adam, lr: 0.005},
    loss CrossEntropyLoss. *)
Theorem NodepredPipelineCfg_defaults rt kw c :
  NodepredPipelineCfg_validate rt kw = Some c ->
  (dict_get "node_embed_size" kw = None -> node_embed_size c = Some (-1)%Z) /\
  (dict_get "num_epochs" kw = None -> num_epochs c = 200%Z) /\
  (dict_get "eval_period" kw = None -> eval_period c = 5%Z) /\
  (dict_get "optimizer" kw = None ->
     optimizer c = [("name", VStr "Adam"); ("lr", VFloat "0.005")]) /\
  (dict_get "loss" kw = None -> loss c = "CrossEntropyLoss").
Proof.
  unfold NodepredPipelineCfg_validate. intros H.
  destruct (field kw "node_embed_size" _ _) as [nes|] eqn:E1; [|discriminate].
  destruct (field kw "early_stop" _ _) as [es|] eqn:E2; [|discriminate].
  destruct (field kw "num_epochs" _ _) as [ne|] eqn:E3; [|discriminate].
  destruct (field kw "eval_period" _ _) as [ep|] eqn:E4; [|discriminate].
  destruct (field kw "optimizer" _ _) as [opt|] eqn:E5; [|discriminate].
  destruct (field kw "loss" _ _) as [ls|] eqn:E6; [|discriminate].
  inversion H; subst; cbn. repeat split; intros Ha.
  - rewrite (field_absent _ _ _ _ Ha) in E1. inversion E1; reflexivity.
  - rewrite (field_absent _ _ _ _ Ha) in E3. inversion E3; reflexivity.
  - rewrite (field_absent _ _ _ _ Ha) in E4. inversion E4; reflexivity.
  - rewrite (field_absent _ _ _ _ Ha) in E5. inversion E5; reflexivity.
  - rewrite (field_absent _ _ _ _ Ha) in E6. inversion E6; reflexivity.
Qed.

Lemma NodepredPipelineCfg_defaults_witness :
  let c := NodepredPipelineCfg_default Example.rt in
  NodepredPipelineCfg_validate Example.rt [] = Some c /\
  node_embed_size c = Some (-1)%Z /\ num_epochs c = 200%Z /\
  eval_period c = 5%Z /\
  optimizer c = [("name", VStr "Adam"); ("lr", VFloat "0.005")] /\
  loss c = "CrossEntropyLoss".
Proof.
  intros c.
  destruct (NodepredPipelineCfg_defaults Example.rt [] c eq_refl)
    as (H1 & H2 & H3 & H4 & H5).
  split; [reflexivity|].
  split; [apply H1; reflexivity|]. split; [apply H2; reflexivity|].
  split; [apply H3; reflexivity|]. split; [apply H4; reflexivity|].
  apply H5; reflexivity.
Defined.

(** ** Stored trees *)

Lemma segment_nil h b : segment h b [].
Proof. intros i o E. destruct i; discriminate E. Qed.

Lemma segment_cons_inv h b o objs :
  segment h b (o :: objs) -> h !! b = Some o /\ segment h (S b) objs.
Proof.
  intros H. split.
  - specialize (H 0 o eq_refl). rewrite Nat.add_0_r in H. exact H.
  - intros i o' E. specialize (H (S i) o' E).
    replace (S b + i) with (b + S i) by lia. exact H.
Qed.

Lemma segment_app_inv h b o1 o2 :
  segment h b (o1 ++ o2) -> segment h b o1 /\ segment h (b + length o1) o2.
Proof.
  intros H. split.
  - intros i o E. apply H. apply lookup_app_l_Some. exact E.
  - intros i o E. rewrite <- Nat.add_assoc. apply H.
    rewrite lookup_app_r by lia.
    replace (length o1 + i - length o1) with i by lia. exact E.
Qed.

Lemma segment_grow h b objs extra :
  segment h b objs -> segment (h ++ extra) b objs.
Proof. intros H i o E. apply lookup_app_l_Some. exact (H i o E). Qed.

Lemma segment_self h objs : segment (h ++ objs) (length h) objs.
Proof.
  intros i o E. rewrite lookup_app_r by lia.
  replace (length h + i - length h) with i by lia. exact E.
Qed.

Lemma segment_bound h b objs : segment h b objs -> objs <> [] -> b + length objs <= length h.
Proof.
  intros H Hne. destruct (length objs) as [|n] eqn:En.
  - destruct objs; [congruence | discriminate].
  - destruct (lookup_lt_is_Some_2 objs n) as [o Eo]; [lia|].
    apply H in Eo. apply lookup_lt_Some in Eo. lia.
Qed.

Lemma segment_agree h h' b objs :
  segment h b objs ->
  (forall l, b <= l < b + length objs -> h' !! l = h !! l) ->
  segment h' b objs.
Proof.
  intros H Ha i o E. rewrite Ha; [exact (H i o E)|].
  apply lookup_lt_Some in E. lia.
Qed.

Lemma tree_in_bounds_all h :
  (forall v t lo hi, tree_in h v t lo hi -> lo <= hi) /\
  (forall ys xs lo hi, list_in h ys xs lo hi -> lo <= hi) /\
  (forall ys kvs lo hi, items_in h ys kvs lo hi -> lo <= hi).
Proof.
  apply tree_in_mutind; intros; lia.
Qed.

Lemma tree_in_weaken_all h :
  (forall v t lo hi, tree_in h v t lo hi ->
     forall lo' hi', lo' <= lo -> hi <= hi' -> tree_in h v t lo' hi') /\
  (forall ys xs lo hi, list_in h ys xs lo hi ->
     forall lo' hi', lo' <= lo -> hi <= hi' -> list_in h ys xs lo' hi') /\
  (forall ys kvs lo hi, items_in h ys kvs lo hi ->
     forall lo' hi', lo' <= lo -> hi <= hi' -> items_in h ys kvs lo' hi').
Proof.
  apply tree_in_mutind; intros.
  - constructor. lia.
  - econstructor; [lia | eassumption | auto].
  - econstructor; [lia | eassumption | auto].
  - constructor. lia.
  - econstructor; [apply H; [lia | reflexivity] | apply H0; [reflexivity | lia]].
  - constructor. lia.
  - econstructor; [apply H; [lia | reflexivity] | apply H0; [reflexivity | lia]].
Qed.

Lemma tree_in_frame_all h h' :
  (forall v t lo hi, tree_in h v t lo hi ->
     (forall l, lo <= l < hi -> h' !! l = h !! l) -> tree_in h' v t lo hi) /\
  (forall ys xs lo hi, list_in h ys xs lo hi ->
     (forall l, lo <= l < hi -> h' !! l = h !! l) -> list_in h' ys xs lo hi) /\
  (forall ys kvs lo hi, items_in h ys kvs lo hi ->
     (forall l, lo <= l < hi -> h' !! l = h !! l) -> items_in h' ys kvs lo hi).
Proof.
  destruct (tree_in_bounds_all h) as (Bt & Bl & Bi).
  apply tree_in_mutind; intros.
  - constructor. assumption.
  - pose proof (Bl _ _ _ _ l1).
    econstructor; [eassumption | rewrite H0; [eassumption | lia] |].
    apply H. intros. apply H0. lia.
  - pose proof (Bi _ _ _ _ i).
    econstructor; [eassumption | rewrite H0; [eassumption | lia] |].
    apply H. intros. apply H0. lia.
  - constructor. assumption.
  - pose proof (Bt _ _ _ _ t). pose proof (Bl _ _ _ _ l).
    econstructor; [apply H | apply H0]; intros; apply H1; lia.
  - constructor. assumption.
  - pose proof (Bt _ _ _ _ t). pose proof (Bi _ _ _ _ i).
    econstructor; [apply H | apply H0]; intros; apply H1; lia.
Qed.

Lemma store_items_cons f b k x r :
  store_items f b ((k, x) :: r) =
  (let '(y, o1) := f b x in
   let '(ys, o2) := store_items f (b + length o1) r in
   ((k, y) :: ys, o1 ++ o2)).
Proof. reflexivity. Qed.

Lemma store_list_cons f b x r :
  store_list f b (x :: r) =
  (let '(y, o1) := f b x in
   let '(ys, o2) := store_list f (b + length o1) r in
   (y :: ys, o1 ++ o2)).
Proof. reflexivity. Qed.

Lemma store_at_dict b kvs :
  store_at b (VDict kvs) =
  (Ref b, ODict (fst (store_items store_at (S b) kvs))
            :: snd (store_items store_at (S b) kvs)).
Proof. simpl. destruct (store_items store_at (S b) kvs). reflexivity. Qed.

Lemma store_at_list b xs :
  store_at b (VList xs) =
  (Ref b, OList (fst (store_list store_at (S b) xs))
            :: snd (store_list store_at (S b) xs)).
Proof. simpl. destruct (store_list store_at (S b) xs). reflexivity. Qed.

Lemma store_tree_in h t :
  forall b v objs,
    store_at b t = (v, objs) -> segment h b objs ->
    tree_in h v t b (b + length objs).
Proof.
  induction t as [a|xs IH|kvs IH] using value_ind'; intros b v objs E Hs.
  - inversion E; subst. constructor. lia.
  - rewrite store_at_list in E. inversion E; subst. clear E.
    apply segment_cons_inv in Hs as [Hb Hs].
    eapply ti_list; [apply Nat.le_refl | exact Hb |].
    cbn [length]. replace (b + S (length (store_list store_at (S b) xs).2))
      with (S b + length (store_list store_at (S b) xs).2) by lia.
    revert Hs. generalize (S b). clear Hb.
    induction IH as [|x r Hx _ IHr]; intros b' Hs.
    + constructor. lia.
    + rewrite store_list_cons in *.
      destruct (store_at b' x) as [y o1] eqn:Ex.
      destruct (store_list store_at (b' + length o1) r) as [ys o2] eqn:Er.
      cbn [fst snd] in *. apply segment_app_inv in Hs as [H1 H2].
      rewrite length_app, Nat.add_assoc.
      econstructor; [exact (Hx _ _ _ Ex H1)|].
      specialize (IHr (b' + length o1)). rewrite Er in IHr. exact (IHr H2).
  - rewrite store_at_dict in E. inversion E; subst. clear E.
    apply segment_cons_inv in Hs as [Hb Hs].
    eapply ti_dict; [apply Nat.le_refl | exact Hb |].
    cbn [length]. replace (b + S (length (store_items store_at (S b) kvs).2))
      with (S b + length (store_items store_at (S b) kvs).2) by lia.
    revert Hs. generalize (S b). clear Hb.
    induction IH as [|[k x] r Hx _ IHr]; intros b' Hs.
    + constructor. lia.
    + rewrite store_items_cons in *.
      destruct (store_at b' x) as [y o1] eqn:Ex.
      destruct (store_items store_at (b' + length o1) r) as [ys o2] eqn:Er.
      cbn [fst snd] in *. apply segment_app_inv in Hs as [H1 H2].
      rewrite length_app, Nat.add_assoc.
      econstructor; [exact (Hx _ _ _ Ex H1)|].
      specialize (IHr (b' + length o1)). rewrite Er in IHr. exact (IHr H2).
Qed.

Lemma tree_in_reify_all h :
  (forall v t lo hi, tree_in h v t lo hi ->
     forall fuel, depth t <= fuel -> reify fuel h v = Ok t) /\
  (forall ys xs lo hi, list_in h ys xs lo hi ->
     forall fuel, list_max (map depth xs) <= fuel ->
                  mapM_list (reify fuel h) ys = Ok xs) /\
  (forall ys kvs lo hi, items_in h ys kvs lo hi ->
     forall fuel, list_max (map (fun '(k, x) => depth x) kvs) <= fuel ->
                  mapM_items (reify fuel h) ys = Ok kvs).
Proof.
  apply tree_in_mutind; intros.
  - destruct fuel; reflexivity.
  - cbn [depth] in H0. destruct fuel as [|fuel]; [lia|].
    cbn [reify]. rewrite e. rewrite H by lia. reflexivity.
  - cbn [depth] in H0. destruct fuel as [|fuel]; [lia|].
    cbn [reify]. rewrite e. rewrite H by lia. reflexivity.
  - reflexivity.
  - cbn [map list_max fold_right] in H1. change (fold_right Init.Nat.max 0) with list_max in H1.
    cbn [mapM_list]. rewrite H by lia. rewrite H0 by lia. reflexivity.
  - reflexivity.
  - cbn [map list_max fold_right] in H1. change (fold_right Init.Nat.max 0) with list_max in H1.
    cbn [mapM_items]. rewrite H by lia. rewrite H0 by lia. reflexivity.
Qed.

Lemma reify_depth_all h :
  (forall v t lo hi, tree_in h v t lo hi ->
     forall fuel t', reify fuel h v = Ok t' -> depth t <= fuel /\ t' = t) /\
  (forall ys xs lo hi, list_in h ys xs lo hi ->
     forall fuel xs', mapM_list (reify fuel h) ys = Ok xs' ->
                      list_max (map depth xs) <= fuel /\ xs' = xs) /\
  (forall ys kvs lo hi, items_in h ys kvs lo hi ->
     forall fuel kvs', mapM_items (reify fuel h) ys = Ok kvs' ->
                       list_max (map (fun '(k, x) => depth x) kvs) <= fuel /\
                       kvs' = kvs).
Proof.
  apply tree_in_mutind; intros.
  - destruct fuel; inversion H; subst; cbn; (split; [lia | reflexivity]).
  - destruct fuel as [|fuel]; [discriminate|]. cbn [reify] in H0.
    rewrite e in H0. destruct (mapM_list _ ys) as [xs'|] eqn:Em; [|discriminate].
    inversion H0; subst. destruct (H _ _ Em) as [Hd ->]. cbn [depth].
    split; [lia | reflexivity].
  - destruct fuel as [|fuel]; [discriminate|]. cbn [reify] in H0.
    rewrite e in H0. destruct (mapM_items _ ys) as [kvs'|] eqn:Em; [|discriminate].
    inversion H0; subst. destruct (H _ _ Em) as [Hd ->]. cbn [depth].
    split; [lia | reflexivity].
  - inversion H; subst. cbn. split; [lia | reflexivity].
  - cbn [mapM_list] in H1.
    destruct (reify fuel h y) as [x'|] eqn:E1; [|discriminate].
    destruct (mapM_list _ ys) as [xs''|] eqn:E2; [|discriminate].
    inversion H1; subst. destruct (H _ _ E1) as [D1 ->].
    destruct (H0 _ _ E2) as [D2 ->].
    cbn [map list_max fold_right]. change (fold_right Init.Nat.max 0) with list_max.
    split; [lia | reflexivity].
  - inversion H; subst. cbn. split; [lia | reflexivity].
  - cbn [mapM_items] in H1.
    destruct (reify fuel h y) as [x'|] eqn:E1; [|discriminate].
    destruct (mapM_items _ ys) as [xs''|] eqn:E2; [|discriminate].
    inversion H1; subst. destruct (H _ _ E1) as [D1 ->].
    destruct (H0 _ _ E2) as [D2 ->].
    cbn [map list_max fold_right]. change (fold_right Init.Nat.max 0) with list_max.
    split; [lia | reflexivity].
Qed.

(** ** [copy.deepcopy] of a stored tree *)

Lemma memo_below_weaken b b' memo :
  memo_below b memo -> b <= b' -> memo_below b' memo.
Proof. intros H Hb k y E. specialize (H k y E). lia. Qed.

Lemma copy_items_stored rec n :
  copies_stored rec n ->
  forall kvs b ys objs memo h,
    store_items store_at b kvs = (ys, objs) -> segment h b objs ->
    list_max (map (fun '(k, x) => depth x) kvs) <= n ->
    memo_below b memo ->
    exists memo',
      copy_items rec ys (memo, h)
      = Ok (fst (store_items store_at (length h) kvs),
            (memo', h ++ snd (store_items store_at (length h) kvs))) /\
      memo_below (b + length objs) memo'.
Proof.
  intros Hrec. induction kvs as [|[k x] r IH]; intros b ys objs memo h E Hs Hd Hm.
  - inversion E; subst. exists memo. cbn. rewrite app_nil_r.
    split; [reflexivity | eapply memo_below_weaken; [exact Hm | lia]].
  - rewrite store_items_cons in E.
    destruct (store_at b x) as [y o1] eqn:Ex.
    destruct (store_items store_at (b + length o1) r) as [ys1 o2] eqn:Er.
    inversion E; subst. clear E.
    apply segment_app_inv in Hs as [H1 H2].
    cbn [map list_max fold_right] in Hd.
    change (fold_right Init.Nat.max 0) with list_max in Hd.
    destruct (Hrec x b y o1 memo h Ex H1 ltac:(lia) Hm) as (memo1 & E1 & Hm1).
    rewrite store_items_cons.
    destruct (store_at (length h) x) as [y' o1'] eqn:Ex'.
    cbn [fst snd] in E1.
    destruct (IH (b + length o1) ys1 o2 memo1 (h ++ o1') Er
                (segment_grow _ _ _ _ H2) ltac:(lia) Hm1) as (memo2 & E2 & Hm2).
    rewrite length_app in E2.
    destruct (store_items store_at (length h + length o1') r) as [ys' o2'] eqn:Er'.
    cbn [fst snd] in *. exists memo2. split.
    + cbn [copy_items]. rewrite E1, E2. rewrite app_assoc. reflexivity.
    + rewrite length_app, Nat.add_assoc. exact Hm2.
Qed.

Lemma copy_list_stored rec n :
  copies_stored rec n ->
  forall xs b ys objs memo h,
    store_list store_at b xs = (ys, objs) -> segment h b objs ->
    list_max (map depth xs) <= n ->
    memo_below b memo ->
    exists memo',
      copy_list rec ys (memo, h)
      = Ok (fst (store_list store_at (length h) xs),
            (memo', h ++ snd (store_list store_at (length h) xs))) /\
      memo_below (b + length objs) memo'.
Proof.
  intros Hrec. induction xs as [|x r IH]; intros b ys objs memo h E Hs Hd Hm.
  - inversion E; subst. exists memo. cbn. rewrite app_nil_r.
    split; [reflexivity | eapply memo_below_weaken; [exact Hm | lia]].
  - rewrite store_list_cons in E.
    destruct (store_at b x) as [y o1] eqn:Ex.
    destruct (store_list store_at (b + length o1) r) as [ys1 o2] eqn:Er.
    inversion E; subst. clear E.
    apply segment_app_inv in Hs as [H1 H2].
    cbn [map list_max fold_right] in Hd.
    change (fold_right Init.Nat.max 0) with list_max in Hd.
    destruct (Hrec x b y o1 memo h Ex H1 ltac:(lia) Hm) as (memo1 & E1 & Hm1).
    rewrite store_list_cons.
    destruct (store_at (length h) x) as [y' o1'] eqn:Ex'.
    cbn [fst snd] in E1.
    destruct (IH (b + length o1) ys1 o2 memo1 (h ++ o1') Er
                (segment_grow _ _ _ _ H2) ltac:(lia) Hm1) as (memo2 & E2 & Hm2).
    rewrite length_app in E2.
    destruct (store_list store_at (length h + length o1') r) as [ys' o2'] eqn:Er'.
    cbn [fst snd] in *. exists memo2. split.
    + cbn [copy_list]. rewrite E1, E2. rewrite app_assoc. reflexivity.
    + rewrite length_app, Nat.add_assoc. exact Hm2.
Qed.

Lemma memo_below_miss b memo : memo_below b memo -> memo_get b memo = None.
Proof.
  intros H. destruct (memo_get b memo) as [y|] eqn:E; [|reflexivity].
  specialize (H b y E). lia.
Qed.

Lemma memo_below_enter b y memo :
  memo_below b memo -> memo_below (S b) ((b, y) :: memo).
Proof.
  intros H k y'. cbn [memo_get]. destruct (Nat.eqb b k) eqn:Eb.
  - apply Nat.eqb_eq in Eb. subst. lia.
  - intros E. specialize (H k y' E). lia.
Qed.

Lemma fill_placeholder (h : list obj) p o rest :
  <[length h := o]> ((h ++ [p]) ++ rest) = h ++ o :: rest.
Proof.
  rewrite <- app_assoc. cbn [app].
  replace (length h) with (length h + 0) at 1 by lia.
  rewrite insert_app_r. reflexivity.
Qed.

Lemma deepcopy_stored n : copies_stored (deepcopy_go n) n.
Proof.
  induction n as [|n IH]; intros t b v objs memo h E Hs Hd Hm.
  - destruct t as [a|xs|kvs]; cbn [depth] in Hd; try lia.
    inversion E; subst. exists memo. cbn. rewrite app_nil_r.
    split; [reflexivity | eapply memo_below_weaken; [exact Hm | lia]].
  - destruct t as [a|xs|kvs].
    + inversion E; subst. exists memo. cbn. rewrite app_nil_r.
      split; [reflexivity | eapply memo_below_weaken; [exact Hm | lia]].
    + rewrite store_at_list in E. inversion E; subst. clear E.
      apply segment_cons_inv in Hs as [Hb Hs]. cbn [depth] in Hd.
      destruct (copy_list_stored _ n IH xs (S b) _ _
                  ((b, length h) :: memo) (h ++ [OList []])
                  (surjective_pairing _) (segment_grow _ _ _ _ Hs)
                  ltac:(lia) (memo_below_enter _ _ _ Hm))
        as (memo' & Ec & Hm').
      rewrite length_app in Ec. cbn [length] in Ec. rewrite Nat.add_1_r in Ec.
      exists memo'. split.
      * cbn [deepcopy_go fst snd]. rewrite (memo_below_miss _ _ Hm), Hb, Ec.
        rewrite fill_placeholder, store_at_list. reflexivity.
      * cbn [length]. replace (b + S (length (store_list store_at (S b) xs).2))
          with (S b + length (store_list store_at (S b) xs).2) by lia.
        exact Hm'.
    + rewrite store_at_dict in E. inversion E; subst. clear E.
      apply segment_cons_inv in Hs as [Hb Hs]. cbn [depth] in Hd.
      destruct (copy_items_stored _ n IH kvs (S b) _ _
                  ((b, length h) :: memo) (h ++ [ODict []])
                  (surjective_pairing _) (segment_grow _ _ _ _ Hs)
                  ltac:(lia) (memo_below_enter _ _ _ Hm))
        as (memo' & Ec & Hm').
      rewrite length_app in Ec. cbn [length] in Ec. rewrite Nat.add_1_r in Ec.
      exists memo'. split.
      * cbn [deepcopy_go fst snd]. rewrite (memo_below_miss _ _ Hm), Hb, Ec.
        rewrite fill_placeholder, store_at_dict. reflexivity.
      * cbn [length]. replace (b + S (length (store_items store_at (S b) kvs).2))
          with (S b + length (store_items store_at (S b) kvs).2) by lia.
        exact Hm'.
Qed.

(** ** Surgery on a tree in the heap *)

Lemma items_in_length h ys kvs lo hi :
  items_in h ys kvs lo hi -> length ys = length kvs.
Proof. induction 1; cbn [length]; congruence. Qed.

Lemma list_in_length h ys xs lo hi :
  list_in h ys xs lo hi -> length ys = length xs.
Proof. induction 1; cbn [length]; congruence. Qed.

Lemma items_in_del h k ys kvs lo hi :
  items_in h ys kvs lo hi ->
  items_in h (dict_del k ys) (dict_del k kvs) lo hi.
Proof.
  induction 1 as [|k0 y x ys kvs lo mid hi Ht Hi IH]; cbn.
  - constructor. assumption.
  - destruct (String.eqb k0 k); cbn.
    + pose proof (proj1 (tree_in_bounds_all h) _ _ _ _ Ht).
      eapply (proj2 (proj2 (tree_in_weaken_all h))); [exact IH | lia | lia].
    + econstructor; eassumption.
Qed.

Lemma items_in_focus h k y ys kvs lo hi :
  items_in h ys kvs lo hi -> dict_get k ys = Some y ->
  exists x a b,
    dict_get k kvs = Some x /\ lo <= a /\ b <= hi /\ tree_in h y x a b /\
    forall h' x',
      (forall j, lo <= j < hi -> ~ (a <= j < b) -> h' !! j = h !! j) ->
      tree_in h' y x' a b ->
      items_in h' ys (alter_first k (fun _ => x') kvs) lo hi.
Proof.
  induction 1 as [|k0 y0 x0 ys kvs lo mid hi Ht Hi IH]; cbn; [discriminate|].
  pose proof (proj1 (tree_in_bounds_all h) _ _ _ _ Ht) as B1.
  pose proof (proj2 (proj2 (tree_in_bounds_all h)) _ _ _ _ Hi) as B2.
  destruct (String.eqb k0 k) eqn:Ek.
  - intros [= <-]. exists x0, lo, mid. repeat split; try lia; try assumption.
    intros h' x' Ha Ht'. econstructor; [exact Ht'|].
    apply (proj2 (proj2 (tree_in_frame_all h h'))); [exact Hi|].
    intros j Hj. apply Ha; lia.
  - intros Eg. destruct (IH Eg) as (x & a & b & Ex & La & Lb & Hx & K).
    exists x, a, b. repeat split; try lia; try assumption.
    intros h' x' Ha Ht'. econstructor.
    + apply (proj1 (tree_in_frame_all h h')); [exact Ht|].
      intros j Hj. apply Ha; lia.
    + apply K; [|exact Ht']. intros j Hj Hn. apply Ha; [lia | exact Hn].
Qed.

Lemma alter_first_const {V} k (f : V -> V) (kvs : list (string * V)) x :
  dict_get k kvs = Some x ->
  alter_first k (fun _ => f x) kvs = alter_first k f kvs.
Proof.
  induction kvs as [|[k0 x0] r IH]; cbn; [discriminate|].
  destruct (String.eqb k0 k); [intros [= ->]; reflexivity|].
  intros E. rewrite (IH E). reflexivity.
Qed.

Lemma tree_in_root h l x a b :
  tree_in h (Ref l) x a b -> a <= l < b /\ l < length h.
Proof.
  intros H.
  inversion H as [|l' ys xs lo hi Hlo Hlk Hin|l' ys kvs lo hi Hlo Hlk Hin]; subst.
  - pose proof (proj1 (proj2 (tree_in_bounds_all h)) _ _ _ _ Hin).
    apply lookup_lt_Some in Hlk. lia.
  - pose proof (proj2 (proj2 (tree_in_bounds_all h)) _ _ _ _ Hin).
    apply lookup_lt_Some in Hlk. lia.
Qed.

Lemma tree_in_dict_inv h l ys x a b :
  tree_in h (Ref l) x a b -> h !! l = Some (ODict ys) ->
  exists kd, x = VDict kd /\ items_in h ys kd (S l) b.
Proof.
  intros H E.
  inversion H as [|l' ys' xs lo hi Hlo Hlk Hin|l' ys' kvs lo hi Hlo Hlk Hin];
    subst; rewrite E in Hlk; inversion Hlk; subst.
  eauto.
Qed.

Lemma getitem_ok_inv d k w y w' :
  getitem d k w = (Ok y, w') ->
  w' = w /\ exists l ys,
    d = Ref l /\ heap w !! l = Some (ODict ys) /\ dict_get k ys = Some y.
Proof.
  intros E. split; [exact (pure_getitem _ _ _ _ _ E)|]. munfold E.
  destruct d as [a|l]; [discriminate|].
  destruct (heap w !! l) as [[xs|ys]|] eqn:El; cbn [fst snd] in E;
    try discriminate.
  destruct (dict_get k ys) eqn:Ek; inversion E; subst. eauto.
Qed.

Lemma pop_ok_inv d k w v w' :
  pop d k w = (Ok v, w') ->
  exists l ys,
    d = Ref l /\ heap w !! l = Some (ODict ys) /\ dict_get k ys = Some v /\
    w' = World (<[l := ODict (dict_del k ys)]> (heap w)) (files w) (trace w).
Proof.
  intros E. munfold E.
  destruct d as [a|l]; [discriminate|].
  destruct (heap w !! l) as [[xs|ys]|] eqn:El; cbn [fst snd] in E;
    try discriminate.
  destruct (dict_get k ys) eqn:Ek; inversion E; subst. eauto 6.
Qed.

Lemma setitem_ok_inv d k v w r w' :
  setitem d k v w = (Ok r, w') ->
  exists l ys,
    d = Ref l /\ heap w !! l = Some (ODict ys) /\
    w' = World (<[l := ODict (dict_set k v ys)]> (heap w)) (files w) (trace w).
Proof.
  intros E. munfold E.
  destruct d as [a|l]; [discriminate|].
  destruct (heap w !! l) as [[xs|ys]|] eqn:El; cbn [fst snd] in E;
    try discriminate.
  inversion E; subst. eauto 6.
Qed.

Lemma tree_pop h l ys x a b k :
  tree_in h (Ref l) x a b -> h !! l = Some (ODict ys) ->
  tree_in (<[l := ODict (dict_del k ys)]> h) (Ref l) (del_key k x) a b.
Proof.
  intros H E. destruct (tree_in_root _ _ _ _ _ H) as [Hl Hlen].
  destruct (tree_in_dict_inv _ _ _ _ _ _ H E) as (kd & -> & Hi).
  cbn [del_key]. eapply ti_dict; [lia | apply list_lookup_insert_eq; exact Hlen |].
  apply (proj2 (proj2 (tree_in_frame_all h _))); [apply items_in_del, Hi|].
  intros j Hj. apply list_lookup_insert_ne. lia.
Qed.

(** Following [path] from the root of a tree and popping [k] there drops
    [k] at that path of the tree, and touches nothing outside the range
    of the tree. *)
Lemma tree_pop_path k path :
  forall v x a b w c r w',
    tree_in (heap w) v x a b ->
    getpath path v w = (Ok c, w) ->
    pop c k w = (Ok r, w') ->
    tree_in (heap w') v (del_path path k x) a b /\
    (forall j, ~ (a <= j < b) -> heap w' !! j = heap w !! j) /\
    length (heap w') = length (heap w) /\
    files w' = files w /\ trace w' = trace w.
Proof.
  induction path as [|k1 rest IH]; intros v x a b w c r w' Ht Eg Ep.
  - inversion Eg; subst. clear Eg.
    destruct (pop_ok_inv _ _ _ _ _ Ep) as (l & ys & -> & El & _ & ->).
    cbn [heap files trace del_path].
    destruct (tree_in_root _ _ _ _ _ Ht) as [Hl _].
    repeat split; try reflexivity.
    + apply tree_pop; assumption.
    + intros j Hj. apply list_lookup_insert_ne. lia.
    + apply length_insert.
  - cbn [getpath] in Eg. apply bind_ok in Eg as (c1 & w1 & E1 & E2).
    destruct (getitem_ok_inv _ _ _ _ _ E1) as (-> & l & ys & -> & El & Ek).
    destruct (tree_in_root _ _ _ _ _ Ht) as [Hl Hlen].
    destruct (tree_in_dict_inv _ _ _ _ _ _ Ht El) as (kd & -> & Hi).
    destruct (items_in_focus _ _ _ _ _ _ _ Hi Ek)
      as (xk & a' & b' & Exk & La & Lb & Hxk & K).
    destruct (IH _ _ _ _ _ _ _ _ Hxk E2 Ep) as (Ht' & Hf & Hlen' & Hfiles & Htrace).
    repeat split; try assumption.
    + cbn [del_path alter_key].
      rewrite <- (alter_first_const k1 (del_path rest k) kd xk Exk).
      eapply ti_dict; [lia | rewrite Hf; [exact El | lia] |].
      apply K; [|exact Ht']. intros j Hj Hn. apply Hf. exact Hn.
    + intros j Hj. apply Hf. lia.
Qed.

Lemma tree_py_len h c x a b w n w' :
  heap w = h -> tree_in h c x a b -> py_len c w = (Ok n, w') ->
  len_value x = Some n.
Proof.
  intros <- Ht E.
  inversion Ht as [a0 lo hi Hb|l ys xs lo hi Hlo Hlk Hin|l ys kvs lo hi Hlo Hlk Hin];
    subst; cbn [py_len] in E.
  - destruct a0; inversion E; subst; reflexivity.
  - munfold E. rewrite Hlk in E. cbn [fst snd] in E. inversion E; subst.
    cbn. erewrite list_in_length by eassumption. reflexivity.
  - munfold E. rewrite Hlk in E. cbn [fst snd] in E. inversion E; subst.
    cbn. erewrite items_in_length by eassumption. reflexivity.
Qed.

Lemma tree_getitem_value h l x a b k w c :
  heap w = h -> tree_in h (Ref l) x a b ->
  getitem (Ref l) k w = (Ok c, w) ->
  exists xk a' b', value_at [k] x = Some xk /\ tree_in h c xk a' b'.
Proof.
  intros <- Ht E.
  destruct (getitem_ok_inv _ _ _ _ _ E) as (_ & l' & ys & [= <-] & El & Ek).
  destruct (tree_in_dict_inv _ _ _ _ _ _ Ht El) as (kd & -> & Hi).
  destruct (items_in_focus _ _ _ _ _ _ _ Hi Ek)
    as (xk & a' & b' & Exk & _ & _ & Hxk & _).
  exists xk, a', b'. cbn. rewrite Exk. split; [reflexivity | exact Hxk].
Qed.

(** ** [gen_script] on a stored configuration *)

Lemma only_at_refl l h : only_at l h h.
Proof. split; auto. Qed.

Lemma only_at_trans l h1 h2 h3 :
  only_at l h1 h2 -> only_at l h2 h3 -> only_at l h1 h3.
Proof.
  intros [L1 A1] [L2 A2]. split; [congruence|].
  intros j Hj. rewrite A2, A1 by assumption. reflexivity.
Qed.

Lemma setitem_only_at l k v w r w' :
  setitem (Ref l) k v w = (Ok r, w') ->
  only_at l (heap w) (heap w') /\ files w' = files w /\ trace w' = trace w /\
  exists ys, heap w !! l = Some (ODict ys) /\
             heap w' !! l = Some (ODict (dict_set k v ys)).
Proof.
  intros E. destruct (setitem_ok_inv _ _ _ _ _ _ E) as (l' & ys & [= <-] & El & ->).
  cbn [heap files trace]. repeat split.
  - apply length_insert.
  - intros j Hj. apply list_lookup_insert_ne. congruence.
  - exists ys. split; [exact El|]. apply list_lookup_insert_eq.
    apply lookup_lt_Some in El. exact El.
Qed.

Lemma update_str_only_at l other : forall w r w',
  update_str (Ref l) other w = (Ok r, w') ->
  only_at l (heap w) (heap w') /\ files w' = files w /\ trace w' = trace w.
Proof.
  induction other as [|[k s] rest IH]; intros w r w' E; cbn [update_str] in E.
  - inversion E; subst. split; [apply only_at_refl | auto].
  - apply bind_ok in E as (u & w1 & E1 & E2).
    destruct (setitem_only_at _ _ _ _ _ _ E1) as (O1 & F1 & T1 & _).
    destruct (IH _ _ _ E2) as (O2 & F2 & T2).
    split; [eapply only_at_trans; eassumption | split; congruence].
Qed.

Lemma dict_get_set_eq {V} k (v : V) kvs : dict_get k (dict_set k v kvs) = Some v.
Proof.
  induction kvs as [|[k0 v0] r IH]; cbn.
  - rewrite String.eqb_refl. reflexivity.
  - destruct (String.eqb k0 k) eqn:E; cbn.
    + rewrite String.eqb_refl. reflexivity.
    + rewrite E. exact IH.
Qed.

Lemma dict_get_set_ne {V} k k' (v : V) kvs :
  k <> k' -> dict_get k (dict_set k' v kvs) = dict_get k kvs.
Proof.
  intros Hne. induction kvs as [|[k0 v0] r IH]; cbn.
  - destruct (String.eqb k' k) eqn:E; [apply String.eqb_eq in E; congruence|reflexivity].
  - destruct (String.eqb k0 k') eqn:E; cbn.
    + apply String.eqb_eq in E. subst.
      destruct (String.eqb k' k) eqn:E2; [apply String.eqb_eq in E2; congruence|reflexivity].
    + destruct (String.eqb k0 k); [reflexivity | exact IH].
Qed.

Lemma deepcopy_stored_m rt d t w y w' :
  stored (heap w) d t -> depth t <= recursion_limit rt ->
  deepcopy rt d w = (Ok y, w') ->
  y = fst (store_at (length (heap w)) t) /\
  heap w' = heap w ++ snd (store_at (length (heap w)) t) /\
  files w' = files w /\ trace w' = trace w.
Proof.
  intros (b & objs & Es & Hs) Hd E. unfold deepcopy in E.
  destruct (deepcopy_stored _ t b d objs [] (heap w) Es Hs Hd) as (memo' & Ec & _).
  { intros k y0 [=]. }
  rewrite Ec in E. inversion E; subst. cbn [heap files trace]. auto.
Qed.

Section Refinement.
Variable rt : Runtime.
Variable cat : Catalog.

Ltac pstep E H :=
  let a := fresh "a" in let w1 := fresh "w" in 
  apply bind_ok in E as (a & w1 & H & E).

Lemma gen_script_locals_reduced d t w vars w' :
  stored (heap w) d t ->
  gen_script_locals rt cat d w = (Ok vars, w') ->
  (exists kw, t = VDict kw /\
     NodePredUserConfig_validate rt cat kw = Some (user_cfg rt vars)) /\
  reify (recursion_limit rt) (heap w') (generated_user_cfg rt vars)
  = Ok (reduced_code t) /\
  exists rc ys,
    render_cfg rt vars = Ref rc /\ heap w' !! rc = Some (ODict ys) /\
    dict_get "user_cfg_str" ys
    = Some (Atom (AStr ("cfg = " +:+ py_repr rt (reduced_code t)))) /\
    dict_get "user_cfg" ys = Some d.
Proof.
  intros Hst E. unfold gen_script_locals in E.
  (* validation *)
  apply bind_ok in E as (u & w1 & Ev & E).
  pose proof (pure_validate_obj _ _ _ _ _ _ Ev). subst w1.
  assert (Hin : exists b objs, store_at b t = (d, objs) /\ segment (heap w) b objs) by exact Hst.
  destruct Hin as (b & objs & Es & Hs).
  pose proof (store_tree_in _ _ _ _ _ Es Hs) as Ht0.
  unfold validate_obj, reify_m in Ev.
  apply bind_ok in Ev as (t0 & w1 & Er & Ev).
  apply bind_ok in Er as (h0 & w2 & Eh & Er).
  inversion Eh; subst h0 w2. clear Eh.
  inversion Er as [[Er' Ew]]. subst w1. clear Er.
  destruct (proj1 (reify_depth_all _) _ _ _ _ Ht0 _ _ Er') as [Hd ->].
  destruct t as [a|xs|kw]; try (inversion Ev; fail).
  assert (Hv : NodePredUserConfig_validate rt cat kw = Some u).
  { unfold lift_opt in Ev. destruct (NodePredUserConfig_validate rt cat kw); inversion Ev; reflexivity. }
  clear Ev Er'.
  assert (Hobjs : exists o0 objs0, objs = o0 :: objs0).
  { rewrite store_at_dict in Es. inversion Es; eauto. }
  destruct Hobjs as (o0 & objs0 & Hobjs).
  assert (Hb : b + length objs <= length (heap w)).
  { apply segment_bound; [exact Hs | subst objs; discriminate]. }
  (* the template *)
  apply bind_ok in E as (src & w1 & Eo & E).
  assert (Hw1 : heap w1 = heap w).
  { unfold open_read in Eo.
    destruct (files w !! template_path rt); inversion Eo; reflexivity. }
  clear Eo.
  apply bind_ok in E as (tpl & w2 & Etp & E).
  pose proof (pure_lift_opt _ _ _ _ _ Etp). subst w2. clear Etp.
  (* render_cfg *)
  apply bind_ok in E as (rc & w2 & Ec1 & E).
  assert (Hst1 : stored (heap w1) d (VDict kw)) by (rewrite Hw1; exact Hst).
  destruct (deepcopy_stored_m _ _ _ _ _ _ Hst1 Hd Ec1) as (Erc & Hh2 & _ & _).
  rewrite store_at_dict in Erc, Hh2. cbn [fst snd] in Erc, Hh2. clear Ec1.
  rewrite Hw1 in *. clear Hst1. subst rc.
  set (b1 := length (heap w)) in *.
  pstep E Ep. apply pure_getitem in Ep. subst.
  pstep E Ep. apply pure_getitem in Ep. subst.
  pstep E Ep. apply pure_registry in Ep. subst.
  pstep E Ep. destruct (setitem_only_at _ _ _ _ _ _ Ep) as (O1 & _ & _ & _). clear Ep.
  pstep E Ep. apply pure_getitem in Ep. subst.
  pstep E Ep. apply pure_getitem in Ep. subst.
  pstep E Ep. apply pure_registry in Ep. subst.
  pstep E Ep. destruct (setitem_only_at _ _ _ _ _ _ Ep) as (O2 & _ & _ & _). clear Ep.
  pstep E Ep. apply pure_getitem in Ep. subst.
  pstep E Ep. apply pure_getitem in Ep. subst.
  pstep E Ep. apply pure_registry in Ep. subst.
  pstep E Ep. destruct (update_str_only_at _ _ _ _ _ Ep) as (O3 & _ & _). clear Ep.
  pose proof (only_at_trans _ _ _ _ (only_at_trans _ _ _ _ O1 O2) O3) as OA.
  clear O1 O2 O3.
  assert (Hlt : forall l, l < b1 -> heap w4 !! l = heap w !! l).
  { intros l Hl. destruct OA as [_ OA]. rewrite OA by lia. rewrite Hh2.
    apply lookup_app_l. exact Hl. }
  assert (Hst4 : stored (heap w4) d (VDict kw)).
  { exists b, (o0 :: objs0). split; [exact Es|].
    eapply segment_agree; [exact Hs|]. intros l Hl. apply Hlt. lia. }
  (* generated_user_cfg *)
  apply bind_ok in E as (g & w5 & Ec2 & E).
  destruct (deepcopy_stored_m _ _ _ _ _ _ Hst4 Hd Ec2) as (Eg & Hh5 & _ & _).
  clear Ec2.
  assert (Hb2 : b1 < length (heap w4)).
  { destruct OA as [-> _]. rewrite Hh2, length_app. cbn [length]. lia. }
  set (b2 := length (heap w4)) in *.
  assert (Htg : tree_in (heap w5) g (VDict kw) b2 (length (heap w5))).
  { rewrite Hh5 at 2. rewrite length_app. fold b2.
    apply store_tree_in.
    - rewrite Eg. apply surjective_pairing.
    - rewrite Hh5. apply segment_self. }
  rewrite store_at_dict in Eg. cbn [fst] in Eg. subst g.
  assert (Hlt5 : forall l, l < b2 -> heap w5 !! l = heap w4 !! l).
  { intros l Hl. rewrite Hh5. apply lookup_app_l. exact Hl. }
  set (e2 := length (heap w5)) in *.
  (* the dataset descriptor *)
  apply bind_ok in E as (dv & w6 & Egd & E).
  pose proof (pure_getitem _ _ _ _ _ Egd). subst w6.
  destruct (tree_getitem_value _ _ _ _ _ _ _ _ eq_refl Htg Egd)
    as (xd & ad & bd & Exd & Htd).
  apply bind_ok in E as (n & w6 & Elen & E).
  pose proof (pure_py_len _ _ _ _ Elen). subst w6.
  pose proof (tree_py_len _ _ _ _ _ _ _ _ eq_refl Htd Elen) as Hlen.
  apply bind_ok in E as (u0 & w6 & Eif & E).
  assert (HD : tree_in (heap w6) (Ref b2) (reduce_data (VDict kw)) b2 e2 /\
               (forall j, ~ (b2 <= j < e2) -> heap w6 !! j = heap w5 !! j) /\
               length (heap w6) = e2).
  { unfold reduce_data. rewrite Exd, Hlen.
    destruct (Nat.eqb n 1) eqn:En.
    - apply Nat.eqb_eq in En. subst n.
      apply bind_ok in Eif as (r & w7 & Ep & Eret). inversion Eret; subst w7.
      destruct (tree_pop_path "data" [] _ _ _ _ _ _ _ _ Htg eq_refl Ep)
        as (H1 & H2 & H3 & _). auto.
    - apply Nat.eqb_neq in En.
      apply bind_ok in Eif as (dv2 & w7 & Eg2 & Eif).
      pose proof (pure_getitem _ _ _ _ _ Eg2). subst w7.
      apply bind_ok in Eif as (r & w7 & Ep & Eret). inversion Eret; subst w7.
      assert (Epath : getpath ["data"] (Ref b2) w5 = (Ok dv2, w5)).
      { cbn [getpath]. unfold bind. rewrite Eg2. reflexivity. }
      destruct (tree_pop_path "name" ["data"] _ _ _ _ _ _ _ _ Htg Epath Ep)
        as (H1 & H2 & H3 & _).
      destruct n as [|[|n]]; try congruence; auto. }
  destruct HD as (Ht6 & Hf6 & Hl6). clear Eif Egd Elen Htg.
  (* pipeline_name *)
  apply bind_ok in E as (r1 & w7 & Ep & E).
  destruct (tree_pop_path "pipeline_name" [] _ _ _ _ _ _ _ _ Ht6 eq_refl Ep)
    as (Ht7 & Hf7 & Hl7 & _). clear Ep Ht6.
  (* model.name *)
  apply bind_ok in E as (m & w8 & Egm & E).
  pose proof (pure_getitem _ _ _ _ _ Egm). subst w8.
  apply bind_ok in E as (r2 & w8 & Ep & E).
  assert (Epath : getpath ["model"] (Ref b2) w7 = (Ok m, w7)).
  { cbn [getpath]. unfold bind. rewrite Egm. reflexivity. }
  destruct (tree_pop_path "name" ["model"] _ _ _ _ _ _ _ _ Ht7 Epath Ep)
    as (Ht8 & Hf8 & Hl8 & _). clear Ep Ht7 Epath Egm.
  (* general_pipeline.optimizer.name *)
  apply bind_ok in E as (gp & w9 & Egg & E).
  pose proof (pure_getitem _ _ _ _ _ Egg). subst w9.
  apply bind_ok in E as (op & w9 & Ego & E).
  pose proof (pure_getitem _ _ _ _ _ Ego). subst w9.
  apply bind_ok in E as (r3 & w9 & Ep & E).
  assert (Epath : getpath ["general_pipeline"; "optimizer"] (Ref b2) w8 = (Ok op, w8)).
  { cbn [getpath]. unfold bind. rewrite Egg, Ego. reflexivity. }
  destruct (tree_pop_path "name" ["general_pipeline"; "optimizer"]
              _ _ _ _ _ _ _ _ Ht8 Epath Ep)
    as (Ht9 & Hf9 & Hl9 & _). clear Ep Ht8 Epath Egg Ego.
  fold (reduced_code (VDict kw)) in Ht9.
  assert (Hf : forall j, ~ (b2 <= j < e2) -> heap w9 !! j = heap w5 !! j).
  { intros j Hj. rewrite Hf9, Hf8, Hf7, Hf6 by exact Hj. reflexivity. }
  assert (Hl : length (heap w9) = e2) by congruence.
  clear Hf6 Hf7 Hf8 Hf9 Hl6 Hl7 Hl8 Hl9.
  (* generated_train_cfg *)
  apply bind_ok in E as (g0 & w10 & Eg0 & E).
  pose proof (pure_getitem _ _ _ _ _ Eg0). subst w10. clear Eg0.
  apply bind_ok in E as (gtc & w10 & Ec3 & E).
  destruct (keeps_deepcopy rt _ _ _ _ _ _ (WI_init w9) Ec3) as (HW10 & Hfr).
  specialize (Hfr gtc eq_refl).
  apply bind_ok in E as (o3 & w11 & Ego & E).
  destruct (keeps_getitem_fresh _ _ _ _ Hfr _ _ _ HW10 Ego) as (HW11 & Hfo).
  specialize (Hfo o3 eq_refl).
  apply bind_ok in E as (r4 & w12 & Ep & E).
  destruct (keeps_pop _ _ _ _ Hfo _ _ _ HW11 Ep) as ((_ & _ & Hsb) & _).
  rewrite Hl in Hsb. clear Ec3 Ego Ep HW10 HW11 Hfr Hfo.
  assert (Ht12 : tree_in (heap w12) (Ref b2) (reduced_code (VDict kw)) b2 e2).
  { apply (proj1 (tree_in_frame_all (heap w9) _)); [exact Ht9|].
    intros l Hl'. apply Hsb. lia. }
  (* the literal *)
  apply bind_ok in E as (s & w13 & Es' & E).
  pose proof (pure_py_str _ _ _ _ _ Es'). subst w13.
  unfold py_str, reify_m in Es'.
  apply bind_ok in Es' as (r & w13 & Er & Es').
  apply bind_ok in Er as (h13 & w14 & Eh & Er).
  inversion Eh; subst h13 w14. clear Eh.
  inversion Er as [[Er' Ew]]. subst w13. clear Er.
  destruct (proj1 (reify_depth_all _) _ _ _ _ Ht12 _ _ Er') as [Hdr ->].
  inversion Es'; subst s. clear Es' Er'.
  apply bind_ok in E as (u1 & w13 & Eset1 & E).
  destruct (setitem_only_at _ _ _ _ _ _ Eset1) as (O1 & _ & _ & ys1 & _ & Ey1).
  apply bind_ok in E as (u2 & w14 & Eset2 & E).
  destruct (setitem_only_at _ _ _ _ _ _ Eset2) as (O2 & _ & _ & ys2 & Ey2 & Ey2').
  inversion E; subst. clear E Eset1 Eset2. cbn [user_cfg generated_user_cfg render_cfg].
  split; [eauto|]. split.
  - apply (proj1 (tree_in_reify_all _) _ _ b2 e2); [|exact Hdr].
    apply (proj1 (tree_in_frame_all (heap w12) _)); [exact Ht12|].
    intros l Hl'. destruct O1 as [_ O1], O2 as [_ O2].
    rewrite O2, O1 by lia. reflexivity.
  - exists b1, (dict_set "user_cfg" d ys2). split; [reflexivity|].
    split; [exact Ey2'|]. rewrite Ey1 in Ey2. inversion Ey2; subst ys2.
    split; [|apply dict_get_set_eq].
    rewrite dict_get_set_ne by discriminate. apply dict_get_set_eq.
Qed.
End Refinement.

(** ** Facts about the reduced configuration *)

Lemma eqb_ne k k' : k <> k' -> String.eqb k k' = false.
Proof. intros H. apply String.eqb_neq. exact H. Qed.

Lemma dict_del_cons {V} k k0 (v0 : V) r :
  dict_del k ((k0, v0) :: r)
  = if String.eqb k0 k then dict_del k r else (k0, v0) :: dict_del k r.
Proof. unfold dict_del. cbn. destruct (String.eqb k0 k); reflexivity. Qed.

Lemma dict_get_del_eq {V} k (kvs : list (string * V)) :
  dict_get k (dict_del k kvs) = None.
Proof.
  induction kvs as [|[k0 v0] r IH]; [reflexivity|].
  rewrite dict_del_cons.
  destruct (String.eqb k0 k) eqn:E; [exact IH|]. cbn. rewrite E. exact IH.
Qed.

Lemma dict_get_del_ne {V} k k' (kvs : list (string * V)) :
  k <> k' -> dict_get k (dict_del k' kvs) = dict_get k kvs.
Proof.
  intros Hne. induction kvs as [|[k0 v0] r IH]; [reflexivity|].
  rewrite dict_del_cons. cbn.
  destruct (String.eqb k0 k') eqn:E; cbn.
  - apply String.eqb_eq in E. subst k0.
    rewrite (eqb_ne k' k) by congruence. exact IH.
  - destruct (String.eqb k0 k); [reflexivity | exact IH].
Qed.

Lemma dict_get_alter_eq {V} k (f : V -> V) (kvs : list (string * V)) :
  dict_get k (alter_first k f kvs) = option_map f (dict_get k kvs).
Proof.
  induction kvs as [|[k0 v0] r IH]; cbn; [reflexivity|].
  destruct (String.eqb k0 k) eqn:E; cbn; rewrite E; [reflexivity | exact IH].
Qed.

Lemma dict_get_alter_ne {V} k k' (f : V -> V) (kvs : list (string * V)) :
  k <> k' -> dict_get k (alter_first k' f kvs) = dict_get k kvs.
Proof.
  intros Hne. induction kvs as [|[k0 v0] r IH]; cbn; [reflexivity|].
  destruct (String.eqb k0 k') eqn:E; cbn.
  - apply String.eqb_eq in E. subst k0.
    rewrite (eqb_ne k' k) by congruence. reflexivity.
  - destruct (String.eqb k0 k); [reflexivity | exact IH].
Qed.

Lemma dict_del_comm {V} k1 k2 (kvs : list (string * V)) :
  dict_del k1 (dict_del k2 kvs) = dict_del k2 (dict_del k1 kvs).
Proof.
  induction kvs as [|[k0 v0] r IH]; [reflexivity|].
  rewrite !dict_del_cons.
  destruct (String.eqb k0 k2) eqn:E2, (String.eqb k0 k1) eqn:E1;
    rewrite ?dict_del_cons, ?E1, ?E2; congruence.
Qed.

Lemma dict_del_alter {V} k1 k2 (f : V -> V) (kvs : list (string * V)) :
  k1 <> k2 ->
  dict_del k1 (alter_first k2 f kvs) = alter_first k2 f (dict_del k1 kvs).
Proof.
  intros Hne. induction kvs as [|[k0 v0] r IH]; [reflexivity|].
  cbn [alter_first]. rewrite !dict_del_cons.
  destruct (String.eqb k0 k2) eqn:E2, (String.eqb k0 k1) eqn:E1;
    rewrite ?dict_del_cons, ?E1, ?E2; cbn [alter_first]; rewrite ?E2;
    try congruence.
  apply String.eqb_eq in E1, E2. congruence.
Qed.

Lemma alter_alter_comm {V} k1 k2 (f g : V -> V) (kvs : list (string * V)) :
  k1 <> k2 ->
  alter_first k1 f (alter_first k2 g kvs)
  = alter_first k2 g (alter_first k1 f kvs).
Proof.
  intros Hne. induction kvs as [|[k0 v0] r IH]; cbn; [reflexivity|].
  destruct (String.eqb k0 k2) eqn:E2, (String.eqb k0 k1) eqn:E1; cbn;
    rewrite ?E1, ?E2; cbn; try congruence.
  apply String.eqb_eq in E1, E2. congruence.
Qed.

(** A removal at the end of a path leaves nothing there. *)
Lemma value_at_del_path_end k path :
  forall t, value_at (path ++ [k]) (del_path path k t) = None.
Proof.
  induction path as [|k1 rest IH]; intros [a|xs|kvs]; cbn; try reflexivity.
  - rewrite dict_get_del_eq. reflexivity.
  - rewrite dict_get_alter_eq. destruct (dict_get k1 kvs); cbn; [apply IH | reflexivity].
Qed.

(** A removal creates no path. *)
Lemma value_at_del_path_mono k q :
  forall p t, value_at p t = None -> value_at p (del_path q k t) = None.
Proof.
  induction q as [|k1 rest IH]; intros [|k0 p] [a|xs|kvs]; cbn; try discriminate;
    try reflexivity.
  - destruct (String.eqb_spec k0 k) as [->|Hne].
    + rewrite dict_get_del_eq. reflexivity.
    + rewrite dict_get_del_ne by exact Hne. auto.
  - destruct (String.eqb_spec k0 k1) as [->|Hne].
    + rewrite dict_get_alter_eq. destruct (dict_get k1 kvs); cbn; [apply IH | reflexivity].
    + rewrite dict_get_alter_ne by exact Hne. auto.
Qed.

(** A removal under another top-level key leaves a key as it is. *)
Lemma value_at_del_top k k' p t :
  k <> k' -> value_at (k :: p) (del_path [] k' t) = value_at (k :: p) t.
Proof.
  intros Hne. destruct t as [a|xs|kvs]; cbn; try reflexivity.
  rewrite dict_get_del_ne by exact Hne. reflexivity.
Qed.

Lemma value_at_del_under k k1 rest k' p t :
  k <> k1 ->
  value_at (k :: p) (del_path (k1 :: rest) k' t) = value_at (k :: p) t.
Proof.
  intros Hne. destruct t as [a|xs|kvs]; cbn; try reflexivity.
  rewrite dict_get_alter_ne by exact Hne. reflexivity.
Qed.


Lemma del_top_top k1 k2 t :
  del_path [] k1 (del_path [] k2 t) = del_path [] k2 (del_path [] k1 t).
Proof.
  destruct t as [a|xs|kvs]; cbn; try reflexivity.
  rewrite dict_del_comm. reflexivity.
Qed.

Lemma del_top_under k1 k2 rest k t :
  k1 <> k2 ->
  del_path [] k1 (del_path (k2 :: rest) k t)
  = del_path (k2 :: rest) k (del_path [] k1 t).
Proof.
  intros Hne. destruct t as [a|xs|kvs]; cbn; try reflexivity.
  rewrite dict_del_alter by exact Hne. reflexivity.
Qed.

Lemma del_under_under k1 r1 ka k2 r2 kb t :
  k1 <> k2 ->
  del_path (k1 :: r1) ka (del_path (k2 :: r2) kb t)
  = del_path (k2 :: r2) kb (del_path (k1 :: r1) ka t).
Proof.
  intros Hne. destruct t as [a|xs|kvs]; cbn; try reflexivity.
  rewrite alter_alter_comm by exact Hne. reflexivity.
Qed.

Lemma reduce_data_del_top k t :
  k <> "data" ->
  reduce_data (del_path [] k t) = del_path [] k (reduce_data t).
Proof.
  intros Hne. unfold reduce_data.
  rewrite value_at_del_top by congruence.
  destruct (value_at ["data"] t) as [d|]; [|reflexivity].
  destruct (len_value d) as [[|[|n]]|].
  - symmetry. apply del_top_under. exact Hne.
  - apply del_top_top.
  - symmetry. apply del_top_under. exact Hne.
  - symmetry. apply del_top_under. exact Hne.
Qed.

Lemma reduce_data_del_under k1 rest k t :
  k1 <> "data" ->
  reduce_data (del_path (k1 :: rest) k t)
  = del_path (k1 :: rest) k (reduce_data t).
Proof.
  intros Hne. unfold reduce_data.
  rewrite value_at_del_under by congruence.
  destruct (value_at ["data"] t) as [d|]; [|reflexivity].
  destruct (len_value d) as [[|[|n]]|].
  - apply del_under_under. congruence.
  - apply del_top_under. congruence.
  - apply del_under_under. congruence.
  - apply del_under_under. congruence.
Qed.

(** The order of the removals in [gen_script] gives the reduced
    configuration of the specification. *)
Lemma reduced_code_config t : reduced_code t = reduced_config t.
Proof.
  unfold reduced_code, reduced_config.
  rewrite !reduce_data_del_under by discriminate.
  rewrite reduce_data_del_top by discriminate. reflexivity.
Qed.

Lemma reduced_config_keys t :
  value_at ["pipeline_name"] (reduced_config t) = None /\
  value_at ["model"; "name"] (reduced_config t) = None /\
  value_at ["general_pipeline"; "optimizer"; "name"] (reduced_config t) = None.
Proof.
  rewrite <- reduced_code_config. unfold reduced_code. repeat split.
  - do 2 apply value_at_del_path_mono.
    apply (value_at_del_path_end "pipeline_name" []).
  - apply value_at_del_path_mono.
    apply (value_at_del_path_end "name" ["model"]).
  - apply (value_at_del_path_end "name" ["general_pipeline"; "optimizer"]).
Qed.


(** ** The reduced configuration embedded by [gen_script] *)

Lemma alloc_stored t w : stored (heap (snd (alloc t w))) (fst (store_at (length (heap w)) t)) t.
Proof.
  unfold alloc. destruct (store_at (length (heap w)) t) as [v objs] eqn:E.
  cbn [fst snd heap]. exists (length (heap w)), objs.
  split; [exact E | apply segment_self].
Qed.

Lemma mapM_items_get {A B} (f : A -> outcome B) k :
  forall ys ctx y,
    mapM_items f ys = Ok ctx -> dict_get k ys = Some y ->
    exists x, f y = Ok x /\ dict_get k ctx = Some x.
Proof.
  induction ys as [|[k0 y0] r IH]; intros ctx y E Eg; [discriminate|].
  cbn [mapM_items] in E. destruct (f y0) as [x0|] eqn:E0; [|discriminate].
  destruct (mapM_items f r) as [xs|] eqn:Er; [|discriminate].
  inversion E; subst. cbn [dict_get] in *.
  destruct (String.eqb k0 k); [inversion Eg; subst; eauto | eauto].
Qed.

Section Literal.
Variable rt : Runtime.
Variable cat : Catalog.

Lemma gen_script_ok_inv d w script w' :
  gen_script rt cat d w = (Ok script, w') ->
  exists vars ctx,
    gen_script_locals rt cat d w = (Ok vars, w') /\
    reify (recursion_limit rt) (heap w') (render_cfg rt vars) = Ok (VDict ctx) /\
    render rt (template rt vars) ctx = Some script.
Proof.
  unfold gen_script. intros E. apply bind_ok in E as (vars & w1 & E1 & E2).
  pose proof (render_locals_pure _ _ _ _ _ E2). subst w1.
  unfold render_locals, reify_m in E2.
  apply bind_ok in E2 as (ctx & w1 & Er & E2).
  apply bind_ok in Er as (h & w2 & Eh & Er). inversion Eh; subst h w2.
  inversion Er as [[Er' Ew]]. subst w1.
  destruct ctx as [a|xs|ctx]; try (inversion E2; fail).
  exists vars, ctx. split; [exact E1|]. split; [exact Er'|].
  unfold lift_opt in E2. destruct (render rt (template rt vars) ctx);
    inversion E2; reflexivity.
Qed.

(** What every successful run on a stored configuration hands to the
    template renderer. *)
Lemma gen_script_reduced d t w script w' :
  stored (heap w) d t ->
  gen_script rt cat d w = (Ok script, w') ->
  exists vars ctx,
    gen_script_locals rt cat d w = (Ok vars, w') /\
    reify (recursion_limit rt) (heap w') (generated_user_cfg rt vars)
    = Ok (reduced_config t) /\
    reify (recursion_limit rt) (heap w') (render_cfg rt vars) = Ok (VDict ctx) /\
    render rt (template rt vars) ctx = Some script /\
    dict_get "user_cfg_str" ctx
    = Some (VStr ("cfg = " +:+ py_repr rt (reduced_config t))).
Proof.
  intros Hst E. destruct (gen_script_ok_inv _ _ _ _ E) as (vars & ctx & El & Er & Ern).
  destruct (gen_script_locals_reduced rt cat _ _ _ _ _ Hst El)
    as (_ & Hg & rc & ys & Erc & Eys & Estr & _).
  rewrite reduced_code_config in Hg, Estr.
  exists vars, ctx. repeat split; try assumption.
  rewrite Erc in Er. destruct (recursion_limit rt) as [|n]; [discriminate|].
  cbn [reify] in Er. rewrite Eys in Er.
  destruct (mapM_items (reify n (heap w')) ys) as [ctx'|] eqn:Em; [|discriminate].
  inversion Er; subst ctx'.
  destruct (mapM_items_get _ _ _ _ _ Em Estr) as (x & Ex & Eg).
  destruct n; inversion Ex; subst; exact Eg.
Qed.


(** C3.  For every stored configuration on which [gen_script] returns a
    script, the reduced configuration whose literal is embedded has no
    key [pipeline_name], no [model.name] and no
    [general_pipeline.optimizer.name]. *)
Theorem reduced_literal_drops_discriminators d t w script w' :
  stored (heap w) d t ->
  gen_script rt cat d w = (Ok script, w') ->
  exists r,
    reduced_literal rt cat d w w' r /\
    value_at ["pipeline_name"] r = None /\
    value_at ["model"; "name"] r = None /\
    value_at ["general_pipeline"; "optimizer"; "name"] r = None.
Proof.
  intros Hst E.
  destruct (gen_script_reduced _ _ _ _ _ Hst E) as (vars & ctx & H1 & H2 & H3 & _ & H5).
  exists (reduced_config t). split; [exists vars, ctx; auto|].
  apply reduced_config_keys.
Qed.

End Literal.


Lemma reduced_literal_drops_discriminators_witness :
  exists r,
    reduced_literal Example.rt Example.cat (Ref 0) Example.w1
      (snd (gen_script Example.rt Example.cat (Ref 0) Example.w1)) r /\
    value_at ["pipeline_name"] r = None /\
    value_at ["model"; "name"] r = None /\
    value_at ["general_pipeline"; "optimizer"; "name"] r = None.
Proof.
  apply (reduced_literal_drops_discriminators Example.rt Example.cat (Ref 0)
           Example.cfg1 Example.w1
           "# template cfg = {'device': 'cpu', 'model': {'hidden_size': 32}, 'general_pipeline': {'num_epochs': 10, 'optimizer': {'lr': 0.1}}}").
  - exact (alloc_stored Example.cfg1 Example.w0).
  - vm_compute. reflexivity.
Defined.


(** ** [gen_script] on a valid configuration without [general_pipeline] *)

Lemma bind_eq {A B} (m : M A) (f : A -> M B) w a w1 :
  m w = (Ok a, w1) -> bind m f w = f a w1.
Proof. unfold bind. intros ->. reflexivity. Qed.

Lemma update_str_dict l kv : forall other w,
  heap w !! l = Some (ODict kv) ->
  exists kv',
    update_str (Ref l) other w
    = (Ok tt, World (<[l := ODict kv']> (heap w)) (files w) (trace w)).
Proof.
  intros other. revert kv. induction other as [|[k s] r IH]; intros kv w El.
  - exists kv. cbn. unfold ret. rewrite list_insert_id by exact El.
    destruct w; reflexivity.
  - cbn [update_str].
    assert (Es : setitem (Ref l) k (Atom (AStr s)) w
                 = (Ok tt, World (<[l := ODict (dict_set k (Atom (AStr s)) kv)]> (heap w))
                                 (files w) (trace w))).
    { unfold setitem, deref, bind, get_heap, store_obj, put_heap, ret.
      rewrite El. reflexivity. }
    rewrite (bind_eq _ _ _ _ _ Es).
    destruct (IH (dict_set k (Atom (AStr s)) kv)
                 (World (<[l := ODict (dict_set k (Atom (AStr s)) kv)]> (heap w))
                        (files w) (trace w))) as (kv' & E').
    { cbn [heap]. apply list_lookup_insert_eq. apply lookup_lt_Some in El. exact El. }
    exists kv'. rewrite E'. cbn [heap files trace].
    rewrite list_insert_insert_eq. reflexivity.
Qed.

Lemma deepcopy_stored_run rt d t w :
  stored (heap w) d t -> depth t <= recursion_limit rt ->
  deepcopy rt d w
  = (Ok (fst (store_at (length (heap w)) t)),
     World (heap w ++ snd (store_at (length (heap w)) t)) (files w) (trace w)).
Proof.
  intros (b & objs & Es & Hs) Hd. unfold deepcopy.
  destruct (deepcopy_stored _ t b d objs [] (heap w) Es Hs Hd) as (memo' & Ec & _).
  { intros k y0 [=]. }
  rewrite Ec. reflexivity.
Qed.

Lemma reify_stored_run rt d t w :
  stored (heap w) d t -> depth t <= recursion_limit rt ->
  reify_m rt d w = (Ok t, w).
Proof.
  intros (b & objs & Es & Hs) Hd. unfold reify_m, bind, get_heap, lift.
  rewrite (proj1 (tree_in_reify_all _) _ _ _ _ (store_tree_in _ _ _ _ _ Es Hs) _ Hd).
  reflexivity.
Qed.

Lemma bind_raise {A B} (m : M A) (f : A -> M B) w e w1 :
  m w = (Raise e, w1) -> bind m f w = (Raise e, w1).
Proof. unfold bind. intros ->. reflexivity. Qed.

Lemma lift_opt_some {A} e (o : option A) a w :
  o = Some a -> lift_opt e o w = (Ok a, w).
Proof. intros ->. reflexivity. Qed.

Lemma registry_some {A} (lookup : string -> option A) n a w :
  lookup n = Some a -> registry lookup (Atom (AStr n)) w = (Ok a, w).
Proof. intros E. unfold registry. apply lift_opt_some. exact E. Qed.

Lemma store_minimal b dn mn :
  store_at b (minimal_cfg dn mn) = (Ref b, minimal_objs b dn mn).
Proof.
  unfold minimal_cfg, minimal_objs, VStr.
  cbn [store_at store_items fst snd length app].
  replace (S b + 0 + 0 + 1) with (b + 2) by lia.
  replace (S b + 0 + 0) with (b + 1) by lia.
  reflexivity.
Qed.

Lemma alloc_minimal dn mn fs tr :
  alloc (minimal_cfg dn mn) (World [] fs tr)
  = (Ok (Ref 0), World (minimal_heap dn mn) fs tr).
Proof. reflexivity. Qed.

Section KeyError.
Variable rt : Runtime.
Variable cat : Catalog.

(** C6.  Whenever the catalog accepts the name-only descriptors of a
    dataset [dn] and a model [mn] (as the [config] command needs), has
    their registry entries, and the template is there, the document
    without [general_pipeline] validates, the schema supplying the
    default, and [gen_script] on it raises [KeyError] for
    [general_pipeline]: line 108 indexes the copy of the raw input. *)
Theorem gen_script_keyerror_without_general_pipeline
    dn mn fs tr dd md f tpl mc cn code :
  2 <= recursion_limit rt ->
  discriminated (data_variants cat) (VDict [("name", VStr dn)]) = Some dd ->
  discriminated (model_variants cat) (VDict [("name", VStr mn)]) = Some md ->
  fs !! template_path rt = Some f ->
  Template rt (file_text rt f) = Some tpl ->
  get_source_code cat mn = Some mc ->
  get_model_class_name cat mn = Some cn ->
  get_generated_code_dict cat dn data_args = Some code ->
  let d := fst (store_at 0 (minimal_cfg dn mn)) in
  let w := snd (alloc (minimal_cfg dn mn) (World [] fs tr)) in
  (exists u, validate_obj rt cat d w = (Ok u, w) /\
             general_pipeline u = NodepredPipelineCfg_default rt) /\
  fst (gen_script rt cat d w) = Raise (KeyError "general_pipeline").
Proof.
  intros Hlim Hd Hm Hf Ht Hsc Hcn Hcode d w.
  change d with (Ref 0).
  change w with (World (minimal_heap dn mn) fs tr). clear d w.
  assert (Hst : forall extra,
             stored (minimal_heap dn mn ++ extra) (Ref 0) (minimal_cfg dn mn)).
  { intros extra. exists 0, (minimal_heap dn mn). split; [reflexivity|].
    apply (segment_grow _ 0 _ extra). intros i o E. exact E. }
  pose proof (Hst []) as Hst0. rewrite app_nil_r in Hst0.
  assert (Hdepth : depth (minimal_cfg dn mn) <= recursion_limit rt)
    by (cbn; lia).
  assert (Hv : validate_obj rt cat (Ref 0) (World (minimal_heap dn mn) fs tr)
               = (Ok {| pipeline_name := "nodepred"; device := cpu; data := dd;
                        model := md;
                        general_pipeline := NodepredPipelineCfg_default rt |},
                  World (minimal_heap dn mn) fs tr)).
  { unfold validate_obj.
    rewrite (bind_eq _ _ _ _ _ (reify_stored_run rt _ (minimal_cfg dn mn)
               (World (minimal_heap dn mn) fs tr) Hst0 Hdepth)).
    unfold minimal_cfg, NodePredUserConfig_validate, field. cbn [dict_get String.eqb Ascii.eqb Bool.eqb].
    unfold str_validator, DeviceEnum_validate, VStr. cbn [String.eqb Ascii.eqb Bool.eqb].
    fold (VStr dn). fold (VStr mn). rewrite Hd, Hm. reflexivity. }
  split; [eexists; split; [exact Hv | reflexivity]|].
  assert (HL : exists w', gen_script_locals rt cat (Ref 0) (World (minimal_heap dn mn) fs tr)
                          = (Raise (KeyError "general_pipeline"), w')).
  2:{ destruct HL as (w' & HL). unfold gen_script, bind. rewrite HL. reflexivity. }
  unfold gen_script_locals.
  rewrite (bind_eq _ _ _ _ _ Hv).
  assert (Eo : forall h tr',
             open_read rt (template_path rt) (World h fs tr')
             = (Ok (file_text rt f), World h fs (tr' ++ [EvOpenRead (template_path rt)]))).
  { intros h tr'. unfold open_read. cbn [files]. rewrite Hf. reflexivity. }
  rewrite (bind_eq _ _ _ _ _ (Eo _ _)). clear Eo.
  rewrite (bind_eq _ _ _ _ _ (lift_opt_some _ _ _ _ Ht)).
  assert (Ec : forall h b fs' tr',
             (exists extra, h = minimal_heap dn mn ++ extra) -> length h = b ->
             deepcopy rt (Ref 0) (World h fs' tr')
             = (Ok (Ref b), World (h ++ minimal_objs b dn mn) fs' tr')).
  { intros h b fs' tr' (extra & ->) Hb.
    rewrite (deepcopy_stored_run rt _ (minimal_cfg dn mn)
               (World (minimal_heap dn mn ++ extra) fs' tr') (Hst extra) Hdepth).
    cbn [heap files trace]. rewrite Hb, store_minimal. reflexivity. }
  erewrite bind_eq;
    [|apply Ec; [exists []; symmetry; apply app_nil_r | reflexivity]].
  unfold minimal_heap, minimal_objs. cbn [app Nat.add].
  erewrite bind_eq; [|reflexivity].
  erewrite bind_eq; [|reflexivity].
  rewrite (bind_eq _ _ _ _ _ (registry_some _ _ _ _ Hsc)).
  erewrite bind_eq; [|reflexivity].
  erewrite bind_eq; [|reflexivity].
  erewrite bind_eq; [|reflexivity].
  rewrite (bind_eq _ _ _ _ _ (registry_some _ _ _ _ Hcn)).
  erewrite bind_eq; [|reflexivity].
  erewrite bind_eq; [|reflexivity].
  erewrite bind_eq; [|reflexivity].
  rewrite (bind_eq _ _ _ _ _
             (registry_some (fun n => get_generated_code_dict cat n data_args)
                dn code _ Hcode)).
  cbn [length heap files trace app].
  match goal with
  | |- exists w', bind (update_str _ _) _ ?W = _ =>
      destruct (update_str_dict 3 _ code W eq_refl) as (kv' & Eu)
  end.
  rewrite (bind_eq _ _ _ _ _ Eu). clear Eu.
  cbn [heap files trace]. 
  erewrite bind_eq; [|apply Ec; [eexists; reflexivity | reflexivity]].
  unfold minimal_objs. cbn [length app Nat.add].
  erewrite bind_eq; [|reflexivity].
  erewrite bind_eq; [|reflexivity].
  erewrite bind_eq; [|reflexivity].
  erewrite bind_eq; [|reflexivity].
  erewrite bind_eq; [|reflexivity].
  erewrite bind_eq; [|reflexivity].
  eexists. apply bind_raise. reflexivity.
Qed.

End KeyError.

Lemma gen_script_keyerror_without_general_pipeline_witness :
  fst (gen_script Example.rt Example.cat (Ref 0)
         (snd (alloc (minimal_cfg "cora" "gcn") Example.w0)))
  = Raise (KeyError "general_pipeline").
Proof.
  refine (proj2 (gen_script_keyerror_without_general_pipeline
                   Example.rt Example.cat "cora" "gcn"
                   (files Example.w0) [] [("name", VStr "cora")]
                   [("name", VStr "gcn"); ("hidden_size", VInt 16)]
                   (FText "# template ") "# template "
                   "class GCN: pass" "GCN"
                   [("data_initialize_code", "cora(" +:+ data_args +:+ ")")]
                   _ _ _ _ _ _ _ _)).
  - vm_compute. lia.
  - reflexivity.
  - reflexivity.
  - vm_compute. reflexivity.
  - reflexivity.
  - reflexivity.
  - reflexivity.
  - vm_compute. reflexivity.
Defined.

(** * Further properties *)

(** ** The [config] command, case by case *)

Section ConfigRun.
Variable rt : Runtime.
Variable cat : Catalog.

Lemma NodepredPipelineCfg_default_validates :
  model_validator (NodepredPipelineCfg_validate rt)
    (NodepredPipelineCfg_dict (NodepredPipelineCfg_default rt))
  = Some (NodepredPipelineCfg_default rt).
Proof. reflexivity. Qed.

Lemma config_run data cfg model device w :
  config rt cat data cfg model device w
  = match NodePredUserConfig_validate rt cat (generated_cfg rt data model device) with
    | None => (Raise ValidationError, w)
    | Some user =>
        match get_constructor_doc_dict cat (member_value model) with
        | None => (Raise (KeyError (member_value model)), w)
        | Some docs =>
            if writable rt cfg then
              (Ok tt,
               World (heap w)
                 (<[cfg := FYaml (merge_comment
                                    (deep_convert_dict (VDict (NodePredUserConfig_dict user)))
                                    (config_comments docs))]> (files w))
                 (trace w ++ [EvOpenWrite cfg; EvWrite cfg;
                              EvPrint (config_message rt cfg)]))
            else (Raise (PermissionError cfg), w)
        end
    end.
Proof.
  unfold config, bind.
  destruct (NodePredUserConfig_validate rt cat _) as [user|]; [|reflexivity].
  cbn [lift_opt ret raise].
  destruct (get_constructor_doc_dict cat _) as [docs|]; [|reflexivity].
  cbn [lift_opt ret raise]. unfold open_write.
  destruct (writable rt cfg); [|reflexivity].
  unfold yaml_dump, print, log. cbn [heap files trace].
  rewrite insert_insert_eq, <- !app_assoc. reflexivity.
Qed.


(** X2.  A run of [config] that returns has opened the output path for
    writing, dumped one YAML document there and then printed the line
    with the absolute path, in this order and nothing else; every other
    file and the heap are as before. *)
Theorem config_success_effects data cfg model device w u w' :
  config rt cat data cfg model device w = (Ok u, w') ->
  writable rt cfg = true /\
  heap w' = heap w /\
  (exists doc, files w' !! cfg = Some (FYaml doc)) /\
  (forall p, p <> cfg -> files w' !! p = files w !! p) /\
  trace w' = trace w ++ [EvOpenWrite cfg; EvWrite cfg;
                         EvPrint (config_message rt cfg)].
Proof.
  rewrite config_run.
  destruct (NodePredUserConfig_validate rt cat _) as [user|]; [|discriminate].
  destruct (get_constructor_doc_dict cat _) as [docs|]; [|discriminate].
  destruct (writable rt cfg) eqn:Ew; [|discriminate].
  intros [= <- <-]. cbn [heap files trace]. repeat split.
  - eexists. apply lookup_insert_eq.
  - intros p Hp. apply lookup_insert_ne. congruence.
Qed.

(** X3.  The draft that [config] assembles (lines 63-69) validates
    exactly when the schema accepts the dataset descriptor made of the
    enumeration member's name alone and the model descriptor made of the
    member's value alone; the validated configuration then has the
    pipeline name [nodepred], the chosen device, and the defaults of
    [NodepredPipelineCfg]. *)
Theorem config_draft_validates data model device :
  NodePredUserConfig_validate rt cat (generated_cfg rt data model device)
  = match discriminated (data_variants cat) (data_draft data),
          discriminated (model_variants cat) (model_draft model) with
    | Some dd, Some md =>
        Some {| pipeline_name := "nodepred"; device := device;
                data := dd; model := md;
                general_pipeline := NodepredPipelineCfg_default rt |}
    | _, _ => None
    end.
Proof.
  unfold NodePredUserConfig_validate, generated_cfg, field.
  cbn [dict_get String.eqb Ascii.eqb Bool.eqb].
  fold (data_draft data). fold (model_draft model).
  cbn [str_validator VStr DeviceEnum_validate].
  destruct (discriminated (data_variants cat) (data_draft data)) as [dd|];
    [|reflexivity].
  destruct (discriminated (model_variants cat) (model_draft model)) as [md|];
    [|reflexivity].
  rewrite NodepredPipelineCfg_default_validates. reflexivity.
Qed.

(** X4.  Round trip of the pipeline settings: the dictionary form of any
    [NodepredPipelineCfg] validates, and gives back the same settings. *)
Theorem NodepredPipelineCfg_dict_validates c :
  model_validator (NodepredPipelineCfg_validate rt) (NodepredPipelineCfg_dict c)
  = Some c.
Proof.
  destruct c as [[nes|] [[p cp]|] ne ep opt ls]; reflexivity.
Qed.

(** X5.  [config] returns: when the schema accepts the two name-only
    descriptors of the draft, the model has constructor documentation
    and the output path can be opened for writing, [config] returns,
    having put one YAML document at the path (replacing what was there)
    and printed the line with the absolute path; the heap is as before. *)
Theorem config_returns data cfg model device w dd md docs :
  discriminated (data_variants cat) (data_draft data) = Some dd ->
  discriminated (model_variants cat) (model_draft model) = Some md ->
  get_constructor_doc_dict cat (member_value model) = Some docs ->
  writable rt cfg = true ->
  exists doc,
    config rt cat data cfg model device w
    = (Ok tt,
       World (heap w) (<[cfg := FYaml doc]> (files w))
         (trace w ++ [EvOpenWrite cfg; EvWrite cfg;
                      EvPrint (config_message rt cfg)])).
Proof.
  intros Hd Hm Hdocs Hw. rewrite config_run.
  unfold NodePredUserConfig_validate, generated_cfg, field.
  cbn [dict_get String.eqb Ascii.eqb Bool.eqb].
  fold (data_draft data). fold (model_draft model).
  cbn [str_validator VStr DeviceEnum_validate].
  rewrite Hd, Hm, NodepredPipelineCfg_default_validates, Hdocs, Hw.
  eexists. reflexivity.
Qed.

End ConfigRun.

Lemma config_returns_witness :
  exists doc,
    config Example.rt Example.cat Example.cora "cfg.yml" Example.gcn cpu Example.w0
    = (Ok tt,
       World [] (<["cfg.yml" := FYaml doc]> (files Example.w0))
         [EvOpenWrite "cfg.yml"; EvWrite "cfg.yml";
          EvPrint (config_message Example.rt "cfg.yml")]).
Proof.
  apply (config_returns Example.rt Example.cat Example.cora "cfg.yml" Example.gcn cpu
           Example.w0 [("name", VStr "cora")]
           [("name", VStr "gcn"); ("hidden_size", VInt 16)]
           [("hidden_size", CmStr "Hidden size.")]);
    reflexivity.
Defined.


Lemma config_success_effects_witness :
  trace (snd (config Example.rt Example.cat Example.cora "cfg.yml" Example.gcn cpu
                Example.w0))
  = [EvOpenWrite "cfg.yml"; EvWrite "cfg.yml";
     EvPrint "Configuration file is generated at /cfg.yml"].
Proof.
  refine (proj2 (proj2 (proj2 (proj2
    (config_success_effects Example.rt Example.cat Example.cora "cfg.yml"
       Example.gcn cpu Example.w0 tt
       (snd (config Example.rt Example.cat Example.cora "cfg.yml" Example.gcn cpu
               Example.w0)) _))))).
  vm_compute. reflexivity.
Defined.

(** ** What validation requires *)

Section Validation.
Variable rt : Runtime.
Variable cat : Catalog.

Lemma discriminated_registered variants v dd :
  discriminated variants v = Some dd -> registered variants v.
Proof.
  unfold discriminated, registered. destruct v as [a|xs|kw]; try discriminate.
  destruct (dict_get "name" kw) as [[[| | | |n|]| |]|] eqn:En; try discriminate.
  destruct (dict_get n variants) as [validate|] eqn:Ev; [|discriminate].
  intros _. exists kw, n, validate. auto.
Qed.

Lemma NodePredUserConfig_validate_some kw u :
  NodePredUserConfig_validate rt cat kw = Some u ->
  exists dv mv,
    dict_get "data" kw = Some dv /\
    discriminated (data_variants cat) dv = Some (data u) /\
    dict_get "model" kw = Some mv /\
    discriminated (model_variants cat) mv = Some (model u) /\
    field kw "general_pipeline" (model_validator (NodepredPipelineCfg_validate rt))
      (Some (NodepredPipelineCfg_default rt)) = Some (general_pipeline u).
Proof.
  unfold NodePredUserConfig_validate. intros H.
  destruct (field kw "pipeline_name" _ _) as [pn|]; [|discriminate].
  destruct (field kw "device" _ _) as [dev|]; [|discriminate].
  destruct (field kw "data" _ _) as [dd|] eqn:Ed; [|discriminate].
  destruct (field kw "model" _ _) as [md|] eqn:Em; [|discriminate].
  destruct (field kw "general_pipeline" _ _) as [gp|] eqn:Eg; [|discriminate].
  inversion H; subst; cbn [data model general_pipeline].
  unfold field in Ed, Em.
  destruct (dict_get "data" kw) as [dv|]; [|discriminate].
  destruct (dict_get "model" kw) as [mv|]; [|discriminate].
  exists dv, mv. auto.
Qed.

(** X6.  In a mapping that validates as [NodePredUserConfig], [data] and
    [model] are present, each a mapping whose [name] is a string naming a
    registered sub-schema (lines 44-45); [general_pipeline] may be
    absent, and is then the default [NodepredPipelineCfg()] (line 46). *)
Theorem validated_descriptors_registered kw u :
  NodePredUserConfig_validate rt cat kw = Some u ->
  (exists dv, dict_get "data" kw = Some dv /\ registered (data_variants cat) dv) /\
  (exists mv, dict_get "model" kw = Some mv /\ registered (model_variants cat) mv) /\
  (dict_get "general_pipeline" kw = None ->
   general_pipeline u = NodepredPipelineCfg_default rt).
Proof.
  intros H. destruct (NodePredUserConfig_validate_some _ _ H)
    as (dv & mv & Ed & Hd & Em & Hm & Hg).
  split; [|split].
  - exists dv. split; [exact Ed|]. eapply discriminated_registered, Hd.
  - exists mv. split; [exact Em|]. eapply discriminated_registered, Hm.
  - intros Ha. unfold field in Hg. rewrite Ha in Hg. congruence.
Qed.

Lemma validate_obj_none d w kw :
  reify (recursion_limit rt) (heap w) d = Ok (VDict kw) ->
  NodePredUserConfig_validate rt cat kw = None ->
  gen_script rt cat d w = (Raise ValidationError, w).
Proof.
  intros Er Hv. unfold gen_script, gen_script_locals.
  apply bind_raise, bind_raise.
  unfold validate_obj, reify_m, bind, get_heap, lift. rewrite Er, Hv. reflexivity.
Qed.

Lemma not_validated_without kw k :
  k = "data" \/ k = "model" -> 
  match dict_get k kw with
  | Some v =>
      discriminated (if String.eqb k "data" then data_variants cat
                     else model_variants cat) v = None
  | None => True
  end ->
  NodePredUserConfig_validate rt cat kw = None.
Proof.
  intros Hk Hn. destruct (NodePredUserConfig_validate rt cat kw) as [u|] eqn:E;
    [|reflexivity].
  destruct (NodePredUserConfig_validate_some _ _ E)
    as (dv & mv & Ed & Hd & Em & Hm & _).
  destruct Hk as [-> | ->]; cbn [String.eqb Ascii.eqb Bool.eqb] in Hn.
  - rewrite Ed in Hn. congruence.
  - rewrite Em in Hn. congruence.
Qed.

(** X7.  On a dictionary without the key [data] or without the key
    [model], [gen_script] raises the validation error of line 88 and the
    world is as before: the template has not been opened and nothing has
    been copied. *)
Theorem gen_script_rejects_missing_descriptor d w kw :
  reify (recursion_limit rt) (heap w) d = Ok (VDict kw) ->
  dict_get "data" kw = None \/ dict_get "model" kw = None ->
  gen_script rt cat d w = (Raise ValidationError, w).
Proof.
  intros Er Hm. apply (validate_obj_none _ _ _ Er).
  destruct Hm as [Hm|Hm].
  - apply (not_validated_without kw "data"); [auto|]. rewrite Hm. exact I.
  - apply (not_validated_without kw "model"); [auto|]. rewrite Hm. exact I.
Qed.

Lemma discriminated_unknown {variants} kw n :
  dict_get "name" kw = Some (VStr n) -> dict_get n variants = None ->
  discriminated variants (VDict kw) = None.
Proof. unfold discriminated, VStr. intros -> ->. reflexivity. Qed.

(** X8.  On a dictionary whose dataset or model descriptor names no
    registered sub-schema, [gen_script] raises the validation error of
    line 88 and the world is as before, whatever the registries of
    source code hold for that name: the lookups of lines 94-99 are not
    reached. *)
Theorem gen_script_rejects_unregistered_name d w kw key dkw n :
  reify (recursion_limit rt) (heap w) d = Ok (VDict kw) ->
  dict_get key kw = Some (VDict dkw) ->
  dict_get "name" dkw = Some (VStr n) ->
  key = "data" /\ dict_get n (data_variants cat) = None \/
  key = "model" /\ dict_get n (model_variants cat) = None ->
  gen_script rt cat d w = (Raise ValidationError, w).
Proof.
  intros Er Ek En Hu. apply (validate_obj_none _ _ _ Er).
  destruct Hu as [[-> Hu]|[-> Hu]].
  - apply (not_validated_without kw "data"); [auto|]. rewrite Ek.
    cbn [String.eqb Ascii.eqb Bool.eqb]. exact (discriminated_unknown _ _ En Hu).
  - apply (not_validated_without kw "model"); [auto|]. rewrite Ek.
    cbn [String.eqb Ascii.eqb Bool.eqb]. exact (discriminated_unknown _ _ En Hu).
Qed.

(** X9.  When the configuration validates and there is no file at the
    template's path, [gen_script] raises [FileNotFoundError] for that
    path (line 90) and the world is as before. *)
Theorem gen_script_missing_template d w u w1 :
  validate_obj rt cat d w = (Ok u, w1) ->
  files w !! template_path rt = None ->
  gen_script rt cat d w = (Raise (FileNotFoundError (template_path rt)), w).
Proof.
  intros Ev Hf. pose proof (pure_validate_obj _ _ _ _ _ _ Ev). subst w1.
  unfold gen_script, gen_script_locals.
  apply bind_raise. rewrite (bind_eq _ _ _ _ _ Ev).
  apply bind_raise. unfold open_read. rewrite Hf. reflexivity.
Qed.

End Validation.

Lemma validated_descriptors_registered_witness :
  (exists dv, dict_get "data" [("pipeline_name", VStr "nodepred"); ("device", VStr "cpu");
                               ("data", VDict [("name", VStr "cora")]);
                               ("model", VDict [("name", VStr "gcn")])] = Some dv /\
              registered (data_variants Example.cat) dv) /\
  (exists mv, dict_get "model" [("pipeline_name", VStr "nodepred"); ("device", VStr "cpu");
                                ("data", VDict [("name", VStr "cora")]);
                                ("model", VDict [("name", VStr "gcn")])] = Some mv /\
              registered (model_variants Example.cat) mv) /\
  (dict_get "general_pipeline"
     [("pipeline_name", VStr "nodepred"); ("device", VStr "cpu");
      ("data", VDict [("name", VStr "cora")]);
      ("model", VDict [("name", VStr "gcn")])] = None ->
   NodepredPipelineCfg_default Example.rt = NodepredPipelineCfg_default Example.rt).
Proof.
  apply (validated_descriptors_registered Example.rt Example.cat
           [("pipeline_name", VStr "nodepred"); ("device", VStr "cpu");
            ("data", VDict [("name", VStr "cora")]);
            ("model", VDict [("name", VStr "gcn")])]
           {| pipeline_name := "nodepred"; device := cpu;
              data := [("name", VStr "cora")];
              model := [("name", VStr "gcn"); ("hidden_size", VInt 16)];
              general_pipeline := NodepredPipelineCfg_default Example.rt |}).
  reflexivity.
Defined.

Lemma gen_script_rejects_missing_descriptor_witness :
  gen_script Example.rt Example.cat (Ref 0)
    (snd (alloc (VDict [("pipeline_name", VStr "nodepred"); ("device", VStr "cpu");
                        ("model", VDict [("name", VStr "gcn")])]) Example.w0))
  = (Raise ValidationError,
     snd (alloc (VDict [("pipeline_name", VStr "nodepred"); ("device", VStr "cpu");
                        ("model", VDict [("name", VStr "gcn")])]) Example.w0)).
Proof.
  apply (gen_script_rejects_missing_descriptor Example.rt Example.cat (Ref 0) _
           [("pipeline_name", VStr "nodepred"); ("device", VStr "cpu");
            ("model", VDict [("name", VStr "gcn")])]).
  - reflexivity.
  - left. reflexivity.
Defined.

Lemma gen_script_rejects_unregistered_name_witness :
  gen_script Example.rt Example.cat (Ref 0)
    (snd (alloc (minimal_cfg "pubmed" "gcn") Example.w0))
  = (Raise ValidationError, snd (alloc (minimal_cfg "pubmed" "gcn") Example.w0)).
Proof.
  apply (gen_script_rejects_unregistered_name Example.rt Example.cat (Ref 0) _
           [("pipeline_name", VStr "nodepred"); ("device", VStr "cpu");
            ("data", VDict [("name", VStr "pubmed")]);
            ("model", VDict [("name", VStr "gcn")])]
           "data" [("name", VStr "pubmed")] "pubmed").
  - reflexivity.
  - reflexivity.
  - reflexivity.
  - left. split; reflexivity.
Defined.

Lemma gen_script_missing_template_witness :
  gen_script Example.rt Example.cat (Ref 0) (World (heap Example.w1) empty [])
  = (Raise (FileNotFoundError "nodepred.jinja-py"), World (heap Example.w1) empty []).
Proof.
  refine (gen_script_missing_template Example.rt Example.cat (Ref 0)
            (World (heap Example.w1) empty []) _ _ _ _).
  - vm_compute. reflexivity.
  - reflexivity.
Defined.

(** ** Reading a stored tree through the heap *)

Lemma registry_ok_inv {A} (lookup : string -> option A) n w a w' :
  registry lookup n w = (Ok a, w') ->
  w' = w /\ exists s, n = Atom (AStr s) /\ lookup s = Some a.
Proof.
  intros E. split; [exact (pure_registry _ _ _ _ _ E)|].
  destruct n as [[]|l]; try discriminate E. cbn [registry] in E.
  exists s. split; [reflexivity|].
  unfold lift_opt in E. destruct (lookup s); inversion E; reflexivity.
Qed.

Lemma tree_in_atom_inv h a x lo hi : tree_in h (Atom a) x lo hi -> x = VAtom a.
Proof. intros H. inversion H; reflexivity. Qed.

Lemma value_at_cons k p x xk :
  value_at [k] x = Some xk -> value_at (k :: p) x = value_at p xk.
Proof.
  destruct x as [a|xs|kvs]; cbn; try discriminate.
  destruct (dict_get k kvs); [intros [= ->]; reflexivity | discriminate].
Qed.

Lemma tree_getitem v x a b k w c w1 :
  tree_in (heap w) v x a b -> getitem v k w = (Ok c, w1) ->
  w1 = w /\
  exists xk a' b', value_at [k] x = Some xk /\ tree_in (heap w) c xk a' b'.
Proof.
  intros Ht E. destruct (getitem_ok_inv _ _ _ _ _ E) as (-> & l & ys & -> & El & Ek).
  split; [reflexivity|].
  destruct (tree_in_dict_inv _ _ _ _ _ _ Ht El) as (kd & -> & Hi).
  destruct (items_in_focus _ _ _ _ _ _ _ Hi Ek)
    as (xk & a' & b' & Exk & _ & _ & Hxk & _).
  exists xk, a', b'. cbn. rewrite Exk. auto.
Qed.

(** A name looked up under two keys of a stored configuration, as
    [user_cfg_dict["model"]["name"]], and given to a registry. *)
Lemma tree_lookup_name {A} (lookup : string -> option A) v x a b k w c1 w1 c2 w2 r w3 :
  tree_in (heap w) v x a b ->
  getitem v k w = (Ok c1, w1) -> getitem c1 "name" w1 = (Ok c2, w2) ->
  registry lookup c2 w2 = (Ok r, w3) ->
  w3 = w /\ exists n, value_at [k; "name"] x = Some (VStr n) /\ lookup n = Some r.
Proof.
  intros Ht E1 E2 E3.
  destruct (tree_getitem _ _ _ _ _ _ _ _ Ht E1) as (-> & x1 & a1 & b1 & Ex1 & Ht1).
  destruct (tree_getitem _ _ _ _ _ _ _ _ Ht1 E2) as (-> & x2 & a2 & b2 & Ex2 & Ht2).
  destruct (registry_ok_inv _ _ _ _ _ E3) as (-> & s & -> & Es).
  split; [reflexivity|]. exists s.
  rewrite (value_at_cons _ _ _ _ Ex1), Ex2.
  rewrite (tree_in_atom_inv _ _ _ _ _ Ht2). auto.
Qed.

(** A successful [pop] at the end of a path: the key was there. *)
Lemma tree_pop_key k path :
  forall v x a b w c r w',
    tree_in (heap w) v x a b ->
    getpath path v w = (Ok c, w) ->
    pop c k w = (Ok r, w') ->
    is_Some (value_at (path ++ [k]) x).
Proof.
  induction path as [|k1 rest IH]; intros v x a b w c r w' Ht Eg Ep.
  - inversion Eg; subst. clear Eg.
    destruct (pop_ok_inv _ _ _ _ _ Ep) as (l & ys & -> & El & Ek & _).
    destruct (tree_in_dict_inv _ _ _ _ _ _ Ht El) as (kd & -> & Hi).
    destruct (items_in_focus _ _ _ _ _ _ _ Hi Ek) as (xk & _ & _ & Exk & _).
    cbn. rewrite Exk. eauto.
  - cbn [getpath] in Eg. apply bind_ok in Eg as (c1 & w1 & E1 & E2).
    destruct (tree_getitem _ _ _ _ _ _ _ _ Ht E1) as (-> & x1 & a1 & b1 & Ex1 & Ht1).
    cbn [app]. rewrite (value_at_cons _ _ _ _ Ex1).
    exact (IH _ _ _ _ _ _ _ _ Ht1 E2 Ep).
Qed.

Lemma value_at_reduce_data k p t :
  k <> "data" -> value_at (k :: p) (reduce_data t) = value_at (k :: p) t.
Proof.
  intros Hne. unfold reduce_data.
  destruct (value_at ["data"] t) as [d|]; [|reflexivity].
  destruct (len_value d) as [[|[|n]]|];
    first [apply value_at_del_under; exact Hne | apply value_at_del_top; exact Hne].
Qed.

(** ** The items of [render_cfg] *)

Lemma update_str_content l other : forall w r w' ys,
  update_str (Ref l) other w = (Ok r, w') ->
  heap w !! l = Some (ODict ys) ->
  heap w' !! l
  = Some (ODict (fold_left (fun acc kv => dict_set (fst kv) (Atom (AStr (snd kv))) acc)
                   other ys)).
Proof.
  induction other as [|[k s] rest IH]; intros w r w' ys E El; cbn [update_str] in E.
  - inversion E; subst. exact El.
  - apply bind_ok in E as (u & w1 & E1 & E2).
    destruct (setitem_only_at _ _ _ _ _ _ E1) as (_ & _ & _ & ys' & El' & El1).
    rewrite El in El'. inversion El'; subst ys'.
    cbn [fold_left fst snd]. exact (IH _ _ _ _ E2 El1).
Qed.

Lemma reify_atom fuel h a : reify fuel h (Atom a) = Ok (VAtom a).
Proof. destruct fuel; reflexivity. Qed.

Lemma mapM_items_set {A B} (f : A -> outcome B) k v x :
  forall ys c,
    mapM_items f ys = Ok c -> f v = Ok x ->
    mapM_items f (dict_set k v ys) = Ok (dict_set k x c).
Proof.
  induction ys as [|[k0 y0] r IH]; intros c E Ev.
  - inversion E; subst. cbn. rewrite Ev. reflexivity.
  - cbn [mapM_items] in E. destruct (f y0) as [x0|] eqn:E0; [|discriminate].
    destruct (mapM_items f r) as [c'|] eqn:Er; [|discriminate].
    inversion E; subst. cbn [dict_set].
    destruct (String.eqb k0 k); cbn [mapM_items].
    + rewrite Ev, Er. reflexivity.
    + rewrite E0, (IH _ eq_refl Ev). reflexivity.
Qed.

Lemma mapM_items_update_str fuel h code :
  forall ys c,
    mapM_items (reify fuel h) ys = Ok c ->
    mapM_items (reify fuel h)
      (fold_left (fun acc kv => dict_set (fst kv) (Atom (AStr (snd kv))) acc) code ys)
    = Ok (dict_update c (map (fun kv => (fst kv, VStr (snd kv))) code)).
Proof.
  unfold dict_update.
  induction code as [|[k s] rest IH]; intros ys c E; cbn [fold_left map fst snd].
  - exact E.
  - apply IH. apply mapM_items_set; [exact E | apply reify_atom].
Qed.

(** ** Running the object operations on a stored tree *)

Lemma getitem_run l ys k v w :
  heap w !! l = Some (ODict ys) -> dict_get k ys = Some v ->
  getitem (Ref l) k w = (Ok v, w).
Proof.
  intros El Ek. unfold getitem, deref, bind, get_heap, ret. rewrite El.
  cbn [snd lift_opt]. rewrite Ek. reflexivity.
Qed.

Lemma setitem_run l ys k v w :
  heap w !! l = Some (ODict ys) ->
  setitem (Ref l) k v w
  = (Ok tt, World (<[l := ODict (dict_set k v ys)]> (heap w)) (files w) (trace w)).
Proof.
  intros El. unfold setitem, deref, bind, get_heap, store_obj, put_heap, ret.
  rewrite El. reflexivity.
Qed.

Lemma pop_run l ys k v w :
  heap w !! l = Some (ODict ys) -> dict_get k ys = Some v ->
  pop (Ref l) k w
  = (Ok v, World (<[l := ODict (dict_del k ys)]> (heap w)) (files w) (trace w)).
Proof.
  intros El Ek. unfold pop, deref, bind, get_heap, store_obj, put_heap, ret.
  rewrite El. cbn [snd fst]. rewrite Ek. reflexivity.
Qed.

Lemma items_in_get h ys kvs lo hi k x :
  items_in h ys kvs lo hi -> dict_get k kvs = Some x ->
  exists y, dict_get k ys = Some y.
Proof.
  induction 1 as [|k0 y0 x0 ys kvs lo mid hi Ht Hi IH]; cbn; [discriminate|].
  destruct (String.eqb k0 k); [eauto | exact IH].
Qed.

Lemma tree_in_VDict_inv h v kd a b :
  tree_in h v (VDict kd) a b ->
  exists l ys, v = Ref l /\ h !! l = Some (ODict ys) /\ items_in h ys kd (S l) b.
Proof. intros H. inversion H; subst. eauto. Qed.

Lemma tree_in_VAtom_inv h v a lo hi : tree_in h v (VAtom a) lo hi -> v = Atom a.
Proof. intros H. inversion H; reflexivity. Qed.

Lemma value_at_one_inv k x xk :
  value_at [k] x = Some xk -> exists kd, x = VDict kd /\ dict_get k kd = Some xk.
Proof.
  destruct x as [a|xs|kd]; cbn; try discriminate.
  destruct (dict_get k kd) as [x'|] eqn:E; [|discriminate]. intros [= ->]. eauto.
Qed.

Lemma tree_getitem_fwd v x a b k xk w :
  tree_in (heap w) v x a b -> value_at [k] x = Some xk ->
  exists c a' b', getitem v k w = (Ok c, w) /\ tree_in (heap w) c xk a' b'.
Proof.
  intros Ht Ev. apply value_at_one_inv in Ev as (kd & -> & Ek).
  destruct (tree_in_VDict_inv _ _ _ _ _ Ht) as (l & ys & -> & El & Hi).
  destruct (items_in_get _ _ _ _ _ _ _ Hi Ek) as (y & Ey).
  pose proof (getitem_run _ _ _ _ _ El Ey) as Eg.
  destruct (tree_getitem _ _ _ _ _ _ _ _ Ht Eg) as (_ & xk' & a' & b' & Ex & Ht').
  cbn in Ex. rewrite Ek in Ex. inversion Ex; subst xk'. eauto.
Qed.

Lemma tree_pop_fwd c x a b k w :
  tree_in (heap w) c x a b -> is_Some (value_at [k] x) ->
  exists r w', pop c k w = (Ok r, w').
Proof.
  intros Ht [xk Ev]. apply value_at_one_inv in Ev as (kd & -> & Ek).
  destruct (tree_in_VDict_inv _ _ _ _ _ Ht) as (l & ys & -> & El & Hi).
  destruct (items_in_get _ _ _ _ _ _ _ Hi Ek) as (y & Ey).
  rewrite (pop_run _ _ _ _ _ El Ey). eauto.
Qed.

Lemma tree_py_len_fwd c x a b w n :
  tree_in (heap w) c x a b -> len_value x = Some n -> py_len c w = (Ok n, w).
Proof.
  intros Ht.
  inversion Ht as [a0 lo hi Hb|l ys xs lo hi Hlo Hlk Hin|l ys kvs lo hi Hlo Hlk Hin];
    subst; cbn [len_value py_len].
  - destruct a0; try discriminate. intros [= <-]. reflexivity.
  - intros [= <-]. unfold deref, bind, get_heap, ret. rewrite Hlk. cbn [snd].
    erewrite list_in_length by eassumption. reflexivity.
  - intros [= <-]. unfold deref, bind, get_heap, ret. rewrite Hlk. cbn [snd].
    erewrite items_in_length by eassumption. reflexivity.
Qed.

Lemma value_at_split k p x :
  is_Some (value_at (k :: p) x) ->
  exists xk, value_at [k] x = Some xk /\ is_Some (value_at p xk).
Proof.
  destruct x as [a|xs|kd]; cbn;
    [intros [? [=]] | intros [? [=]] |].
  destruct (dict_get k kd) as [xk|]; [eauto | intros [? [=]]].
Qed.

(** ** The depth of a reduced configuration *)

Lemma depth_items_del k (kvs : list (string * value)) :
  list_max (map (fun '(k, x) => depth x) (dict_del k kvs))
  <= list_max (map (fun '(k, x) => depth x) kvs).
Proof.
  induction kvs as [|[k0 x0] r IH]; [reflexivity|].
  rewrite dict_del_cons. destruct (String.eqb k0 k); cbn [map list_max fold_right];
    change (fold_right Init.Nat.max 0) with list_max; lia.
Qed.

Lemma depth_items_alter k f (kvs : list (string * value)) :
  (forall x, depth (f x) <= depth x) ->
  list_max (map (fun '(k, x) => depth x) (alter_first k f kvs))
  <= list_max (map (fun '(k, x) => depth x) kvs).
Proof.
  intros Hf. induction kvs as [|[k0 x0] r IH]; [reflexivity|].
  cbn [alter_first]. destruct (String.eqb k0 k); cbn [map list_max fold_right];
    change (fold_right Init.Nat.max 0) with list_max.
  - specialize (Hf x0). lia.
  - lia.
Qed.

Lemma depth_del_path path k : forall t, depth (del_path path k t) <= depth t.
Proof.
  induction path as [|k1 rest IH]; intros [a|xs|kvs]; cbn [del_path del_key alter_key];
    try reflexivity; cbn [depth].
  - pose proof (depth_items_del k kvs). lia.
  - pose proof (depth_items_alter k1 (del_path rest k) kvs IH). lia.
Qed.

Lemma depth_reduced_code t : depth (reduced_code t) <= depth t.
Proof.
  unfold reduced_code.
  etransitivity; [apply depth_del_path|].
  etransitivity; [apply depth_del_path|].
  etransitivity; [apply depth_del_path|].
  unfold reduce_data. destruct (value_at ["data"] t) as [d|]; [|reflexivity].
  destruct (len_value d) as [[|[|n]]|]; apply depth_del_path.
Qed.

Lemma depth_dict_get k (kvs : list (string * value)) x :
  dict_get k kvs = Some x ->
  depth x <= list_max (map (fun '(k, x) => depth x) kvs).
Proof.
  induction kvs as [|[k0 x0] r IH]; cbn [dict_get]; [discriminate|].
  cbn [map list_max fold_right]. change (fold_right Init.Nat.max 0) with list_max.
  destruct (String.eqb k0 k); [intros [= ->]; lia | intros E; specialize (IH E); lia].
Qed.

(** ** An item of a stored dictionary is stored *)

Lemma store_items_get k xk :
  forall kw b,
    dict_get k kw = Some xk ->
    exists b',
      dict_get k (fst (store_items store_at b kw)) = Some (fst (store_at b' xk)) /\
      forall h, segment h b (snd (store_items store_at b kw)) ->
                segment h b' (snd (store_at b' xk)).
Proof.
  induction kw as [|[k0 x0] r IH]; intros b E; [discriminate|].
  rewrite store_items_cons. cbn [dict_get] in E.
  destruct (store_at b x0) as [y o1] eqn:Ex.
  destruct (store_items store_at (b + length o1) r) as [ys o2] eqn:Er.
  cbn [fst snd dict_get].
  destruct (String.eqb k0 k).
  - inversion E; subst x0. exists b. rewrite Ex. cbn [fst snd].
    split; [reflexivity|]. intros h Hs. apply segment_app_inv in Hs. apply Hs.
  - destruct (IH (b + length o1) E) as (b' & Eg & Hseg). rewrite Er in Eg, Hseg.
    cbn [fst snd] in Eg, Hseg. exists b'. split; [exact Eg|].
    intros h Hs. apply segment_app_inv in Hs. apply Hseg, Hs.
Qed.

Lemma stored_getitem h d kw k xk w :
  heap w = h -> stored h d (VDict kw) -> dict_get k kw = Some xk ->
  exists c, getitem d k w = (Ok c, w) /\ stored h c xk.
Proof.
  intros <- (b & objs & Es & Hs) Ek.
  rewrite store_at_dict in Es. inversion Es; subst d objs. clear Es.
  apply segment_cons_inv in Hs as [Hb Hs].
  destruct (store_items_get k xk kw (S b) Ek) as (b' & Eg & Hseg).
  exists (fst (store_at b' xk)). split; [exact (getitem_run _ _ _ _ _ Hb Eg)|].
  exists b', (snd (store_at b' xk)). split; [apply surjective_pairing | apply Hseg, Hs].
Qed.

(** ** The run of [gen_script] on a stored configuration *)

Section Run.
Variable rt : Runtime.
Variable cat : Catalog.

Lemma open_read_ok_inv path w src w1 :
  open_read rt path w = (Ok src, w1) ->
  heap w1 = heap w /\
  exists f, files w !! path = Some f /\ src = file_text rt f.
Proof.
  unfold open_read. destruct (files w !! path) as [f|]; [|discriminate].
  intros [= <- <-]. eauto.
Qed.

Lemma gen_script_locals_run d kw w vars w' :
  stored (heap w) d (VDict kw) ->
  gen_script_locals rt cat d w = (Ok vars, w') ->
  exists f mn dn mc cn code,
    files w !! template_path rt = Some f /\
    Template rt (file_text rt f) = Some (template rt vars) /\
    value_at ["model"; "name"] (VDict kw) = Some (VStr mn) /\
    value_at ["data"; "name"] (VDict kw) = Some (VStr dn) /\
    get_source_code cat mn = Some mc /\
    get_model_class_name cat mn = Some cn /\
    get_generated_code_dict cat dn data_args = Some code /\
    is_Some (value_at ["pipeline_name"] (VDict kw)) /\
    is_Some (value_at ["general_pipeline"; "optimizer"; "name"] (VDict kw)) /\
    (forall ctx,
       reify (recursion_limit rt) (heap w') (render_cfg rt vars) = Ok (VDict ctx) ->
       ctx = render_context rt kw mc cn code) /\
    (depth (VDict kw) < recursion_limit rt ->
     reify (recursion_limit rt) (heap w') (render_cfg rt vars)
     = Ok (VDict (render_context rt kw mc cn code))) /\
    exists gp,
      value_at ["general_pipeline"] (VDict kw) = Some gp /\
      reify (recursion_limit rt) (heap w') (generated_train_cfg rt vars)
      = Ok (del_path ["optimizer"] "name" gp).
Proof.
  intros Hst E. unfold gen_script_locals in E.
  (* validation *)
  apply bind_ok in E as (u & w1 & Ev & E).
  pose proof (pure_validate_obj _ _ _ _ _ _ Ev). subst w1.
  assert (Hin : exists b objs, store_at b (VDict kw) = (d, objs) /\
                               segment (heap w) b objs) by exact Hst.
  destruct Hin as (b & objs & Es & Hs).
  pose proof (store_tree_in _ _ _ _ _ Es Hs) as Ht0.
  unfold validate_obj, reify_m in Ev.
  apply bind_ok in Ev as (t0 & w1 & Er & Ev).
  apply bind_ok in Er as (h0 & w2 & Eh & Er).
  inversion Eh; subst h0 w2. clear Eh.
  inversion Er as [[Er' Ew]]. subst w1. clear Er.
  destruct (proj1 (reify_depth_all _) _ _ _ _ Ht0 _ _ Er') as [Hd ->].
  clear Ev Er'.
  assert (Hb : b + length objs <= length (heap w)).
  { apply segment_bound; [exact Hs|]. rewrite store_at_dict in Es.
    inversion Es; discriminate. }
  set (b1 := length (heap w)) in *.
  (* the template *)
  apply bind_ok in E as (src & w1 & Eo & E).
  destruct (open_read_ok_inv _ _ _ _ Eo) as (Hw1 & f & Ef & ->). clear Eo.
  apply bind_ok in E as (tpl & w1' & Etp & E).
  pose proof (pure_lift_opt _ _ _ _ _ Etp). subst w1'.
  assert (Htpl : Template rt (file_text rt f) = Some tpl).
  { unfold lift_opt in Etp. destruct (Template rt (file_text rt f));
      inversion Etp; reflexivity. }
  clear Etp.
  (* render_cfg *)
  apply bind_ok in E as (rc & w2 & Ec1 & E).
  assert (Hst1 : stored (heap w1) d (VDict kw)) by (rewrite Hw1; exact Hst).
  destruct (deepcopy_stored_m _ _ _ _ _ _ Hst1 Hd Ec1) as (Erc & Hh2 & _ & _).
  clear Ec1 Hst1. rewrite Hw1 in Erc, Hh2. fold b1 in Erc, Hh2.
  assert (Htc : tree_in (heap w2) rc (VDict kw) b1 (length (heap w2))).
  { rewrite Hh2 at 2. rewrite length_app. fold b1.
    apply store_tree_in; [rewrite Erc; apply surjective_pairing|].
    rewrite Hh2. apply segment_self. }
  rewrite store_at_dict in Erc. cbn [fst] in Erc. subst rc.
  set (b2 := length (heap w2)) in *.
  assert (Hb12 : b1 < b2).
  { unfold b2. rewrite Hh2, store_at_dict, length_app. cbn [snd length]. fold b1. lia. }
  inversion Htc as [|? ? ? ? ? ? ?|l0 ys0 kvs0 lo0 hi0 _ Ey0 Hi0]; subst.
  assert (Hd2 : tree_in (heap w2) d (VDict kw) b (b + length objs)).
  { apply (proj1 (tree_in_frame_all (heap w) _)); [exact Ht0|].
    intros l Hl. rewrite Hh2. apply lookup_app_l. fold b1. lia. }
  clear Htc Ht0.
  (* what the later steps keep of [w2] *)
  pose (low := fun h : list obj =>
                 forall l, l < b2 -> l <> b1 -> h !! l = heap w2 !! l).
  assert (Hlow_d : forall h, low h -> tree_in h d (VDict kw) b (b + length objs)).
  { intros h Hh. apply (proj1 (tree_in_frame_all (heap w2) _)); [exact Hd2|].
    intros l Hl. apply Hh; lia. }
  assert (Hlow_i : forall h, low h -> items_in h ys0 kw (S b1) b2).
  { intros h Hh. apply (proj2 (proj2 (tree_in_frame_all (heap w2) _))); [exact Hi0|].
    intros l Hl. apply Hh; lia. }
  assert (Hlow_at : forall h h', low h -> only_at b1 h h' -> low h').
  { intros h h' Hh [_ Ho] l Hl Hne. rewrite Ho by exact Hne. apply Hh; assumption. }
  assert (L2 : low (heap w2)) by (intros l _ _; reflexivity).
  (* model_code *)
  apply bind_ok in E as (m1 & w3a & Eg1 & E).
  apply bind_ok in E as (n1 & w3b & Eg2 & E).
  apply bind_ok in E as (mc & w3c & Eg3 & E).
  destruct (tree_lookup_name _ _ _ _ _ _ _ _ _ _ _ _ _ Hd2 Eg1 Eg2 Eg3)
    as (-> & mn & Emn & Emc).
  pose proof (pure_getitem _ _ _ _ _ Eg1). subst w3a.
  pose proof (pure_getitem _ _ _ _ _ Eg2). subst w3b. clear Eg1 Eg2 Eg3.
  apply bind_ok in E as (u1 & w3 & Eset & E).
  destruct (setitem_only_at _ _ _ _ _ _ Eset) as (O3 & _ & _ & ys & Ey & Ey3).
  rewrite Ey0 in Ey. inversion Ey; subst ys. clear Ey Eset.
  pose proof (Hlow_at _ _ L2 O3) as L3.
  (* model_class_name *)
  apply bind_ok in E as (m2 & w4a & Eg1 & E).
  apply bind_ok in E as (n2 & w4b & Eg2 & E).
  apply bind_ok in E as (cn & w4c & Eg3 & E).
  destruct (tree_lookup_name _ _ _ _ _ _ _ _ _ _ _ _ _ (Hlow_d _ L3) Eg1 Eg2 Eg3)
    as (-> & mn' & Emn' & Ecn).
  rewrite Emn in Emn'. inversion Emn'; subst mn'. clear Emn'.
  pose proof (pure_getitem _ _ _ _ _ Eg1). subst w4a.
  pose proof (pure_getitem _ _ _ _ _ Eg2). subst w4b. clear Eg1 Eg2 Eg3.
  apply bind_ok in E as (u2 & w4 & Eset & E).
  destruct (setitem_only_at _ _ _ _ _ _ Eset) as (O4 & _ & _ & ys & Ey & Ey4).
  rewrite Ey3 in Ey. inversion Ey; subst ys. clear Ey Eset.
  pose proof (Hlow_at _ _ L3 O4) as L4.
  (* the dataset's code *)
  apply bind_ok in E as (m3 & w5a & Eg1 & E).
  apply bind_ok in E as (n3 & w5b & Eg2 & E).
  apply bind_ok in E as (code & w5c & Eg3 & E).
  destruct (tree_lookup_name (fun n => get_generated_code_dict cat n data_args)
              _ _ _ _ _ _ _ _ _ _ _ _ (Hlow_d _ L4) Eg1 Eg2 Eg3)
    as (-> & dn & Edn & Ecode).
  pose proof (pure_getitem _ _ _ _ _ Eg1). subst w5a.
  pose proof (pure_getitem _ _ _ _ _ Eg2). subst w5b. clear Eg1 Eg2 Eg3.
  apply bind_ok in E as (u3 & w5 & Eup & E).
  pose proof (update_str_content _ _ _ _ _ _ Eup Ey4) as Ey5.
  destruct (update_str_only_at _ _ _ _ _ Eup) as (O5 & _ & _). clear Eup.
  pose proof (Hlow_at _ _ L4 O5) as L5.
  assert (Hlen5 : length (heap w5) = b2).
  { destruct O3 as [H3 _], O4 as [H4 _], O5 as [H5 _]. unfold b2. congruence. }
  clear O3 O4 O5 L3 L4 Ey3 Ey4.
  set (ys5 := fold_left _ code _) in Ey5.
  (* generated_user_cfg *)
  apply bind_ok in E as (g & w6 & Ec2 & E).
  assert (Hst5 : stored (heap w5) d (VDict kw)).
  { exists b, objs. split; [exact Es|].
    eapply segment_agree; [exact Hs|]. intros l Hl.
    rewrite L5 by lia. rewrite Hh2. apply lookup_app_l. fold b1. lia. }
  destruct (deepcopy_stored_m _ _ _ _ _ _ Hst5 Hd Ec2) as (Eg & Hh6 & _ & _).
  clear Ec2 Hst5. rewrite Hlen5 in Eg, Hh6.
  assert (Htg : tree_in (heap w6) g (VDict kw) b2 (length (heap w6))).
  { rewrite Hh6 at 2. rewrite length_app, Hlen5.
    apply store_tree_in; [rewrite Eg; apply surjective_pairing|].
    rewrite Hh6, <- Hlen5. apply segment_self. }
  rewrite store_at_dict in Eg. cbn [fst] in Eg. subst g.
  assert (Hlt6 : forall l, l < b2 -> heap w6 !! l = heap w5 !! l).
  { intros l Hl. rewrite Hh6. apply lookup_app_l. lia. }
  set (e2 := length (heap w6)) in *.
  assert (Hbe : b2 <= e2).
  { unfold e2. rewrite Hh6, length_app. lia. }
  (* the dataset descriptor *)
  apply bind_ok in E as (dv & w7a & Egd & E).
  pose proof (pure_getitem _ _ _ _ _ Egd). subst w7a.
  destruct (tree_getitem_value _ _ _ _ _ _ _ _ eq_refl Htg Egd)
    as (xd & ad & bd & Exd & Htd).
  apply bind_ok in E as (n & w7a & Elen & E).
  pose proof (pure_py_len _ _ _ _ Elen). subst w7a.
  pose proof (tree_py_len _ _ _ _ _ _ _ _ eq_refl Htd Elen) as Hlen.
  apply bind_ok in E as (u0 & w7 & Eif & E).
  assert (HD : tree_in (heap w7) (Ref b2) (reduce_data (VDict kw)) b2 e2 /\
               (forall j, ~ (b2 <= j < e2) -> heap w7 !! j = heap w6 !! j) /\
               length (heap w7) = e2).
  { unfold reduce_data. rewrite Exd, Hlen.
    destruct (Nat.eqb n 1) eqn:En.
    - apply Nat.eqb_eq in En. subst n.
      apply bind_ok in Eif as (r & w8 & Ep & Eret). inversion Eret; subst w8.
      destruct (tree_pop_path "data" [] _ _ _ _ _ _ _ _ Htg eq_refl Ep)
        as (H1 & H2 & H3 & _). auto.
    - apply Nat.eqb_neq in En.
      apply bind_ok in Eif as (dv2 & w8 & Eg2 & Eif).
      pose proof (pure_getitem _ _ _ _ _ Eg2). subst w8.
      apply bind_ok in Eif as (r & w8 & Ep & Eret). inversion Eret; subst w8.
      assert (Epath : getpath ["data"] (Ref b2) w6 = (Ok dv2, w6)).
      { cbn [getpath]. unfold bind. rewrite Eg2. reflexivity. }
      destruct (tree_pop_path "name" ["data"] _ _ _ _ _ _ _ _ Htg Epath Ep)
        as (H1 & H2 & H3 & _).
      destruct n as [|[|n]]; try congruence; auto. }
  destruct HD as (Ht7 & Hf7 & Hl7). clear Eif Egd Elen Htg.
  (* pipeline_name *)
  apply bind_ok in E as (r1 & w8 & Ep & E).
  pose proof (tree_pop_key "pipeline_name" [] _ _ _ _ _ _ _ _ Ht7 eq_refl Ep) as Kpn.
  cbn [app] in Kpn. rewrite value_at_reduce_data in Kpn by discriminate.
  destruct (tree_pop_path "pipeline_name" [] _ _ _ _ _ _ _ _ Ht7 eq_refl Ep)
    as (Ht8 & Hf8 & Hl8 & _). clear Ep Ht7.
  (* model.name *)
  apply bind_ok in E as (m & w9a & Egm & E).
  pose proof (pure_getitem _ _ _ _ _ Egm). subst w9a.
  apply bind_ok in E as (r2 & w9 & Ep & E).
  assert (Epath : getpath ["model"] (Ref b2) w8 = (Ok m, w8)).
  { cbn [getpath]. unfold bind. rewrite Egm. reflexivity. }
  destruct (tree_pop_path "name" ["model"] _ _ _ _ _ _ _ _ Ht8 Epath Ep)
    as (Ht9 & Hf9 & Hl9 & _). clear Ep Ht8 Epath Egm.
  (* general_pipeline.optimizer.name *)
  apply bind_ok in E as (gp & w10a & Egg & E).
  pose proof (pure_getitem _ _ _ _ _ Egg). subst w10a.
  apply bind_ok in E as (op & w10a & Ego & E).
  pose proof (pure_getitem _ _ _ _ _ Ego). subst w10a.
  apply bind_ok in E as (r3 & w10 & Ep & E).
  assert (Epath : getpath ["general_pipeline"; "optimizer"] (Ref b2) w9 = (Ok op, w9)).
  { cbn [getpath]. unfold bind. rewrite Egg, Ego. reflexivity. }
  pose proof (tree_pop_key "name" ["general_pipeline"; "optimizer"]
                _ _ _ _ _ _ _ _ Ht9 Epath Ep) as Kon.
  cbn [app] in Kon.
  rewrite value_at_del_under, value_at_del_top, value_at_reduce_data in Kon
    by discriminate.
  destruct (tree_pop_path "name" ["general_pipeline"; "optimizer"]
              _ _ _ _ _ _ _ _ Ht9 Epath Ep)
    as (Ht10 & Hf10 & Hl10 & _). clear Ep Ht9 Epath Egg Ego.
  fold (reduced_code (VDict kw)) in Ht10.
  assert (Hf : forall j, j < b2 -> heap w10 !! j = heap w5 !! j).
  { intros j Hj. rewrite Hf10, Hf9, Hf8, Hf7 by lia. apply Hlt6, Hj. }
  assert (Hl : length (heap w10) = e2) by congruence.
  clear Hf7 Hf8 Hf9 Hf10 Hl7 Hl8 Hl9 Hl10 Hlt6.
  (* generated_train_cfg *)
  destruct (value_at_split _ _ _ Kon) as (xg & Exg & _).
  destruct (value_at_one_inv _ _ _ Exg) as (kw0 & Ekw & Ekg).
  inversion Ekw; subst kw0. clear Ekw.
  assert (Hst10 : stored (heap w10) d (VDict kw)).
  { exists b, objs. split; [exact Es|].
    eapply segment_agree; [exact Hs|]. intros l Hl'.
    rewrite Hf by lia. rewrite L5 by lia. rewrite Hh2. apply lookup_app_l. fold b1. lia. }
  destruct (stored_getitem _ _ _ _ _ w10 eq_refl Hst10 Ekg) as (g0' & Eg0' & Hstg).
  assert (Hdg : depth xg <= recursion_limit rt).
  { pose proof (depth_dict_get _ _ _ Ekg). cbn [depth] in Hd. lia. }
  apply bind_ok in E as (g0 & w11a & Eg0 & E).
  rewrite Eg0' in Eg0. inversion Eg0; subst g0' w11a. clear Eg0 Eg0' Hst10.
  apply bind_ok in E as (gtc & w11 & Ec3 & E).
  destruct (deepcopy_stored_m _ _ _ _ _ _ Hstg Hdg Ec3) as (Egtc & Hh11 & _ & _).
  assert (Htt : tree_in (heap w11) gtc xg (length (heap w10)) (length (heap w11))).
  { rewrite Hh11 at 2. rewrite length_app.
    apply store_tree_in; [rewrite Egtc; apply surjective_pairing|].
    rewrite Hh11. apply segment_self. }
  destruct (keeps_deepcopy rt _ _ _ _ _ _ (WI_init w10) Ec3) as (HW11 & Hfr).
  specialize (Hfr gtc eq_refl).
  apply bind_ok in E as (o3 & w12a & Ego & E).
  destruct (keeps_getitem_fresh _ _ _ _ Hfr _ _ _ HW11 Ego) as (HW12a & Hfo).
  specialize (Hfo o3 eq_refl).
  pose proof (pure_getitem _ _ _ _ _ Ego). subst w12a.
  apply bind_ok in E as (r4 & w12 & Ep & E).
  destruct (keeps_pop _ _ _ _ Hfo _ _ _ HW12a Ep) as ((_ & _ & Hsb) & _).
  assert (Epath : getpath ["optimizer"] gtc w11 = (Ok o3, w11)).
  { cbn [getpath]. unfold bind. rewrite Ego. reflexivity. }
  destruct (tree_pop_path "name" ["optimizer"] _ _ _ _ _ _ _ _ Htt Epath Ep)
    as (Htt12 & _). rewrite Hl in Htt12.
  rewrite Hl in Hsb. clear Ec3 Ego Ep Epath HW11 HW12a Hfr Hfo Htt Egtc Hh11 Hstg.
  assert (Ht12 : tree_in (heap w12) (Ref b2) (reduced_code (VDict kw)) b2 e2).
  { apply (proj1 (tree_in_frame_all (heap w10) _)); [exact Ht10|].
    intros l Hl'. apply Hsb. lia. }
  assert (L12 : low (heap w12)).
  { intros l Hl' Hne. rewrite Hsb by lia. rewrite Hf by exact Hl'.
    apply L5; assumption. }
  assert (Ey12 : heap w12 !! b1 = Some (ODict ys5)).
  { rewrite Hsb by lia. rewrite Hf by exact Hb12. exact Ey5. }
  clear Ht10 Hsb Hf Hl L5 Ey5.
  (* the literal *)
  apply bind_ok in E as (s & w13a & Es' & E).
  pose proof (pure_py_str _ _ _ _ _ Es'). subst w13a.
  unfold py_str, reify_m in Es'.
  apply bind_ok in Es' as (r & w13a & Er & Es').
  apply bind_ok in Er as (h13 & w13b & Eh & Er).
  inversion Eh; subst h13 w13b. clear Eh.
  inversion Er as [[Er' Ew]]. subst w13a. clear Er.
  destruct (proj1 (reify_depth_all _) _ _ _ _ Ht12 _ _ Er') as [_ ->].
  inversion Es'; subst s. clear Es' Er' Ht12.
  apply bind_ok in E as (u4 & w13 & Eset1 & E).
  destruct (setitem_only_at _ _ _ _ _ _ Eset1) as (O13 & _ & _ & ys & Ey & Ey13).
  rewrite Ey12 in Ey. inversion Ey; subst ys. clear Ey Eset1.
  apply bind_ok in E as (u5 & w14 & Eset2 & E).
  destruct (setitem_only_at _ _ _ _ _ _ Eset2) as (O14 & _ & _ & ys & Ey & Ey14).
  rewrite Ey13 in Ey. inversion Ey; subst ys. clear Ey Eset2.
  pose proof (Hlow_at _ _ (Hlow_at _ _ L12 O13) O14) as L14.
  inversion E; subst. clear E. cbn [template render_cfg].
  exists f, mn, dn, mc, cn, code.
  assert (Hfwd : forall fuel,
             recursion_limit rt = S fuel -> depth (VDict kw) <= fuel ->
             mapM_items (reify fuel (heap w'))
               (dict_set "user_cfg" d
                  (dict_set "user_cfg_str"
                     (Atom (AStr ("cfg = " +:+ py_repr rt (reduced_code (VDict kw))))) ys5))
             = Ok (render_context rt kw mc cn code)).
  { intros fuel Elim Hfuel.
    assert (E0 : mapM_items (reify fuel (heap w')) ys0 = Ok kw).
    { apply (proj2 (proj2 (tree_in_reify_all _)) _ _ _ _ (Hlow_i _ L14)).
      cbn [depth] in Hfuel. lia. }
    unfold ys5, render_context. rewrite <- reduced_code_config.
    apply mapM_items_set;
      [|exact (proj1 (tree_in_reify_all _) _ _ _ _ (Hlow_d _ L14) _ Hfuel)].
    apply mapM_items_set; [|apply reify_atom].
    apply mapM_items_update_str.
    apply mapM_items_set; [|apply reify_atom].
    apply mapM_items_set; [exact E0 | apply reify_atom]. }
  assert (Htrain : reify (recursion_limit rt) (heap w') gtc
                   = Ok (del_path ["optimizer"] "name" xg)).
  { apply (proj1 (tree_in_reify_all _) _ _ e2 (length (heap w11))).
    - apply (proj1 (tree_in_frame_all (heap w12) _)); [exact Htt12|].
      intros l Hl'. destruct O13 as [_ O13], O14 as [_ O14].
      rewrite O14, O13 by lia. reflexivity.
    - pose proof (depth_del_path ["optimizer"] "name" xg). lia. }
  cbn [generated_train_cfg].
  split; [exact Ef|]. split; [exact Htpl|]. split; [exact Emn|].
  split; [exact Edn|]. split; [exact Emc|]. split; [exact Ecn|].
  split; [exact Ecode|]. split; [exact Kpn|]. split; [exact Kon|].
  split; [|split; [|exists xg; split; [exact Exg | exact Htrain]]].
  - intros ctx Hctx.
    destruct (recursion_limit rt) as [|fuel] eqn:Elim; [discriminate|].
    cbn [reify] in Hctx. rewrite Ey14 in Hctx.
    destruct (mapM_items (reify fuel (heap w')) _) as [ctx'|] eqn:Em; [|discriminate].
    inversion Hctx; subst ctx'. clear Hctx.
    destruct (mapM_items_get _ "user_cfg" _ _ _ Em (dict_get_set_eq _ _ _))
      as (x & Ex & _).
    destruct (proj1 (reify_depth_all _) _ _ _ _ (Hlow_d _ L14) _ _ Ex) as [Hx _].
    rewrite (Hfwd fuel eq_refl Hx) in Em. inversion Em. reflexivity.
  - intros Hlim.
    destruct (recursion_limit rt) as [|fuel] eqn:Elim; [lia|].
    cbn [reify]. rewrite Ey14, (Hfwd fuel eq_refl) by lia. reflexivity.
Qed.

End Run.

Section RunFacts.
Variable rt : Runtime.
Variable cat : Catalog.

(** X10.  Whenever [gen_script] returns a script for a stored
    configuration, the script is what the renderer gives for the
    template read from the template file and the context
    [render_context]: the items of the configuration as they were given
    (nothing removed), [model_code] and [model_class_name] from the model
    registry under the configuration's [model.name], the entries of the
    dataset's code dictionary under [data.name], [user_cfg_str] and
    [user_cfg]. *)
Theorem gen_script_renders_context d kw w script w' :
  stored (heap w) d (VDict kw) ->
  gen_script rt cat d w = (Ok script, w') ->
  exists f tpl mn dn mc cn code,
    files w !! template_path rt = Some f /\
    Template rt (file_text rt f) = Some tpl /\
    value_at ["model"; "name"] (VDict kw) = Some (VStr mn) /\
    value_at ["data"; "name"] (VDict kw) = Some (VStr dn) /\
    get_source_code cat mn = Some mc /\
    get_model_class_name cat mn = Some cn /\
    get_generated_code_dict cat dn data_args = Some code /\
    render rt tpl (render_context rt kw mc cn code) = Some script.
Proof.
  intros Hst E.
  destruct (gen_script_ok_inv _ _ _ _ _ _ E) as (vars & ctx & El & Er & Ern).
  destruct (gen_script_locals_run rt cat _ _ _ _ _ Hst El)
    as (f & mn & dn & mc & cn & code & H1 & H2 & H3 & H4 & H5 & H6 & H7 & _ & _ & Hc & _ & _).
  rewrite (Hc ctx Er) in Ern.
  exists f, (template rt vars), mn, dn, mc, cn, code. auto 10.
Qed.

(** X11.  [gen_script] returns a script only for a configuration that
    itself spells out [general_pipeline.optimizer.name]: the removals of
    lines 108 and 111 act on copies of the dictionary as given, not on
    the validated configuration with its defaults. *)
Theorem gen_script_needs_optimizer_name d kw w script w' :
  stored (heap w) d (VDict kw) ->
  gen_script rt cat d w = (Ok script, w') ->
  is_Some (value_at ["general_pipeline"; "optimizer"; "name"] (VDict kw)).
Proof.
  intros Hst E.
  destruct (gen_script_ok_inv _ _ _ _ _ _ E) as (vars & ctx & El & _).
  destruct (gen_script_locals_run rt cat _ _ _ _ _ Hst El)
    as (f & mn & dn & mc & cn & code & _ & _ & _ & _ & _ & _ & _ & _ & H & _).
  exact H.
Qed.

(** X12.  In any heap, when [gen_script] reaches its [return]:
    [render_cfg] is an object created by the run (line 93), and its entry
    [user_cfg] is the caller's dictionary itself, the same object and not
    a copy (line 114). *)
Theorem render_cfg_aliases_input d w vars w' :
  gen_script_locals rt cat d w = (Ok vars, w') ->
  exists l rc,
    d = Ref l /\ l < length (heap w) /\
    render_cfg rt vars = Ref rc /\ length (heap w) <= rc /\
    getitem (render_cfg rt vars) "user_cfg" w' = (Ok d, w').
Proof.
  intros E. unfold gen_script_locals in E.
  apply bind_ok in E as (u & w1 & Ev & E).
  pose proof (pure_validate_obj _ _ _ _ _ _ Ev). subst w1.
  assert (Hd : exists l, d = Ref l /\ l < length (heap w)).
  { unfold validate_obj, reify_m in Ev.
    apply bind_ok in Ev as (t0 & w1 & Er & Ev).
    apply bind_ok in Er as (h0 & w2 & Eh & Er).
    inversion Eh; subst h0 w2. inversion Er as [[Er' Ew]]. subst w1.
    destruct d as [a|l].
    - rewrite reify_atom in Er'. inversion Er'; subst t0. discriminate Ev.
    - exists l. split; [reflexivity|].
      destruct (recursion_limit rt); [discriminate|]. cbn [reify] in Er'.
      destruct (heap w !! l) eqn:El; [|discriminate].
      apply lookup_lt_Some in El. exact El. }
  destruct Hd as (l & -> & Hl). clear Ev.
  apply bind_ok in E as (src & w1 & Eo & E).
  destruct (open_read_ok_inv _ _ _ _ _ Eo) as (Hw1 & _). clear Eo.
  apply bind_ok in E as (tpl & w1' & Etp & E).
  pose proof (pure_lift_opt _ _ _ _ _ Etp). subst w1'. clear Etp.
  apply bind_ok in E as (rc & w2 & Ec & E).
  destruct (keeps_deepcopy rt _ _ _ _ _ _ (WI_init w1) Ec) as (_ & Hfr).
  specialize (Hfr rc eq_refl). rewrite Hw1 in Hfr. clear Ec.
  do 27 (apply bind_ok in E as (? & ? & _ & E)).
  apply bind_ok in E as (u1 & w13 & _ & E).
  apply bind_ok in E as (u2 & w14 & Eset & E).
  inversion E; subst. clear E. cbn [render_cfg].
  destruct (setitem_ok_inv _ _ _ _ _ _ Eset) as (lr & ys & -> & Ey & ->).
  exists l, lr. repeat split; try assumption.
  unfold getitem, deref, bind, get_heap, ret. cbn [heap fst snd].
  rewrite list_lookup_insert_eq by (apply lookup_lt_Some in Ey; exact Ey).
  cbn [snd]. rewrite dict_get_set_eq. reflexivity.
Qed.

(** X13.  When [gen_script] reaches its [return] on a stored
    configuration, [generated_train_cfg] (lines 110-111) stands for the
    [general_pipeline] mapping of the input without its
    [optimizer.name]. *)
Theorem generated_train_cfg_reduced d kw w vars w' :
  stored (heap w) d (VDict kw) ->
  gen_script_locals rt cat d w = (Ok vars, w') ->
  exists gp,
    value_at ["general_pipeline"] (VDict kw) = Some gp /\
    reify (recursion_limit rt) (heap w') (generated_train_cfg rt vars)
    = Ok (del_path ["optimizer"] "name" gp) /\
    value_at ["optimizer"; "name"] (del_path ["optimizer"] "name" gp) = None.
Proof.
  intros Hst El.
  destruct (gen_script_locals_run rt cat _ _ _ _ _ Hst El)
    as (f & mn & dn & mc & cn & code & _ & _ & _ & _ & _ & _ & _ & _ & _ & _ & _
        & gp & Hgp & Hr).
  exists gp. split; [exact Hgp|]. split; [exact Hr|].
  apply (value_at_del_path_end "name" ["optimizer"]).
Qed.

End RunFacts.

Lemma gen_script_renders_context_witness :
  exists f tpl mn dn mc cn code,
    files Example.w1 !! template_path Example.rt = Some f /\
    Template Example.rt (file_text Example.rt f) = Some tpl /\
    value_at ["model"; "name"] Example.cfg1 = Some (VStr mn) /\
    value_at ["data"; "name"] Example.cfg1 = Some (VStr dn) /\
    get_source_code Example.cat mn = Some mc /\
    get_model_class_name Example.cat mn = Some cn /\
    get_generated_code_dict Example.cat dn data_args = Some code /\
    render Example.rt tpl
      (render_context Example.rt
         [("pipeline_name", VStr "nodepred");
          ("device", VStr "cpu");
          ("data", VDict [("name", VStr "cora")]);
          ("model", VDict [("name", VStr "gcn"); ("hidden_size", VInt 32)]);
          ("general_pipeline",
           VDict [("num_epochs", VInt 10);
                  ("optimizer", VDict [("name", VStr "SGD"); ("lr", VFloat "0.1")])])]
         mc cn code)
    = Some "# template cfg = {'device': 'cpu', 'model': {'hidden_size': 32}, 'general_pipeline': {'num_epochs': 10, 'optimizer': {'lr': 0.1}}}".
Proof.
  apply (gen_script_renders_context Example.rt Example.cat (Ref 0) _ Example.w1 _
           (snd (gen_script Example.rt Example.cat (Ref 0) Example.w1))).
  - exact (alloc_stored Example.cfg1 Example.w0).
  - vm_compute. reflexivity.
Defined.

Lemma gen_script_needs_optimizer_name_witness :
  is_Some (value_at ["general_pipeline"; "optimizer"; "name"] Example.cfg1).
Proof.
  apply (gen_script_needs_optimizer_name Example.rt Example.cat (Ref 0) _ Example.w1
           (fst_ok (fst (gen_script Example.rt Example.cat (Ref 0) Example.w1)))
           (snd (gen_script Example.rt Example.cat (Ref 0) Example.w1))).
  - exact (alloc_stored Example.cfg1 Example.w0).
  - vm_compute. reflexivity.
Defined.

Lemma render_cfg_aliases_input_witness :
  exists vars w',
    gen_script_locals Example.rt Example.cat (Ref 0) Example.w1 = (Ok vars, w') /\
    exists l rc,
      Ref 0 = Ref l /\ l < length (heap Example.w1) /\
      render_cfg Example.rt vars = Ref rc /\ length (heap Example.w1) <= rc /\
      getitem (render_cfg Example.rt vars) "user_cfg" w' = (Ok (Ref 0), w').
Proof.
  eexists. eexists. split.
  - vm_compute. reflexivity.
  - eapply (render_cfg_aliases_input Example.rt Example.cat (Ref 0) Example.w1).
    vm_compute. reflexivity.
Defined.

Lemma generated_train_cfg_reduced_witness :
  exists vars w',
    gen_script_locals Example.rt Example.cat (Ref 0) Example.w1 = (Ok vars, w') /\
    exists gp,
      value_at ["general_pipeline"] Example.cfg1 = Some gp /\
      reify (recursion_limit Example.rt) (heap w') (generated_train_cfg Example.rt vars)
      = Ok (del_path ["optimizer"] "name" gp) /\
      value_at ["optimizer"; "name"] (del_path ["optimizer"] "name" gp) = None.
Proof.
  eexists. eexists. split.
  - vm_compute. reflexivity.
  - eapply (generated_train_cfg_reduced Example.rt Example.cat (Ref 0) _ Example.w1).
    + exact (alloc_stored Example.cfg1 Example.w0).
    + vm_compute. reflexivity.
Defined.

(** ** [gen_script] returns *)

Lemma value_at_two_inv k1 k2 x y :
  value_at [k1; k2] x = Some y ->
  exists x1, value_at [k1] x = Some x1 /\ value_at [k2] x1 = Some y.
Proof.
  intros E. destruct (value_at_split k1 [k2] x) as (x1 & E1 & _); [rewrite E; eauto|].
  exists x1. split; [exact E1|]. rewrite <- E. symmetry. apply value_at_cons, E1.
Qed.

Lemma tree_lookup_name_fwd {A B} (lookup : string -> option A) v x a b k n r w
    (rest : A -> M B) :
  tree_in (heap w) v x a b ->
  value_at [k; "name"] x = Some (VStr n) -> lookup n = Some r ->
  bind (getitem v k)
    (fun m => bind (getitem m "name") (fun c => bind (registry lookup c) rest)) w
  = rest r w.
Proof.
  intros Ht Ev El. apply value_at_two_inv in Ev as (x1 & E1 & E2).
  destruct (tree_getitem_fwd _ _ _ _ _ _ _ Ht E1) as (c1 & a1 & b1 & Eg1 & Ht1).
  destruct (tree_getitem_fwd _ _ _ _ _ _ _ Ht1 E2) as (c2 & a2 & b2 & Eg2 & Ht2).
  apply tree_in_VAtom_inv in Ht2. subst c2.
  rewrite (bind_eq _ _ _ _ _ Eg1), (bind_eq _ _ _ _ _ Eg2).
  rewrite (bind_eq _ _ _ _ _ (registry_some _ _ _ _ El)). reflexivity.
Qed.

Lemma setitem_fwd l ys k v w :
  heap w !! l = Some (ODict ys) ->
  exists w', setitem (Ref l) k v w = (Ok tt, w').
Proof. intros El. rewrite (setitem_run _ _ _ _ _ El). eauto. Qed.

Section Forward.
Variable rt : Runtime.
Variable cat : Catalog.

Lemma gen_script_locals_succeeds d kw w u f tpl mn dn mc cn code :
  stored (heap w) d (VDict kw) ->
  depth (VDict kw) <= recursion_limit rt ->
  NodePredUserConfig_validate rt cat kw = Some u ->
  files w !! template_path rt = Some f ->
  Template rt (file_text rt f) = Some tpl ->
  value_at ["model"; "name"] (VDict kw) = Some (VStr mn) ->
  value_at ["data"; "name"] (VDict kw) = Some (VStr dn) ->
  get_source_code cat mn = Some mc ->
  get_model_class_name cat mn = Some cn ->
  get_generated_code_dict cat dn data_args = Some code ->
  is_Some (value_at ["pipeline_name"] (VDict kw)) ->
  is_Some (value_at ["general_pipeline"; "optimizer"; "name"] (VDict kw)) ->
  exists vars w', gen_script_locals rt cat d w = (Ok vars, w').
Proof.
  intros Hst Hd Hval Hf Htpl Hmn Hdn Hmc Hcn Hcode Hpn Hon.
  assert (Hin : exists b objs, store_at b (VDict kw) = (d, objs) /\
                               segment (heap w) b objs) by exact Hst.
  destruct Hin as (b & objs & Es & Hs).
  pose proof (store_tree_in _ _ _ _ _ Es Hs) as Ht0.
  assert (Hb : b + length objs <= length (heap w)).
  { apply segment_bound; [exact Hs|]. rewrite store_at_dict in Es.
    inversion Es; discriminate. }
  set (b1 := length (heap w)) in *.
  unfold gen_script_locals.
  (* validation *)
  assert (Hv : validate_obj rt cat d w = (Ok u, w)).
  { unfold validate_obj.
    rewrite (bind_eq _ _ _ _ _ (reify_stored_run rt _ _ w Hst Hd)).
    apply lift_opt_some, Hval. }
  rewrite (bind_eq _ _ _ _ _ Hv). clear Hv.
  (* the template *)
  assert (Eo : exists w1, open_read rt (template_path rt) w = (Ok (file_text rt f), w1) /\
                          heap w1 = heap w).
  { unfold open_read. rewrite Hf. eexists. split; reflexivity. }
  destruct Eo as (w1 & Eo & Hw1). rewrite (bind_eq _ _ _ _ _ Eo). clear Eo.
  rewrite (bind_eq _ _ _ _ _ (lift_opt_some _ _ _ _ Htpl)).
  (* render_cfg *)
  assert (Hst1 : stored (heap w1) d (VDict kw)) by (rewrite Hw1; exact Hst).
  assert (Ec1 : exists rc w2, deepcopy rt d w1 = (Ok rc, w2)).
  { rewrite (deepcopy_stored_run rt _ _ _ Hst1 Hd). eauto. }
  destruct Ec1 as (rc & w2 & Ec1). rewrite (bind_eq _ _ _ _ _ Ec1).
  destruct (deepcopy_stored_m _ _ _ _ _ _ Hst1 Hd Ec1) as (Erc & Hh2 & _ & _).
  clear Ec1 Hst1. rewrite Hw1 in Erc, Hh2. fold b1 in Erc, Hh2.
  assert (Htc : tree_in (heap w2) rc (VDict kw) b1 (length (heap w2))).
  { rewrite Hh2 at 2. rewrite length_app. fold b1.
    apply store_tree_in; [rewrite Erc; apply surjective_pairing|].
    rewrite Hh2. apply segment_self. }
  rewrite store_at_dict in Erc. cbn [fst] in Erc. subst rc.
  set (b2 := length (heap w2)) in *.
  assert (Hb12 : b1 < b2).
  { unfold b2. rewrite Hh2, store_at_dict, length_app. cbn [snd length]. fold b1. lia. }
  inversion Htc as [|? ? ? ? ? ? ?|l0 ys0 kvs0 lo0 hi0 _ Ey0 Hi0]; subst.
  assert (Hd2 : tree_in (heap w2) d (VDict kw) b (b + length objs)).
  { apply (proj1 (tree_in_frame_all (heap w) _)); [exact Ht0|].
    intros l Hl. rewrite Hh2. apply lookup_app_l. fold b1. lia. }
  clear Htc Ht0.
  pose (low := fun h : list obj =>
                 forall l, l < b2 -> l <> b1 -> h !! l = heap w2 !! l).
  assert (Hlow_d : forall h, low h -> tree_in h d (VDict kw) b (b + length objs)).
  { intros h Hh. apply (proj1 (tree_in_frame_all (heap w2) _)); [exact Hd2|].
    intros l Hl. apply Hh; lia. }
  assert (Hlow_at : forall h h', low h -> only_at b1 h h' -> low h').
  { intros h h' Hh [_ Ho] l Hl Hne. rewrite Ho by exact Hne. apply Hh; assumption. }
  assert (L2 : low (heap w2)) by (intros l _ _; reflexivity).
  (* model_code *)
  rewrite (tree_lookup_name_fwd _ _ _ _ _ _ _ _ _ _ Hd2 Hmn Hmc).
  destruct (setitem_fwd _ _ "model_code" (Atom (AStr mc)) _ Ey0) as (w3 & Eset).
  rewrite (bind_eq _ _ _ _ _ Eset).
  destruct (setitem_only_at _ _ _ _ _ _ Eset) as (O3 & _ & _ & ys & Ey & Ey3).
  rewrite Ey0 in Ey. inversion Ey; subst ys. clear Ey Eset.
  pose proof (Hlow_at _ _ L2 O3) as L3.
  (* model_class_name *)
  rewrite (tree_lookup_name_fwd _ _ _ _ _ _ _ _ _ _ (Hlow_d _ L3) Hmn Hcn).
  destruct (setitem_fwd _ _ "model_class_name" (Atom (AStr cn)) _ Ey3) as (w4 & Eset).
  rewrite (bind_eq _ _ _ _ _ Eset).
  destruct (setitem_only_at _ _ _ _ _ _ Eset) as (O4 & _ & _ & ys & Ey & Ey4).
  rewrite Ey3 in Ey. inversion Ey; subst ys. clear Ey Eset.
  pose proof (Hlow_at _ _ L3 O4) as L4.
  (* the dataset's code *)
  rewrite (tree_lookup_name_fwd (fun n => get_generated_code_dict cat n data_args)
             _ _ _ _ _ _ _ _ _ (Hlow_d _ L4) Hdn Hcode).
  assert (Eup : exists w5, update_str (Ref b1) code w4 = (Ok tt, w5)).
  { destruct (update_str_dict b1 _ code w4 Ey4) as (kv' & Eu). eauto. }
  destruct Eup as (w5 & Eup). rewrite (bind_eq _ _ _ _ _ Eup).
  pose proof (update_str_content _ _ _ _ _ _ Eup Ey4) as Ey5.
  destruct (update_str_only_at _ _ _ _ _ Eup) as (O5 & _ & _). clear Eup.
  pose proof (Hlow_at _ _ L4 O5) as L5.
  assert (Hlen5 : length (heap w5) = b2).
  { destruct O3 as [H3 _], O4 as [H4 _], O5 as [H5 _]. unfold b2. congruence. }
  clear O3 O4 O5 L3 L4 Ey3 Ey4.
  set (ys5 := fold_left _ code _) in Ey5.
  (* generated_user_cfg *)
  assert (Hst5 : stored (heap w5) d (VDict kw)).
  { exists b, objs. split; [exact Es|].
    eapply segment_agree; [exact Hs|]. intros l Hl.
    rewrite L5 by lia. rewrite Hh2. apply lookup_app_l. fold b1. lia. }
  assert (Ec2 : exists g w6, deepcopy rt d w5 = (Ok g, w6)).
  { rewrite (deepcopy_stored_run rt _ _ _ Hst5 Hd). eauto. }
  destruct Ec2 as (g & w6 & Ec2). rewrite (bind_eq _ _ _ _ _ Ec2).
  destruct (deepcopy_stored_m _ _ _ _ _ _ Hst5 Hd Ec2) as (Eg & Hh6 & _ & _).
  clear Ec2 Hst5. rewrite Hlen5 in Eg, Hh6.
  assert (Htg : tree_in (heap w6) g (VDict kw) b2 (length (heap w6))).
  { rewrite Hh6 at 2. rewrite length_app, Hlen5.
    apply store_tree_in; [rewrite Eg; apply surjective_pairing|].
    rewrite Hh6, <- Hlen5. apply segment_self. }
  rewrite store_at_dict in Eg. cbn [fst] in Eg. subst g.
  assert (Hlt6 : forall l, l < b2 -> heap w6 !! l = heap w5 !! l).
  { intros l Hl. rewrite Hh6. apply lookup_app_l. lia. }
  set (e2 := length (heap w6)) in *.
  assert (Hbe : b2 <= e2).
  { unfold e2. rewrite Hh6, length_app. lia. }
  (* the paths of the configuration that the run follows *)
  destruct (value_at_two_inv _ _ _ _ Hdn) as (xd & Exd & Exdn).
  destruct (value_at_one_inv _ _ _ Exdn) as (kd & -> & _).
  destruct (value_at_two_inv _ _ _ _ Hmn) as (xm & Exm & Exmn).
  destruct (value_at_split _ _ _ Hon) as (xg & Exg & Hon1).
  destruct (value_at_split _ _ _ Hon1) as (xo & Exo & Hon2).
  (* the dataset descriptor *)
  destruct (tree_getitem_fwd _ _ _ _ _ _ _ Htg Exd) as (dv & ad & bd & Egd & Htd).
  rewrite (bind_eq _ _ _ _ _ Egd).
  rewrite (bind_eq _ _ _ _ _ (tree_py_len_fwd _ _ _ _ _ _ Htd eq_refl)).
  assert (Eif : exists w7,
             (if Nat.eqb (length kd) 1
              then (_ <- pop (Ref b2) "data" ;; ret tt)
              else (d1 <- getitem (Ref b2) "data" ;; _ <- pop d1 "name" ;; ret tt)) w6
             = (Ok tt, w7)).
  { destruct (Nat.eqb (length kd) 1).
    - destruct (tree_pop_fwd _ _ _ _ "data" _ Htg) as (r & w7 & Ep);
        [rewrite Exd; eauto|].
      exists w7. rewrite (bind_eq _ _ _ _ _ Ep). reflexivity.
    - rewrite (bind_eq _ _ _ _ _ Egd).
      destruct (tree_pop_fwd _ _ _ _ "name" _ Htd) as (r & w7 & Ep);
        [rewrite Exdn; eauto|].
      exists w7. rewrite (bind_eq _ _ _ _ _ Ep). reflexivity. }
  destruct Eif as (w7 & Eif). rewrite (bind_eq _ _ _ _ _ Eif).
  assert (HD : tree_in (heap w7) (Ref b2) (reduce_data (VDict kw)) b2 e2 /\
               (forall j, ~ (b2 <= j < e2) -> heap w7 !! j = heap w6 !! j) /\
               length (heap w7) = e2).
  { unfold reduce_data. rewrite Exd. cbn [len_value].
    destruct (Nat.eqb (length kd) 1) eqn:En.
    - apply Nat.eqb_eq in En. rewrite En.
      apply bind_ok in Eif as (r & w8 & Ep & Eret). inversion Eret; subst w8.
      destruct (tree_pop_path "data" [] _ _ _ _ _ _ _ _ Htg eq_refl Ep)
        as (H1 & H2 & H3 & _). auto.
    - apply Nat.eqb_neq in En.
      apply bind_ok in Eif as (dv2 & w8 & Eg2 & Eif).
      pose proof (pure_getitem _ _ _ _ _ Eg2). subst w8.
      apply bind_ok in Eif as (r & w8 & Ep & Eret). inversion Eret; subst w8.
      assert (Epath : getpath ["data"] (Ref b2) w6 = (Ok dv2, w6)).
      { cbn [getpath]. unfold bind. rewrite Eg2. reflexivity. }
      destruct (tree_pop_path "name" ["data"] _ _ _ _ _ _ _ _ Htg Epath Ep)
        as (H1 & H2 & H3 & _).
      destruct (length kd) as [|[|n]]; try congruence; auto. }
  destruct HD as (Ht7 & Hf7 & Hl7). clear Eif Egd Htg Htd.
  (* pipeline_name *)
  destruct (tree_pop_fwd _ _ _ _ "pipeline_name" _ Ht7) as (r1 & w8 & Ep).
  { rewrite value_at_reduce_data by discriminate. exact Hpn. }
  rewrite (bind_eq _ _ _ _ _ Ep).
  destruct (tree_pop_path "pipeline_name" [] _ _ _ _ _ _ _ _ Ht7 eq_refl Ep)
    as (Ht8 & Hf8 & Hl8 & _). clear Ep Ht7.
  (* model.name *)
  destruct (tree_getitem_fwd _ _ _ _ "model" xm _ Ht8) as (m & am & bm & Egm & Htm).
  { rewrite value_at_del_top, value_at_reduce_data by discriminate. exact Exm. }
  rewrite (bind_eq _ _ _ _ _ Egm).
  destruct (tree_pop_fwd _ _ _ _ "name" _ Htm) as (r2 & w9 & Ep);
    [rewrite Exmn; eauto|].
  rewrite (bind_eq _ _ _ _ _ Ep).
  assert (Epath : getpath ["model"] (Ref b2) w8 = (Ok m, w8)).
  { cbn [getpath]. unfold bind. rewrite Egm. reflexivity. }
  destruct (tree_pop_path "name" ["model"] _ _ _ _ _ _ _ _ Ht8 Epath Ep)
    as (Ht9 & Hf9 & Hl9 & _). clear Ep Ht8 Epath Egm Htm.
  (* general_pipeline.optimizer.name *)
  destruct (tree_getitem_fwd _ _ _ _ "general_pipeline" xg _ Ht9)
    as (gp & ag & bg & Egg & Htgp).
  { rewrite value_at_del_under, value_at_del_top, value_at_reduce_data by discriminate.
    exact Exg. }
  rewrite (bind_eq _ _ _ _ _ Egg).
  destruct (tree_getitem_fwd _ _ _ _ _ _ _ Htgp Exo) as (op & ao & bo & Ego & Hto).
  rewrite (bind_eq _ _ _ _ _ Ego).
  destruct (tree_pop_fwd _ _ _ _ "name" _ Hto Hon2) as (r3 & w10 & Ep).
  rewrite (bind_eq _ _ _ _ _ Ep).
  assert (Epath : getpath ["general_pipeline"; "optimizer"] (Ref b2) w9 = (Ok op, w9)).
  { cbn [getpath]. unfold bind. rewrite Egg, Ego. reflexivity. }
  destruct (tree_pop_path "name" ["general_pipeline"; "optimizer"]
              _ _ _ _ _ _ _ _ Ht9 Epath Ep)
    as (Ht10 & Hf10 & Hl10 & _). clear Ep Ht9 Epath Egg Ego Htgp Hto.
  fold (reduced_code (VDict kw)) in Ht10.
  assert (Hf5 : forall j, j < b2 -> heap w10 !! j = heap w5 !! j).
  { intros j Hj. rewrite Hf10, Hf9, Hf8, Hf7 by lia. apply Hlt6, Hj. }
  assert (Hl : length (heap w10) = e2) by congruence.
  clear Hf7 Hf8 Hf9 Hf10 Hl7 Hl8 Hl9 Hl10 Hlt6.
  (* generated_train_cfg *)
  assert (Hst10 : stored (heap w10) d (VDict kw)).
  { exists b, objs. split; [exact Es|].
    eapply segment_agree; [exact Hs|]. intros l Hl'.
    rewrite Hf5 by lia. rewrite L5 by lia. rewrite Hh2. apply lookup_app_l. fold b1. lia. }
  destruct (value_at_one_inv _ _ _ Exg) as (kw' & Ekw & Ekg). inversion Ekw; subst kw'.
  clear Ekw.
  destruct (stored_getitem _ _ _ _ _ w10 eq_refl Hst10 Ekg) as (g0 & Eg0 & Hstg).
  rewrite (bind_eq _ _ _ _ _ Eg0). clear Eg0.
  assert (Hdg : depth xg <= recursion_limit rt).
  { pose proof (depth_dict_get _ _ _ Ekg). cbn [depth] in Hd. lia. }
  assert (Ec3 : exists gtc w11, deepcopy rt g0 w10 = (Ok gtc, w11)).
  { rewrite (deepcopy_stored_run rt _ _ _ Hstg Hdg). eauto. }
  destruct Ec3 as (gtc & w11 & Ec3). rewrite (bind_eq _ _ _ _ _ Ec3).
  destruct (deepcopy_stored_m _ _ _ _ _ _ Hstg Hdg Ec3) as (Egtc & Hh11 & _ & _).
  assert (Htt : tree_in (heap w11) gtc xg (length (heap w10)) (length (heap w11))).
  { rewrite Hh11 at 2. rewrite length_app.
    apply store_tree_in; [rewrite Egtc; apply surjective_pairing|].
    rewrite Hh11. apply segment_self. }
  destruct (keeps_deepcopy rt _ _ _ _ _ _ (WI_init w10) Ec3) as (HW11 & Hfr).
  specialize (Hfr gtc eq_refl).
  destruct (tree_getitem_fwd _ _ _ _ _ _ _ Htt Exo) as (o3 & a3 & b3 & Ego & Hto).
  rewrite (bind_eq _ _ _ _ _ Ego).
  destruct (keeps_getitem_fresh _ _ _ _ Hfr _ _ _ HW11 Ego) as (HW12a & Hfo).
  specialize (Hfo o3 eq_refl).
  destruct (tree_pop_fwd _ _ _ _ "name" _ Hto Hon2) as (r4 & w12 & Ep).
  rewrite (bind_eq _ _ _ _ _ Ep).
  destruct (keeps_pop _ _ _ _ Hfo _ _ _ HW12a Ep) as ((_ & _ & Hsb) & _).
  rewrite Hl in Hsb. clear Ec3 Ego Ep HW11 HW12a Hfr Hfo Htt Hto Egtc Hh11 Hstg.
  assert (Ht12 : tree_in (heap w12) (Ref b2) (reduced_code (VDict kw)) b2 e2).
  { apply (proj1 (tree_in_frame_all (heap w10) _)); [exact Ht10|].
    intros l Hl'. apply Hsb. lia. }
  assert (Ey12 : heap w12 !! b1 = Some (ODict ys5)).
  { rewrite Hsb by lia. rewrite Hf5 by exact Hb12. exact Ey5. }
  (* the literal *)
  assert (Estr : py_str rt (Ref b2) w12
                 = (Ok (py_repr rt (reduced_code (VDict kw))), w12)).
  { unfold py_str, reify_m, bind, get_heap, lift, ret.
    rewrite (proj1 (tree_in_reify_all _) _ _ _ _ Ht12).
    - reflexivity.
    - pose proof (depth_reduced_code (VDict kw)). lia. }
  rewrite (bind_eq _ _ _ _ _ Estr).
  destruct (setitem_fwd _ _ "user_cfg_str"
              (Atom (AStr ("cfg = " +:+ py_repr rt (reduced_code (VDict kw))))) _ Ey12)
    as (w13 & Eset1).
  rewrite (bind_eq _ _ _ _ _ Eset1).
  destruct (setitem_only_at _ _ _ _ _ _ Eset1) as (_ & _ & _ & ys & _ & Ey13).
  destruct (setitem_fwd _ _ "user_cfg" d _ Ey13) as (w14 & Eset2).
  rewrite (bind_eq _ _ _ _ _ Eset2).
  eexists. eexists. reflexivity.
Qed.

Lemma validated_has_pipeline_name kw u :
  NodePredUserConfig_validate rt cat kw = Some u ->
  is_Some (value_at ["pipeline_name"] (VDict kw)).
Proof.
  unfold NodePredUserConfig_validate, field. cbn [value_at].
  destruct (dict_get "pipeline_name" kw) as [v|]; [eauto | discriminate].
Qed.

(** X14.  [gen_script] returns: for a stored configuration that
    validates, nests less deep than the recursion limit, and spells out
    [general_pipeline.optimizer.name], with the template file in place
    and the registries holding the model's source code and class name and
    the dataset's code dictionary, [gen_script] returns the script the
    renderer gives for the context [render_context], provided the
    renderer gives one. *)
Theorem gen_script_returns d kw w u f tpl mn dn mc cn code script :
  stored (heap w) d (VDict kw) ->
  depth (VDict kw) < recursion_limit rt ->
  NodePredUserConfig_validate rt cat kw = Some u ->
  files w !! template_path rt = Some f ->
  Template rt (file_text rt f) = Some tpl ->
  value_at ["model"; "name"] (VDict kw) = Some (VStr mn) ->
  value_at ["data"; "name"] (VDict kw) = Some (VStr dn) ->
  get_source_code cat mn = Some mc ->
  get_model_class_name cat mn = Some cn ->
  get_generated_code_dict cat dn data_args = Some code ->
  is_Some (value_at ["general_pipeline"; "optimizer"; "name"] (VDict kw)) ->
  render rt tpl (render_context rt kw mc cn code) = Some script ->
  exists w', gen_script rt cat d w = (Ok script, w').
Proof.
  intros Hst Hd Hval Hf Htpl Hmn Hdn Hmc Hcn Hcode Hon Hr.
  destruct (gen_script_locals_succeeds d kw w u f tpl mn dn mc cn code)
    as (vars & w' & El); try assumption; [lia | eapply validated_has_pipeline_name, Hval|].
  destruct (gen_script_locals_run rt cat _ _ _ _ _ Hst El)
    as (f' & mn' & dn' & mc' & cn' & code' & H1 & H2 & H3 & H4 & H5 & H6 & H7 & _ & _ & _ & Hc & _).
  rewrite Hf in H1. inversion H1; subst f'. rewrite Htpl in H2. inversion H2 as [Etpl].
  rewrite Hmn in H3. inversion H3; subst mn'.
  rewrite Hdn in H4. inversion H4; subst dn'.
  rewrite Hmc in H5. inversion H5; subst mc'.
  rewrite Hcn in H6. inversion H6; subst cn'.
  rewrite Hcode in H7. inversion H7; subst code'.
  exists w'. unfold gen_script. rewrite (bind_eq _ _ _ _ _ El).
  unfold render_locals, reify_m, bind, get_heap, lift. rewrite (Hc Hd).
  rewrite <- Etpl, Hr. reflexivity.
Qed.

End Forward.

Lemma gen_script_returns_witness :
  exists w',
    gen_script Example.rt Example.cat (Ref 0) Example.w2
    = (Ok "# template cfg = {'device': 'cuda', 'data': {'data_path': './data'}, 'model': {}, 'general_pipeline': {'optimizer': {'lr': 0.005}}}", w').
Proof.
  refine (gen_script_returns Example.rt Example.cat (Ref 0) _ Example.w2
            _ (FText "# template ") "# template " "gcn" "csv" "class GCN: pass" "GCN"
            [("data_initialize_code", "csv(" +:+ data_args +:+ ")")] _
            (alloc_stored Example.cfg2 Example.w0) _ _ _ _ _ _ _ _ _ _ _).
  - vm_compute. lia.
  - vm_compute. reflexivity.
  - vm_compute. reflexivity.
  - reflexivity.
  - reflexivity.
  - reflexivity.
  - reflexivity.
  - reflexivity.
  - vm_compute. reflexivity.
  - vm_compute. eauto.
  - vm_compute. reflexivity.
Defined.

(** ** Which assignment a key of the render context comes from *)

Lemma dict_get_set {V} k k' (v : V) kvs :
  dict_get k (dict_set k' v kvs)
  = if String.eqb k k' then Some v else dict_get k kvs.
Proof.
  destruct (String.eqb_spec k k') as [->|Hne].
  - apply dict_get_set_eq.
  - apply dict_get_set_ne. exact Hne.
Qed.

Lemma dict_get_app {V} k (d1 d2 : list (string * V)) :
  dict_get k (d1 ++ d2)
  = match dict_get k d1 with Some v => Some v | None => dict_get k d2 end.
Proof.
  induction d1 as [|[k0 v0] r IH]; cbn [app dict_get]; [reflexivity|].
  destruct (String.eqb k0 k); [reflexivity | exact IH].
Qed.

(** [d.update(other)]: a key of [other] has the value [other] gives it,
    the last one if [other] lists it twice; any other key is as in [d]. *)
Lemma dict_get_update {V} k (other : list (string * V)) :
  forall d,
    dict_get k (dict_update d other)
    = match dict_get k (rev other) with
      | Some v => Some v
      | None => dict_get k d
      end.
Proof.
  unfold dict_update.
  induction other as [|[k0 v0] r IH]; intros d; cbn [fold_left rev fst snd];
    [reflexivity|].
  rewrite IH, dict_get_app, dict_get_set. cbn [dict_get].
  destruct (dict_get k (rev r)); [reflexivity|].
  rewrite String.eqb_sym. destruct (String.eqb k0 k); reflexivity.
Qed.

Lemma dict_get_map_snd {V W} (g : V -> W) k (d : list (string * V)) :
  dict_get k (map (fun kv => (fst kv, g (snd kv))) d) = option_map g (dict_get k d).
Proof.
  induction d as [|[k0 v0] r IH]; cbn [map dict_get fst snd option_map];
    [reflexivity|].
  destruct (String.eqb k0 k); [reflexivity | exact IH].
Qed.

(** X15.  Which assignment of [gen_script] a key of the render context
    comes from: [user_cfg] (line 114) and [user_cfg_str] (line 113)
    come last and win; before them an entry of the dataset's code
    dictionary (line 99); before it [model_class_name] and [model_code]
    (lines 96-98); any other key has the value the configuration gives
    it (line 93). *)
Theorem render_context_precedence rt kw mc cn code k :
  dict_get k (render_context rt kw mc cn code)
  = if String.eqb k "user_cfg" then Some (VDict kw)
    else if String.eqb k "user_cfg_str" then
      Some (VStr ("cfg = " +:+ py_repr rt (reduced_config (VDict kw))))
    else
      match dict_get k (rev code) with
      | Some s => Some (VStr s)
      | None =>
          if String.eqb k "model_class_name" then Some (VStr cn)
          else if String.eqb k "model_code" then Some (VStr mc)
          else dict_get k kw
      end.
Proof.
  unfold render_context. rewrite !dict_get_set.
  destruct (String.eqb k "user_cfg"); [reflexivity|].
  destruct (String.eqb k "user_cfg_str"); [reflexivity|].
  rewrite dict_get_update, <- map_rev, dict_get_map_snd, !dict_get_set.
  destruct (dict_get k (rev code)); reflexivity.
Qed.

(** ** The comments of the pipeline settings *)




